(** * SaveAny-Bot Monitor: the download-task registry of [saveany_monitor.py]

    A shallow embedding of the log-line parser [SaveAnyMonitor.parse_download_task],
    of the bulk-clear operations ([MonitorHTTPHandler.clear_tasks],
    [SaveAnyMonitor.clear_finished_tasks], [SaveAnyMonitor.remove_finished_task]),
    with the properties of the specification stated and settled against
    them.  The source has no rate sampler ([start_monitoring] is empty), and
    none is modelled.  Further parts cover
    the task list sent over HTTP ([MonitorHTTPHandler.send_tasks]) and the
    task table of the window ([SaveAnyMonitor.update_tasks_ui],
    [SaveAnyMonitor.format_bytes]).

    Python values are modelled as follows.
    - [str] is a list of Unicode code points;
    - the global [download_tasks] dict is an insertion-ordered association
      list (a Python dict iterates in insertion order, which the placeholder
      binding relies on);
    - an exception is a value of [exn] in the error monad [result];
    - a Python [float] is an IEEE-754 binary64 value ([spec_float]). *)

From Stdlib Require Import List String Ascii ZArith NArith Bool Lia.
From Stdlib Require Import Floats.SpecFloat.
Import ListNotations.

Local Open Scope Z_scope.

(* ================================================================== *)
(** ** Strings *)

(** A character is a Unicode code point, a Python [str] a sequence of them. *)
Definition char := N.
Definition str := list char.

Definition char_eqb (a b : char) : bool := N.eqb a b.

Fixpoint str_eqb (a b : str) : bool :=
  match a, b with
  | [], [] => true
  | x :: a', y :: b' => char_eqb x y && str_eqb a' b'
  | _, _ => false
  end.

(** Source literals are written as UTF-8 text and decoded once. *)
Fixpoint utf8_decode (bs : list N) : str :=
  match bs with
  | [] => []
  | b :: r =>
      if (b <? 128)%N then b :: utf8_decode r
      else if (b <? 224)%N then
        match r with
        | c1 :: r1 => ((b - 192) * 64 + (c1 - 128))%N :: utf8_decode r1
        | _ => []
        end
      else if (b <? 240)%N then
        match r with
        | c1 :: c2 :: r2 =>
            ((b - 224) * 4096 + (c1 - 128) * 64 + (c2 - 128))%N :: utf8_decode r2
        | _ => []
        end
      else
        match r with
        | c1 :: c2 :: c3 :: r3 =>
            ((b - 240) * 262144 + (c1 - 128) * 4096 + (c2 - 128) * 64 + (c3 - 128))%N
              :: utf8_decode r3
        | _ => []
        end
  end.

Definition u (s : string) : str :=
  utf8_decode (map N_of_ascii (list_ascii_of_string s)).

(** [strip_prefix p s]: the rest of [s] after the literal [p], if [s] starts with it. *)
Fixpoint strip_prefix (p s : str) : option str :=
  match p with
  | [] => Some s
  | c :: p' =>
      match s with
      | [] => None
      | d :: s' => if char_eqb c d then strip_prefix p' s' else None
      end
  end.

(** Python's [sub in s]. *)
Fixpoint contains (sub s : str) : bool :=
  match strip_prefix sub s with
  | Some _ => true
  | None => match s with [] => false | _ :: s' => contains sub s' end
  end.

(** The tables of the Unicode database that [re] and [str] consult, and the
    interpreter's limit on [int(str)] conversions
    ([sys.get_int_max_str_digits()], [0] meaning no limit). *)
Class Runtime := {
  isalnum : char -> bool;            (* str.isalnum; [\w] is isalnum or '_' *)
  decimal : char -> option N;        (* unicodedata.decimal; [\d] and int() *)
  isspace : char -> bool;            (* str.isspace; [\s] and str.strip() *)
  lower : str -> str;                (* str.lower() *)
  int_max_str_digits : nat
}.

(** The ASCII part of those tables, for running the model on ASCII lines. *)
Definition ascii_isalnum (c : char) : bool :=
  ((48 <=? c) && (c <=? 57) || (65 <=? c) && (c <=? 90) || (97 <=? c) && (c <=? 122))%N.
Definition ascii_decimal (c : char) : option N :=
  if ((48 <=? c) && (c <=? 57))%N then Some (c - 48)%N else None.
Definition ascii_isspace (c : char) : bool :=
  ((9 <=? c) && (c <=? 13) || (28 <=? c) && (c <=? 32))%N.
Definition ascii_lower_char (c : char) : char :=
  if ((65 <=? c) && (c <=? 90))%N then (c + 32)%N else c.

Definition ascii_runtime : Runtime := {|
  isalnum := ascii_isalnum;
  decimal := ascii_decimal;
  isspace := ascii_isspace;
  lower := map ascii_lower_char;
  int_max_str_digits := 4300
|}.

(* ================================================================== *)
(** ** The fragment of [re] the parser uses *)

Inductive cclass :=
| CAny      (* .   any character but a newline *)
| CWord     (* \w *)
| CDigit    (* \d *)
| CSpace.   (* \s *)

Inductive regex :=
| Lit (s : str)               (* literal text *)
| Star (c : cclass)           (* c*   greedy *)
| Plus (c : cclass)           (* c+   greedy *)
| PlusLazy (c : cclass)       (* c+?  lazy *)
| Seq (r1 r2 : regex)
| Alt (r1 r2 : regex)         (* r1|r2, r1 tried first *)
| Group (r : regex).          (* (r), capturing *)

Definition groups := list str.
Definition cont := str -> groups -> option groups.

Section Regex.
Context {RT : Runtime}.

Definition in_class (c : cclass) (x : char) : bool :=
  match c with
  | CAny => negb (char_eqb x 10%N)
  | CWord => isalnum x || char_eqb x 95%N
  | CDigit => match decimal x with Some _ => true | None => false end
  | CSpace => isspace x
  end.

(** Backtracking in the order of Python's engine: a greedy repetition
    tries the longest run first, a lazy one the shortest. *)
Fixpoint star_greedy (c : cclass) (s : str) (g : groups) (k : cont) : option groups :=
  match s with
  | x :: s' =>
      if in_class c x then
        match star_greedy c s' g k with
        | Some r => Some r
        | None => k s g
        end
      else k s g
  | [] => k [] g
  end.

Fixpoint star_lazy (c : cclass) (s : str) (g : groups) (k : cont) : option groups :=
  match k s g with
  | Some r => Some r
  | None =>
      match s with
      | x :: s' => if in_class c x then star_lazy c s' g k else None
      | [] => None
      end
  end.

Definition plus (lazy : bool) (c : cclass) (s : str) (g : groups) (k : cont) : option groups :=
  match s with
  | x :: s' =>
      if in_class c x
      then (if lazy then star_lazy c s' g k else star_greedy c s' g k)
      else None
  | [] => None
  end.

Fixpoint rmatch (r : regex) (s : str) (g : groups) (k : cont) : option groups :=
  match r with
  | Lit l => match strip_prefix l s with Some s' => k s' g | None => None end
  | Star c => star_greedy c s g k
  | Plus c => plus false c s g k
  | PlusLazy c => plus true c s g k
  | Seq r1 r2 => rmatch r1 s g (fun s' g' => rmatch r2 s' g' k)
  | Alt r1 r2 =>
      match rmatch r1 s g k with
      | Some res => Some res
      | None => rmatch r2 s g k
      end
  | Group r1 =>
      rmatch r1 s g
        (fun s' g' => k s' (g' ++ [firstn (List.length s - List.length s')%nat s]))
  end.

(** [re.search(r, s)]: the match at the leftmost position that has one;
    the result is the list of captured groups. *)
Fixpoint re_search (r : regex) (s : str) : option groups :=
  match rmatch r s [] (fun _ g => Some g) with
  | Some g => Some g
  | None => match s with [] => None | _ :: s' => re_search r s' end
  end.

Definition group (n : nat) (g : groups) : str := nth (n - 1)%nat g [].

(** [s.strip()] *)
Fixpoint lstrip (s : str) : str :=
  match s with
  | x :: s' => if isspace x then lstrip s' else s
  | [] => []
  end.
Definition strip (s : str) : str := rev (lstrip (rev (lstrip s))).

End Regex.

Infix ";;" := Seq (at level 60, right associativity).

(** The six patterns of [parse_download_task]. *)
(* r'Processing task: (\w+)' *)
Definition re_task : regex := Lit (u "Processing task: ") ;; Group (Plus CWord).
(* r'batch_file\[(\w+)\]: Starting' *)
Definition re_batch : regex :=
  Lit (u "batch_file[") ;; Group (Plus CWord) ;; Lit (u "]: Starting").
(* r'file\[(.+?)\]: Starting file download' *)
Definition re_file_start : regex :=
  Lit (u "file[") ;; Group (PlusLazy CAny) ;; Lit (u "]: Starting file download").
(* r'Progress update: (.+?), (\d+)/(\d+)' *)
Definition re_progress : regex :=
  Lit (u "Progress update: ") ;; Group (PlusLazy CAny) ;; Lit (u ", ")
    ;; Group (Plus CDigit) ;; Lit (u "/") ;; Group (Plus CDigit).
(* r'file\[(.+?)\].*(?:downloaded successfully|completed)' *)
Definition re_complete : regex :=
  Lit (u "file[") ;; Group (PlusLazy CAny) ;; Lit (u "]") ;; Star CAny
    ;; Alt (Lit (u "downloaded successfully")) (Lit (u "completed")).
(* r'file\s*\[(.+?)\]' *)
Definition re_error : regex :=
  Lit (u "file") ;; Star CSpace ;; Lit (u "[") ;; Group (PlusLazy CAny) ;; Lit (u "]").

(* ================================================================== *)
(** ** Exceptions *)

Inductive exn := ValueError | OverflowError | ZeroDivisionError.

Inductive result (A : Type) :=
| Ok (a : A)
| Raise (e : exn).
Arguments Ok {A} a.
Arguments Raise {A} e.

Definition bind {A B} (m : result A) (f : A -> result B) : result B :=
  match m with
  | Ok a => f a
  | Raise e => Raise e
  end.

Notation "x <- m ;;; k" := (bind m (fun x => k))
  (at level 61, m at next level, right associativity).

(** [try: body  except Exception: handler] *)
Definition try_except {A} (body : result A) (handler : exn -> result A) : result A :=
  match body with
  | Ok a => Ok a
  | Raise e => handler e
  end.

(* ================================================================== *)
(** ** Numbers: Python [int] and [float]

    A [float] is a binary64 value; every operation returns the value nearest
    to the exact result, ties to the even mantissa. *)

Definition prec : Z := 53.
Definition emax : Z := 1024.

(** [d * 2^z <= n], for [z] of either sign. *)
Definition scaled_leb (d z n : Z) : bool :=
  if 0 <=? z then d * 2 ^ z <=? n else d <=? n * 2 ^ (- z).

(** [floor (log2 (n / d))] for positive [n] and [d]. *)
Definition floor_log2_ratio (n d : Z) : Z :=
  let z := Z.log2 n - Z.log2 d in
  if scaled_leb d z n then z else z - 1.

(** The integer nearest to [n / d] ([d > 0]), ties to even. *)
Definition round_half_even (n d : Z) : Z :=
  let q := n / d in
  match 2 * (n mod d) ?= d with
  | Lt => q
  | Gt => q + 1
  | Eq => if Z.even q then q else q + 1
  end.

(** The binary64 value nearest to [n / d] with sign [s], for [n >= 0] and
    [d > 0]; [None] when it is beyond the largest finite value. *)
Definition nearest_double (s : bool) (n d : Z) : option spec_float :=
  if n =? 0 then Some (S754_zero s)
  else
    let e := Z.max (floor_log2_ratio n d - (prec - 1)) (3 - emax - prec) in
    let m := if 0 <=? e then round_half_even n (d * 2 ^ e)
             else round_half_even (n * 2 ^ (- e)) d in
    let '(m, e) := if m =? 2 ^ prec then (2 ^ (prec - 1), e + 1) else (m, e) in
    match m with
    | Zpos p => if e <=? emax - prec then Some (S754_finite s p e) else None
    | _ => Some (S754_zero s)
    end.

(** [a / b] on two ints: the correctly rounded quotient. *)
Definition int_true_div (a b : Z) : result spec_float :=
  if b =? 0 then Raise ZeroDivisionError
  else
    match nearest_double (xorb (a <? 0) (b <? 0)) (Z.abs a) (Z.abs b) with
    | Some f => Ok f
    | None => Raise OverflowError
    end.

(** [float(n)] for an int that a double holds exactly (here only 100). *)
Definition float_of_small_int (n : Z) : spec_float :=
  match nearest_double (n <? 0) (Z.abs n) 1 with
  | Some f => f
  | None => S754_infinity (n <? 0)
  end.

(** [x * y] on two floats. *)
Definition float_mul (x y : spec_float) : spec_float :=
  match x, y with
  | S754_finite sx mx ex, S754_finite sy my ey =>
      let s := xorb sx sy in
      let e := ex + ey in
      let m := Zpos mx * Zpos my in
      match (if 0 <=? e then nearest_double s (m * 2 ^ e) 1
             else nearest_double s m (2 ^ (- e))) with
      | Some f => f
      | None => S754_infinity s
      end
  | _, _ => SFmul prec emax x y
  end.

(** [round(x, 1)] on a float: [x] rounded to one decimal place (ties to
    even, on the exact binary value of [x]), then the nearest double. *)
Definition float_round1 (x : spec_float) : spec_float :=
  match x with
  | S754_finite s m e =>
      if 0 <=? e then x
      else
        match nearest_double s (round_half_even (Zpos m * 10) (2 ^ (- e))) 10 with
        | Some f => f
        | None => x
        end
  | _ => x
  end.

(** A number stored in a task: [0] and [100] are ints, a computed progress is a float. *)
Inductive pynum :=
| PyInt (z : Z)
| PyFloat (f : spec_float).

(** [round(p, 1)]: an int is returned as it is. *)
Definition py_round1 (p : pynum) : pynum :=
  match p with
  | PyInt z => PyInt z
  | PyFloat f => PyFloat (float_round1 f)
  end.

(** Exact comparison of a float with an int. *)
Definition float_cmp_int (f : spec_float) (z : Z) : option comparison :=
  match f with
  | S754_zero _ => Some (0 ?= z)
  | S754_infinity s => Some (if s then Lt else Gt)
  | S754_nan => None
  | S754_finite s m e =>
      let v := if s then Zneg m else Zpos m in
      Some (if 0 <=? e then v * 2 ^ e ?= z else v ?= z * 2 ^ (- e))
  end.

Definition py_cmp (a b : pynum) : option comparison :=
  match a, b with
  | PyInt x, PyInt y => Some (x ?= y)
  | PyFloat f, PyInt y => float_cmp_int f y
  | PyInt x, PyFloat f => option_map CompOpp (float_cmp_int f x)
  | PyFloat f, PyFloat g => SFcompare f g
  end.

Definition py_leb (a b : pynum) : bool :=
  match py_cmp a b with Some (Lt | Eq) => true | _ => false end.

Definition hundred : spec_float := float_of_small_int 100.

(* ================================================================== *)
(** ** Tasks and the registry *)

(** The status tokens the program stores, by their meaning. *)
Inductive task_status :=
| Queued          (* '排队中' *)
| Initializing    (* '初始化' *)
| Started         (* '开始下载' *)
| Downloading     (* '下载中' *)
| Completed       (* '已完成' *)
| Cancelled       (* '已取消' *)
| Failed.         (* '失败' *)

Definition status_token (s : task_status) : str :=
  match s with
  | Queued => u "排队中"
  | Initializing => u "初始化"
  | Started => u "开始下载"
  | Downloading => u "下载中"
  | Completed => u "已完成"
  | Cancelled => u "已取消"
  | Failed => u "失败"
  end.

(** [status in ['已完成', '已取消', '失败']] *)
Definition is_terminal (s : task_status) : bool :=
  match s with
  | Completed | Cancelled | Failed => true
  | _ => false
  end.

Record task := {
  task_id : str;
  filename : str;
  downloaded : Z;
  total : Z;
  progress : pynum;
  status : task_status;
  start_time : str
}.

Definition set_filename (f : str) (t : task) : task :=
  {| task_id := task_id t; filename := f; downloaded := downloaded t;
     total := total t; progress := progress t; status := status t;
     start_time := start_time t |}.
Definition set_downloaded (d : Z) (t : task) : task :=
  {| task_id := task_id t; filename := filename t; downloaded := d;
     total := total t; progress := progress t; status := status t;
     start_time := start_time t |}.
Definition set_total (n : Z) (t : task) : task :=
  {| task_id := task_id t; filename := filename t; downloaded := downloaded t;
     total := n; progress := progress t; status := status t;
     start_time := start_time t |}.
Definition set_progress (p : pynum) (t : task) : task :=
  {| task_id := task_id t; filename := filename t; downloaded := downloaded t;
     total := total t; progress := p; status := status t;
     start_time := start_time t |}.
Definition set_status (s : task_status) (t : task) : task :=
  {| task_id := task_id t; filename := filename t; downloaded := downloaded t;
     total := total t; progress := progress t; status := s;
     start_time := start_time t |}.

(** The placeholder filename of a task whose file is not known yet. *)
Definition placeholder : str := u "等待解析...".

(** [filename == '等待解析...' or not filename] *)
Definition is_placeholder (t : task) : bool :=
  str_eqb (filename t) placeholder
  || match filename t with [] => true | _ => false end.

(** The dict literal of a fresh task. *)
Definition new_task (tid fname : str) (st : task_status) (now : str) : task :=
  {| task_id := tid; filename := fname; downloaded := 0; total := 0;
     progress := PyInt 0; status := st; start_time := now |}.

(** [download_tasks]: entries in insertion order. *)
Definition dict := list (str * task).

Definition keys (d : dict) : list str := map fst d.

Fixpoint dict_get (d : dict) (k : str) : option task :=
  match d with
  | [] => None
  | (k', t) :: d' => if str_eqb k' k then Some t else dict_get d' k
  end.

(** [k in d] *)
Definition dict_mem (k : str) (d : dict) : bool :=
  match dict_get d k with Some _ => true | None => false end.

(** [d[k] = v]: an existing key keeps its place, a new one goes last. *)
Fixpoint dict_set (d : dict) (k : str) (v : task) : dict :=
  match d with
  | [] => [(k, v)]
  | (k', t) :: d' =>
      if str_eqb k' k then (k', v) :: d' else (k', t) :: dict_set d' k v
  end.

(** [d[k][field] = ...]: the task stored under [k] is changed in place. *)
Fixpoint dict_modify (d : dict) (k : str) (f : task -> task) : dict :=
  match d with
  | [] => []
  | (k', t) :: d' =>
      if str_eqb k' k then (k', f t) :: d' else (k', t) :: dict_modify d' k f
  end.

(** [del d[k]] *)
Fixpoint dict_del (d : dict) (k : str) : dict :=
  match d with
  | [] => []
  | (k', t) :: d' => if str_eqb k' k then d' else (k', t) :: dict_del d' k
  end.

(** [for tid in d: if p(d[tid]): d[tid] = f(d[tid]); break]: the first task
    in iteration order that satisfies [p] is changed; the result is its key
    and the dict, or [None] when the loop ends without a [break]. *)
Fixpoint modify_first (p : task -> bool) (f : task -> task) (d : dict)
  : option (str * dict) :=
  match d with
  | [] => None
  | (k, t) :: d' =>
      if p t then Some (k, (k, f t) :: d')
      else
        match modify_first p f d' with
        | Some (k1, d1) => Some (k1, (k, t) :: d1)
        | None => None
        end
  end.

(** Some task of the registry has this filename. *)
Definition has_filename (fname : str) (d : dict) : bool :=
  existsb (fun e => str_eqb (filename (snd e)) fname) d.

(** The registry, and the pending [root.after(30000, ...)] callbacks, each
    one a call of [remove_finished_task] on the recorded key. *)
Record state := {
  download_tasks : dict;
  timers : list str
}.

Definition with_tasks (s : state) (d : dict) : state :=
  {| download_tasks := d; timers := timers s |}.

Definition initial : state := {| download_tasks := []; timers := [] |}.

(* ================================================================== *)
(** ** [SaveAnyMonitor.parse_download_task] *)

Section Parser.
Context {RT : Runtime}.

(** [int(s)] on the text of a [\d+] group. *)
Fixpoint digits_value (s : str) (acc : Z) : result Z :=
  match s with
  | [] => Ok acc
  | c :: s' =>
      match decimal c with
      | Some v => digits_value s' (acc * 10 + Z.of_N v)
      | None => Raise ValueError
      end
  end.

Definition py_int (s : str) : result Z :=
  if (0 <? int_max_str_digits)%nat && (int_max_str_digits <? List.length s)%nat
  then Raise ValueError
  else match s with [] => Raise ValueError | _ => digits_value s 0 end.

(** [any(kw in message.lower() for kw in kws)] *)
Definition any_keyword (kws : list str) (message : str) : bool :=
  existsb (fun kw => contains kw (lower message)) kws.

(** [(downloaded / total * 100) if total > 0 else 0] *)
Definition progress_value (downloaded total : Z) : result pynum :=
  if total >? 0 then
    q <- int_true_div downloaded total ;;;
    Ok (PyFloat (float_mul q hundred))
  else Ok (PyInt 0).

(** [round((downloaded / total * 100) if total > 0 else 0, 1)], the value
    that a progress update stores. *)
Definition progress_of (downloaded total : Z) : result pynum :=
  p <- progress_value downloaded total ;;;
  Ok (py_round1 p).

(** The four assignments of a progress update. *)
Definition apply_progress (downloaded total : Z) (progress : pynum) (t : task) : task :=
  set_status Downloading
    (set_progress (py_round1 progress)
       (set_total total (set_downloaded downloaded t))).

(** The body of the [try] block.  [now] is the text of
    [datetime.now().strftime(...)] and [hex8] that of [uuid.uuid4().hex[:8]]
    at the call.  The refresh of the task table widget reads the registry
    only and is left out. *)
Definition parse_body (now hex8 message : str) (s : state) : result state :=
  let tasks := download_tasks s in
  match re_search re_task message with
  | Some g =>
      (* 1. task discovered *)
      let task_id := group 1 g in
      if dict_mem task_id tasks then Ok s
      else Ok (with_tasks s
                 (dict_set tasks task_id (new_task task_id placeholder Queued now)))
  | None =>
  match re_search re_batch message with
  | Some g =>
      (* 2. batch initialisation *)
      let tid := group 1 g in
      if dict_mem tid tasks
      then Ok (with_tasks s (dict_modify tasks tid (set_status Initializing)))
      else Ok s
  | None =>
  match re_search re_file_start message with
  | Some g =>
      (* 3. a file name, bound to the earliest task that waits for one *)
      let fname := group 1 g in
      if has_filename fname tasks then Ok s
      else
        match modify_first is_placeholder
                (fun t => set_status Started (set_filename fname t)) tasks with
        | Some (_, tasks') => Ok (with_tasks s tasks')
        | None =>
            let new_id := u "auto_" ++ hex8 in
            Ok (with_tasks s
                  (dict_set tasks new_id (new_task new_id fname Started now)))
        end
  | None =>
  match re_search re_progress message with
  | Some g =>
      (* 4. progress update *)
      let identifier := strip (group 1 g) in
      downloaded <- py_int (group 2 g) ;;;
      total <- py_int (group 3 g) ;;;
      progress <- progress_value downloaded total ;;;
      if dict_mem identifier tasks
      then Ok (with_tasks s
                 (dict_modify tasks identifier (apply_progress downloaded total progress)))
      else
        match modify_first (fun t => str_eqb (filename t) identifier)
                (apply_progress downloaded total progress) tasks with
        | Some (_, tasks') => Ok (with_tasks s tasks')
        | None => Ok s
        end
  | None =>
      (* 5. completed / failed / cancelled *)
      if contains (u "downloaded successfully") message
         || contains (u "upload completed") message
         || contains (u "completed") (lower message)
      then
        match re_search re_complete message with
        | Some g =>
            let fname := group 1 g in
            match modify_first (fun t => str_eqb (filename t) fname)
                    (fun t => set_progress (PyInt 100) (set_status Completed t))
                    tasks with
            | Some (tid, tasks') =>
                Ok {| download_tasks := tasks'; timers := timers s ++ [tid] |}
            | None => Ok s
            end
        | None => Ok s
        end
      else if any_keyword [u "failed"; u "error"; u "canceled"; u "cancelled"] message
      then
        let is_canceled :=
          any_keyword [u "canceled"; u "cancelled"; u "context canceled"] message in
        match re_search re_error message with
        | Some g =>
            let fname := group 1 g in
            match modify_first (fun t => str_eqb (filename t) fname)
                    (set_status (if is_canceled then Cancelled else Failed))
                    tasks with
            | Some (tid, tasks') =>
                Ok {| download_tasks := tasks'; timers := timers s ++ [tid] |}
            | None => Ok s
            end
        | None => Ok s
        end
      else Ok s
  end end end end.

(** The whole method: [try: ... except Exception: pass].  Every exception
    of the body is raised before the first assignment to the registry, so
    the handler resumes with the state of the call. *)
Definition parse_download_task (now hex8 message : str) (s : state) : result state :=
  try_except (parse_body now hex8 message s) (fun _ => Ok s).

End Parser.

(* ================================================================== *)
(** ** Removal of tasks *)

(** [SaveAnyMonitor.remove_finished_task] *)
Definition remove_finished_task (tid : str) (s : state) : state :=
  if dict_mem tid (download_tasks s)
  then with_tasks s (dict_del (download_tasks s) tid)
  else s.

(** [for tid in to_remove: del download_tasks[tid]] *)
Definition del_all (to_remove : list str) (d : dict) : dict :=
  fold_left dict_del to_remove d.

(** [SaveAnyMonitor.clear_finished_tasks] *)
Definition clear_finished_tasks (s : state) : state :=
  let to_remove :=
    map fst (filter (fun e => is_terminal (status (snd e))) (download_tasks s)) in
  with_tasks s (del_all to_remove (download_tasks s)).

(** The value of the "type" member of the request: a string, or any other
    JSON value. *)
Inductive json_type :=
| TypeStr (s : str)
| TypeOther.

(** [clear_type == 'literal'] *)
Definition type_is (v : json_type) (literal : str) : bool :=
  match v with
  | TypeStr s => str_eqb s literal
  | TypeOther => false
  end.

(** The body of the POST request, as [MonitorHTTPHandler.clear_tasks] reads it. *)
Inductive clear_request :=
| NoBody                                (* Content-Length is 0 *)
| BadBody                               (* not JSON, or not a JSON object *)
| JsonBody (type : option json_type).   (* data.get('type') *)

(** The JSON answer. *)
Inductive clear_response :=
| Cleared (n : nat)      (* {"success": true, "cleared": n} *)
| ClearError.            (* {"success": false, "error": ...} *)

Definition clear_type_of (r : clear_request) : result json_type :=
  match r with
  | NoBody => Ok (TypeStr (u "completed"))
  | BadBody => Raise ValueError
  | JsonBody (Some ty) => Ok ty
  | JsonBody None => Ok (TypeStr (u "completed"))
  end.

(** [MonitorHTTPHandler.clear_tasks] *)
Definition clear_tasks (r : clear_request) (s : state) : state * clear_response :=
  match clear_type_of r with
  | Raise _ => (s, ClearError)
  | Ok clear_type =>
      let to_remove :=
        map fst
          (filter (fun e =>
                     if type_is clear_type (u "completed")
                        && is_terminal (status (snd e)) then true
                     else type_is clear_type (u "all"))
             (download_tasks s)) in
      (with_tasks s (del_all to_remove (download_tasks s)),
       Cleared (List.length to_remove))
  end.

(** One step of the program on its registry: a log line is parsed, a
    removal timer fires, or tasks are cleared from the window or over HTTP. *)
Inductive step {RT : Runtime} : state -> state -> Prop :=
| step_line now hex8 message s s' :
    parse_download_task now hex8 message s = Ok s' -> step s s'
| step_timer s pre tid post :
    timers s = pre ++ tid :: post ->
    step s (remove_finished_task tid
              {| download_tasks := download_tasks s; timers := pre ++ post |})
| step_clear_finished s :
    step s (clear_finished_tasks s)
| step_clear_tasks r s :
    step s (fst (clear_tasks r s)).

Inductive reachable {RT : Runtime} : state -> Prop :=
| reach_initial : reachable initial
| reach_step s s' : reachable s -> step s s' -> reachable s'.

(* ================================================================== *)
(** ** Which branch of [parse_download_task] a line takes *)

Inductive line_kind :=
| TaskDiscovered (task_id : str)                 (* 'Processing task: <id>' *)
| BatchInitialized (tid : str)                   (* 'batch_file[<id>]: Starting' *)
| FileDownloadStarted (fname : str)              (* 'file[<name>]: Starting file download' *)
| ProgressUpdate (identifier dl tot : str)       (* 'Progress update: <identifier>, <d>/<t>' *)
| CompletionLine (fname : option str)            (* a 'completed' keyword, with the file[...] capture *)
| FailureLine (is_canceled : bool) (fname : option str)
| Unrecognized.

Section Classify.
Context {RT : Runtime}.

(** The tests of [parse_download_task], in its order, without the effects. *)
Definition classify (message : str) : line_kind :=
  match re_search re_task message with
  | Some g => TaskDiscovered (group 1 g)
  | None =>
  match re_search re_batch message with
  | Some g => BatchInitialized (group 1 g)
  | None =>
  match re_search re_file_start message with
  | Some g => FileDownloadStarted (group 1 g)
  | None =>
  match re_search re_progress message with
  | Some g => ProgressUpdate (strip (group 1 g)) (group 2 g) (group 3 g)
  | None =>
      if contains (u "downloaded successfully") message
         || contains (u "upload completed") message
         || contains (u "completed") (lower message)
      then CompletionLine (option_map (group 1) (re_search re_complete message))
      else if any_keyword [u "failed"; u "error"; u "canceled"; u "cancelled"] message
      then FailureLine
             (any_keyword [u "canceled"; u "cancelled"; u "context canceled"] message)
             (option_map (group 1) (re_search re_error message))
      else Unrecognized
  end end end end.

(** The three conversions of a progress line, in the order of the source. *)
Definition read_progress (dl tot : str) : result (Z * Z * pynum) :=
  downloaded <- py_int dl ;;;
  total <- py_int tot ;;;
  progress <- progress_value downloaded total ;;;
  Ok (downloaded, total, progress).

(** The line is neither a task-discovery nor a file-start line, and the
    task it names (by id or by filename) is not in the registry, or it
    names none. *)
Definition no_target (message : str) (d : dict) : bool :=
  match classify message with
  | TaskDiscovered _ => false
  | FileDownloadStarted _ => false
  | BatchInitialized tid => negb (dict_mem tid d)
  | ProgressUpdate identifier _ _ =>
      negb (dict_mem identifier d) && negb (has_filename identifier d)
  | CompletionLine (Some fname) => negb (has_filename fname d)
  | FailureLine _ (Some fname) => negb (has_filename fname d)
  | CompletionLine None => true
  | FailureLine _ None => true
  | Unrecognized => true
  end.

End Classify.

(** Some task of the registry waits for a filename. *)
Definition has_placeholder (d : dict) : bool :=
  existsb (fun e => is_placeholder (snd e)) d.

(** [0 <= p <= 100] *)
Definition in_percent_range (p : pynum) : bool :=
  py_leb (PyInt 0) p && py_leb p (PyInt 100).

(* ================================================================== *)
(** ** Predicates used in the statements *)

(** The keys of a dict are pairwise distinct. *)
Definition wf_dict (d : dict) : Prop := NoDup (keys d).

Definition finished (e : str * task) : bool := is_terminal (status (snd e)).
Definition unfinished (e : str * task) : bool := negb (finished e).

(** What holds of every task of a reachable registry. *)
Definition task_ok (t : task) : Prop :=
  0 <= downloaded t /\ 0 <= total t /\ filename t <> [] /\
  (progress t = PyInt 100
   \/ exists p, progress_value (downloaded t) (total t) = Ok p
                /\ progress t = py_round1 p).

Definition all_tasks (Q : task -> Prop) (d : dict) : Prop :=
  Forall (fun e => Q (snd e)) d.

(** The invariant: ids are unique, and every task is as [task_ok] says. *)
Definition registry_ok (d : dict) : Prop := wf_dict d /\ all_tasks task_ok d.

(** [f] is a non-negative finite double, at most [mB * 2^eB]. *)
Definition below (mB eB : Z) (f : spec_float) : Prop :=
  match f with
  | S754_zero false => True
  | S754_finite false m e =>
      Zpos m < 2 ^ 53 /\ (e < eB \/ (e = eB /\ Zpos m <= mB))
  | _ => False
  end.

Definition nonneg (f : spec_float) : Prop :=
  match f with
  | S754_zero _ => True
  | S754_finite false _ _ => True
  | S754_infinity false => True
  | _ => False
  end.

(* ================================================================== *)
(** ** Runs on concrete lines *)

Section Run.
Context {RT : Runtime}.

(** The state after one line, and after a list of lines. *)
Definition apply_line (now hex8 : str) (s : state) (message : str) : state :=
  match parse_download_task now hex8 message s with
  | Ok s' => s'
  | Raise _ => s
  end.

Definition run_lines (now hex8 : str) (lines : list str) (s : state) : state :=
  fold_left (apply_line now hex8) lines s.

End Run.

Definition clock : str := u "2024-05-01 12:00:00".
Definition hex : str := u "0a1b2c3d".

Definition run (lines : list str) : state :=
  run_lines (RT := ascii_runtime) clock hex lines initial.

Definition task_of (s : state) (tid : str) : option task :=
  dict_get (download_tasks s) tid.

Definition status_of (s : state) (tid : str) : option task_status :=
  option_map status (task_of s tid).

(** A task that has completed. *)
Definition completed_T1 : state :=
  run [u "Processing task: T1"; u "file[a.mp4]: Starting file download";
       u "file[a.mp4]: downloaded successfully"].

(** The scenario of section 8 of the specification. *)
Definition scenario : state :=
  run [u "Processing task: T1"; u "file[a.mp4]: Starting file download";
       u "Progress update: a.mp4, 50/100"; u "file[a.mp4]: downloaded successfully"].

Definition downloading_T1 : state :=
  run [u "Processing task: T1"; u "file[a.mp4]: Starting file download";
       u "Progress update: a.mp4, 50/100"].

Definition queued_T1 : state := run [u "Processing task: T1"].

Definition two_queued : state :=
  run [u "Processing task: T1"; u "Processing task: T2"].

Definition overshoot : state :=
  run [u "Processing task: T1"; u "Progress update: T1, 200/100"].

(** A progress line whose quotient is beyond the range of a float:
    'Progress update: T1, 1000...0/1' with 400 zeros. *)
Definition huge_number : str := u "1" ++ repeat 48%N 400.
Definition huge_line : str := u "Progress update: T1, " ++ huge_number ++ u "/1".

(** One finished and one waiting task. *)
Definition mixed : state :=
  run [u "Processing task: T1"; u "Processing task: T2";
       u "file[a.mp4]: Starting file download";
       u "file[a.mp4]: downloaded successfully"].

(* ================================================================== *)
(** ** The task list over HTTP and the task table of the window *)

(** The object that [MonitorHTTPHandler.send_tasks] serialises:
    [{"tasks": tasks_list, "count": len(tasks_list)}]. *)
Record tasks_reply := {
  reply_tasks : list task;
  reply_count : nat
}.

(** [MonitorHTTPHandler.send_tasks] *)
Definition send_tasks (s : state) : tasks_reply :=
  let tasks_list := map snd (download_tasks s) in
  {| reply_tasks := tasks_list; reply_count := List.length tasks_list |}.

(** [status in ['排队中', '下载中', '初始化', '开始下载']] *)
Definition is_active (s : task_status) : bool :=
  match s with
  | Queued | Downloading | Initializing | Started => true
  | _ => false
  end.

(** [sum(1 for t in download_tasks.values() if t['status'] in [...])] *)
Definition active_count (d : dict) : nat :=
  list_sum (map (fun _ => 1%nat) (filter (fun e => is_active (status (snd e))) d)).

(** [task['filename'] or task['task_id']]: an empty string counts as false. *)
Definition display_name (t : task) : str :=
  match filename t with
  | [] => task_id t
  | _ => filename t
  end.

(* ================================================================== *)
(** ** What one line does to the registry *)

(** The effects of [parse_download_task], one constructor for each place of
    the method that assigns to the registry, and one for the lines that
    assign nothing.  [line_effect now hex8 message s s'] holds when the line
    [message] can take the state [s] to [s'] by that effect. *)
Inductive line_effect {RT : Runtime} (now hex8 message : str) (s : state) : state -> Prop :=
| effect_none :
    line_effect now hex8 message s s
| effect_discovered id :
    classify message = TaskDiscovered id ->
    dict_mem id (download_tasks s) = false ->
    line_effect now hex8 message s
      (with_tasks s (download_tasks s ++ [(id, new_task id placeholder Queued now)]))
| effect_initialized id pre t post :
    classify message = BatchInitialized id ->
    download_tasks s = pre ++ (id, t) :: post ->
    line_effect now hex8 message s
      (with_tasks s (pre ++ (id, set_status Initializing t) :: post))
| effect_bound fname pre k t post :
    classify message = FileDownloadStarted fname ->
    has_filename fname (download_tasks s) = false ->
    download_tasks s = pre ++ (k, t) :: post ->
    is_placeholder t = true ->
    line_effect now hex8 message s
      (with_tasks s (pre ++ (k, set_status Started (set_filename fname t)) :: post))
| effect_synthesized fname :
    classify message = FileDownloadStarted fname ->
    has_filename fname (download_tasks s) = false ->
    has_placeholder (download_tasks s) = false ->
    line_effect now hex8 message s
      (with_tasks s
         (dict_set (download_tasks s) (u "auto_" ++ hex8)
            (new_task (u "auto_" ++ hex8) fname Started now)))
| effect_progress identifier dl tot d n p pre k t post :
    classify message = ProgressUpdate identifier dl tot ->
    read_progress dl tot = Ok (d, n, p) ->
    download_tasks s = pre ++ (k, t) :: post ->
    k = identifier \/ filename t = identifier ->
    line_effect now hex8 message s
      (with_tasks s (pre ++ (k, apply_progress d n p t) :: post))
| effect_completed fname pre k t post :
    classify message = CompletionLine (Some fname) ->
    download_tasks s = pre ++ (k, t) :: post ->
    filename t = fname ->
    line_effect now hex8 message s
      {| download_tasks :=
           pre ++ (k, set_progress (PyInt 100) (set_status Completed t)) :: post;
         timers := timers s ++ [k] |}
| effect_failed is_canceled fname pre k t post :
    classify message = FailureLine is_canceled (Some fname) ->
    download_tasks s = pre ++ (k, t) :: post ->
    filename t = fname ->
    line_effect now hex8 message s
      {| download_tasks :=
           pre ++ (k, set_status (if is_canceled then Cancelled else Failed) t) :: post;
         timers := timers s ++ [k] |}.

(** Every task is stored under its own [task_id]. *)
Definition keyed (d : dict) : Prop :=
  Forall (fun e => task_id (snd e) = fst e) d.

(** The filenames that are bound (not the placeholder), in registry order. *)
Definition bound_names (d : dict) : list str :=
  map (fun e => filename (snd e)) (filter (fun e => negb (is_placeholder (snd e))) d).

(** A run of characters of a class: not empty, every character in the class. *)
Definition run_of {RT : Runtime} (c : cclass) (s : str) : Prop :=
  s <> [] /\ Forall (fun x => in_class c x = true) s.

(** What the status of a task says about its other fields. *)
Definition status_ok (t : task) : Prop :=
  (status t = Queued ->
   t = new_task (task_id t) placeholder Queued (start_time t))
  /\ (status t = Downloading ->
      exists p, progress_value (downloaded t) (total t) = Ok p
                /\ progress t = py_round1 p)
  /\ (status t = Completed -> progress t = PyInt 100).

(* ================================================================== *)
(** ** The task that a line writes to *)





(* ================================================================== *)
(** ** Numbers as text, and [SaveAnyMonitor.format_bytes] *)

Fixpoint uint_text (d : Decimal.uint) : str :=
  match d with
  | Decimal.Nil => []
  | Decimal.D0 d' => 48%N :: uint_text d'
  | Decimal.D1 d' => 49%N :: uint_text d'
  | Decimal.D2 d' => 50%N :: uint_text d'
  | Decimal.D3 d' => 51%N :: uint_text d'
  | Decimal.D4 d' => 52%N :: uint_text d'
  | Decimal.D5 d' => 53%N :: uint_text d'
  | Decimal.D6 d' => 54%N :: uint_text d'
  | Decimal.D7 d' => 55%N :: uint_text d'
  | Decimal.D8 d' => 56%N :: uint_text d'
  | Decimal.D9 d' => 57%N :: uint_text d'
  end.

(** The decimal text of an int, with '-' before a negative one. *)
Definition int_text (z : Z) : str :=
  match Z.to_int z with
  | Decimal.Pos d => uint_text d
  | Decimal.Neg d => 45%N :: uint_text d
  end.

(** [str(z)], which is also [f"{z}"], for an int: its decimal text, or
    ValueError when the int has more digits than the interpreter's limit on
    conversions allows.  The interpreter tests the limit only on a text of
    more than 640 characters (the least limit it can be set to is 640), and
    counts the digits without the sign. *)
Definition int_str {RT : Runtime} (z : Z) : result str :=
  let text := int_text z in
  let digits := (List.length text - (if (z <? 0)%Z then 1 else 0))%nat in
  if (640 <? List.length text)%nat && (0 <? int_max_str_digits)%nat
     && (int_max_str_digits <? digits)%nat
  then Raise ValueError
  else Ok text.

(** The decimal text of [r / 10^digits] with [digits] decimals, for [r >= 0]
    and [digits >= 1]. *)
Definition fixed_text (digits : nat) (r : Z) : str :=
  let p := 10 ^ Z.of_nat digits in
  let frac := int_text (r mod p) in
  int_text (r / p) ++ [46%N] ++ repeat 48%N (digits - List.length frac) ++ frac.

(** [format(x, '.<digits>f')] on a float: the decimal with [digits] decimals
    nearest to the exact value of [x], ties to even. *)
Definition format_fixed (digits : nat) (x : spec_float) : str :=
  match x with
  | S754_zero s => (if s then [45%N] else []) ++ fixed_text digits 0
  | S754_infinity s => if s then u "-inf" else u "inf"
  | S754_nan => u "nan"
  | S754_finite s m e =>
      (if s then [45%N] else [])
      ++ fixed_text digits
           (if 0 <=? e then Zpos m * 2 ^ e * 10 ^ Z.of_nat digits
            else round_half_even (Zpos m * 10 ^ Z.of_nat digits) (2 ^ (- e)))
  end.

(** [SaveAnyMonitor.format_bytes] *)
Definition format_bytes {RT : Runtime} (b : Z) : result str :=
  if b <? 1024 then text <- int_str b ;;; Ok (text ++ u " B")
  else if b <? 1048576 then
    q <- int_true_div b 1024 ;;; Ok (format_fixed 1 q ++ u " KB")
  else if b <? 1073741824 then
    q <- int_true_div b 1048576 ;;; Ok (format_fixed 1 q ++ u " MB")
  else
    q <- int_true_div b 1073741824 ;;; Ok (format_fixed 2 q ++ u " GB").

(* ================================================================== *)
(** ** [SaveAnyMonitor.update_tasks_ui] *)

(** A row of the task table.  The progress column shows the text of the
    number followed by '%'; the number itself is kept here. *)
Record row := {
  col_filename : str;
  col_downloaded : str;
  col_total : str;
  col_progress : pynum;
  col_status : str;
  col_start_time : str
}.

(** The two widgets that the method writes: the rows of [tasks_tree], and
    the text of [tasks_count_label]. *)
Record widgets := {
  tasks_tree : list row;
  tasks_count_label : str
}.

(** The widgets as [create_tasks_tab] makes them. *)
Definition create_tasks_tab : widgets :=
  {| tasks_tree := []; tasks_count_label := u "当前任务: 0 个" |}.

(** The tuple of values of one row, its members evaluated in order. *)
Definition task_row {RT : Runtime} (t : task) : result row :=
  let name := display_name t in
  d <- format_bytes (downloaded t) ;;;
  n <- format_bytes (total t) ;;;
  Ok {| col_filename := name; col_downloaded := d; col_total := n;
        col_progress := progress t; col_status := status_token (status t);
        col_start_time := start_time t |}.

(** [for tid, task in download_tasks.items(): tasks_tree.insert('', 'end', ...)]:
    the rows inserted so far, and how the loop ended. *)
Fixpoint insert_rows {RT : Runtime} (d : dict) (tree : list row)
    : list row * result unit :=
  match d with
  | [] => (tree, Ok tt)
  | (_, t) :: d' =>
      match task_row t with
      | Ok r => insert_rows d' (tree ++ [r])
      | Raise e => (tree, Raise e)
      end
  end.

(** [f"当前任务: {len(download_tasks)} 个 (活跃: {active_count})"].  The two
    numbers count entries of a dict, which holds fewer than [2^63] of them:
    their texts have 19 digits at most, and the limit on conversions is not
    tested on them. *)
Definition count_label (d : dict) : str :=
  u "当前任务: " ++ int_text (Z.of_nat (List.length d))
  ++ u " 个 (活跃: " ++ int_text (Z.of_nat (active_count d)) ++ u ")".

(** [SaveAnyMonitor.update_tasks_ui]: the old rows are deleted, a row is
    inserted for each task, then the label is set; an exception on the way
    ends the method there ([except Exception: pass]). *)
Definition update_tasks_ui {RT : Runtime} (s : state) (w : widgets) : widgets :=
  match insert_rows (download_tasks s) [] with
  | (tree, Ok _) =>
      {| tasks_tree := tree; tasks_count_label := count_label (download_tasks s) |}
  | (tree, Raise _) =>
      {| tasks_tree := tree; tasks_count_label := tasks_count_label w |}
  end.


(** The byte counts of a task are below [2^1053]. *)
Definition sizes_fit (t : task) : Prop :=
  downloaded t < 2 ^ 1053 /\ total t < 2 ^ 1053.

(** The byte counts of a task are not negative, and below [2^1053]. *)
Definition sizes_in_range (t : task) : Prop :=
  0 <= downloaded t < 2 ^ 1053 /\ 0 <= total t < 2 ^ 1053.

(** The registry emptied over HTTP while the removal timer of T1 is pending. *)
Definition cleared_T1 : state :=
  fst (clear_tasks (JsonBody (Some (TypeStr (u "all")))) completed_T1).

(* ================================================================== *)
(** ** The window: the registry together with its table *)

(** Whether [parse_download_task] reaches one of its calls of
    [update_tasks_ui] on this line: always in the branches of a task
    discovery, a batch initialisation, a file start, a completion and a
    failure; in the branch of a progress update only when a task was found;
    never when the line is dropped by the exception handler or matches no
    branch. *)
Definition refreshes {RT : Runtime} (message : str) (d : dict) : bool :=
  match classify message with
  | TaskDiscovered _ | BatchInitialized _ | FileDownloadStarted _ => true
  | ProgressUpdate identifier dl tot =>
      match read_progress dl tot with
      | Ok _ => dict_mem identifier d || has_filename identifier d
      | Raise _ => false
      end
  | CompletionLine _ | FailureLine _ _ => true
  | Unrecognized => false
  end.

Record window := {
  registry : state;
  table : widgets
}.

(** [parse_download_task], with the refresh of the table that it ends with. *)
Definition parse_download_task_window {RT : Runtime} (now hex8 message : str)
    (win : window) : window :=
  let s' := apply_line now hex8 (registry win) message in
  {| registry := s';
     table := if refreshes message (download_tasks (registry win))
              then update_tasks_ui s' (table win)
              else table win |}.

(** [remove_finished_task]: the table is refreshed when a task was deleted. *)
Definition remove_finished_task_window {RT : Runtime} (tid : str) (win : window)
    : window :=
  if dict_mem tid (download_tasks (registry win))
  then {| registry := remove_finished_task tid (registry win);
          table := update_tasks_ui (remove_finished_task tid (registry win)) (table win) |}
  else win.

(** [clear_finished_tasks]: the table is refreshed always. *)
Definition clear_finished_tasks_window {RT : Runtime} (win : window) : window :=
  {| registry := clear_finished_tasks (registry win);
     table := update_tasks_ui (clear_finished_tasks (registry win)) (table win) |}.

(** [MonitorHTTPHandler.clear_tasks] runs in the HTTP server and does not
    call [update_tasks_ui]. *)
Definition clear_tasks_window (r : clear_request) (win : window) : window :=
  {| registry := fst (clear_tasks r (registry win)); table := table win |}.

(** The table has one row for each task of the registry, in its order. *)
Definition shows {RT : Runtime} (win : window) : Prop :=
  Forall2 (fun e r => task_row (snd e) = Ok r)
    (download_tasks (registry win)) (tasks_tree (table win)).

(** The window after the scenario of section 8, refreshed on each line. *)
Definition scenario_window : window :=
  fold_left (fun win l => parse_download_task_window (RT := ascii_runtime) clock hex l win)
    [u "Processing task: T1"; u "file[a.mp4]: Starting file download";
     u "Progress update: a.mp4, 50/100"; u "file[a.mp4]: downloaded successfully"]
    {| registry := initial; table := create_tasks_tab |}.

(* ================================================================== *)
(** ** The model on sample inputs *)

Section Sanity.
Existing Instance ascii_runtime.

Example search_task :
  re_search re_task (u "12:00 Processing task: abc_1 now") = Some [u "abc_1"].
Proof. reflexivity. Qed.

Example search_file_start :
  re_search re_file_start (u "file[a].mp4]: Starting file download")
  = Some [u "a].mp4"].
Proof. reflexivity. Qed.

Example search_progress :
  re_search re_progress (u "Progress update: a, b, 517/1023 x")
  = Some [u "a, b"; u "517"; u "1023"].
Proof. reflexivity. Qed.

Example search_complete :
  re_search re_complete (u "x file[a completed] file[b] is completed")
  = Some [u "a completed"].
Proof. reflexivity. Qed.

Example search_complete_case :
  re_search re_complete (u "file[a.mp4]: COMPLETED") = None.
Proof. reflexivity. Qed.

Example search_error :
  re_search re_error (u "file  [等待解析...] error") = Some [placeholder].
Proof. reflexivity. Qed.

Example placeholder_length : List.length placeholder = 7%nat.
Proof. reflexivity. Qed.

Example hundred_value : hundred = S754_finite false 7036874417766400 (-46).
Proof. reflexivity. Qed.

(** [round(d / t * 100, 1)] as CPython computes it, mantissa and exponent. *)
Example progress_values :
  forallb
    (fun '(d, t, (m, e)) =>
       match progress_of d t with
       | Ok (PyFloat (S754_finite false m' e')) => (Zpos m' =? m) && (e' =? e)
       | Ok (PyFloat (S754_zero false)) => (m =? 0) && (e =? 0)
       | _ => false
       end)
    [(1, 3, (4686558362232422, -47));
     (2, 3, (4693595236650189, -46));
     (50, 100, (7036874417766400, -47));
     (200, 100, (7036874417766400, -45));
     (1, 2000, (7205759403792794, -56));
     (5, 1000, (4503599627370496, -53));
     (25, 1000, (5629499534213120, -51));
     (35, 1000, (7881299347898368, -51));
     (29, 100, (8162774324609024, -48));
     (1005, 1000, (7072058789855232, -46));
     (15, 10000, (7205759403792794, -56));
     (1, 8, (7036874417766400, -49));
     (7, 9007199254740993, (0, 0));
     (123456789, 1000, (6628035890302157, -29));
     (10 ^ 30, 3 * 10 ^ 30, (4686558362232422, -47));
     (999, 1000, (7029837543348634, -46));
     (9995, 10000, (7036874417766400, -46));
     (99995, 100000, (7036874417766400, -46));
     (1, 10 ^ 320, (0, 0));
     (10 ^ 300, 7, (6004350977899339, 948))] = true.
Proof. vm_compute. reflexivity. Qed.

(** The product agrees with the multiplication of the Standard Library. *)
Example product_values :
  forallb
    (fun '(d, t) =>
       match int_true_div d t with
       | Ok q =>
           match SFcompare (float_mul q hundred) (SFmul prec emax q hundred) with
           | Some Eq => true
           | _ => false
           end
       | Raise _ => false
       end)
    [(1, 3); (2, 3); (50, 100); (1, 2000); (7, 9007199254740991);
     (9007199254740991, 7); (1, 10); (123456789, 1000); (0, 5); (5, 5);
     (1, 2 ^ 1074); (3, 2 ^ 1075); (1, 2 ^ 1080); (2 ^ 1000, 3); (29, 100)] = true.
Proof. vm_compute. reflexivity. Qed.

(** The quotient of two ints that doubles hold exactly agrees with the
    division of the Standard Library on the converted operands. *)
Example quotient_values :
  forallb
    (fun '(d, t) =>
       match int_true_div d t with
       | Ok q =>
           match SFcompare q
                   (SFdiv prec emax (float_of_small_int d) (float_of_small_int t)) with
           | Some Eq => true
           | _ => false
           end
       | Raise _ => false
       end)
    [(1, 3); (2, 3); (50, 100); (1, 2000); (7, 9007199254740991);
     (9007199254740991, 7); (1, 10); (123456789, 1000); (0, 5); (5, 5);
     (9007199254740991, 9007199254740990); (9007199254740990, 9007199254740991);
     (3, 4503599627370497); (29, 100); (57, 100)] = true.
Proof. vm_compute. reflexivity. Qed.

Example quotient_overflow : int_true_div (10 ^ 400) 1 = Raise OverflowError.
Proof. vm_compute. reflexivity. Qed.

End Sanity.

(* ================================================================== *)
(** ** Facts about strings and the registry operations *)

Lemma str_eqb_eq (a b : str) : str_eqb a b = true <-> a = b.
Proof.
  revert b; induction a as [|x a IH]; intros [|y b]; simpl; split;
    try congruence; try reflexivity.
  - intros H. apply andb_true_iff in H as [Hx Hr].
    apply N.eqb_eq in Hx. apply IH in Hr. congruence.
  - intros H. injection H as -> ->. apply andb_true_iff. split.
    + apply N.eqb_refl.
    + now apply IH.
Qed.

Lemma str_eqb_refl (a : str) : str_eqb a a = true.
Proof. now apply str_eqb_eq. Qed.

Lemma str_eqb_neq (a b : str) : str_eqb a b = false <-> a <> b.
Proof.
  destruct (str_eqb a b) eqn:E.
  - apply str_eqb_eq in E. split; congruence.
  - split; auto. intros _ Hab. apply str_eqb_eq in Hab. congruence.
Qed.

Lemma modify_first_none p f (d : dict) :
  modify_first p f d = None <-> existsb (fun e => p (snd e)) d = false.
Proof.
  induction d as [|[k t] d IH]; simpl.
  - tauto.
  - destruct (p t); simpl.
    + split; discriminate.
    + destruct (modify_first p f d) as [[k1 d1]|].
      * split; [discriminate|]. intros H. apply IH in H. discriminate.
      * tauto.
Qed.

Lemma modify_first_split p f (pre post : dict) k t :
  (forall e, In e pre -> p (snd e) = false) ->
  p t = true ->
  modify_first p f (pre ++ (k, t) :: post) = Some (k, pre ++ (k, f t) :: post).
Proof.
  induction pre as [|[k0 t0] pre IH]; intros Hpre Ht; simpl.
  - now rewrite Ht.
  - assert (p t0 = false) as -> by (apply (Hpre (k0, t0)); now left).
    rewrite IH; auto. intros e He. apply Hpre. now right.
Qed.

(** A successful [modify_first] changed the first matching entry and no other. *)
Lemma modify_first_some p f (d : dict) k d' :
  modify_first p f d = Some (k, d') ->
  exists pre t post,
    d = pre ++ (k, t) :: post /\ d' = pre ++ (k, f t) :: post /\
    p t = true /\ forall e, In e pre -> p (snd e) = false.
Proof.
  revert k d'; induction d as [|[k0 t0] d IH]; intros k d' H; simpl in H.
  - discriminate.
  - destruct (p t0) eqn:Hp.
    + injection H as <- <-. exists [], t0, d. simpl. repeat split; auto.
      intros e [].
    + destruct (modify_first p f d) as [[k1 d1]|] eqn:E; [|discriminate].
      injection H as <- <-.
      destruct (IH _ _ eq_refl) as (pre & t & post & -> & -> & Ht & Hpre).
      exists ((k0, t0) :: pre), t, post. simpl. repeat split; auto.
      intros e [<-|He]; auto.
Qed.

Lemma dict_modify_split (pre post : dict) k t f :
  (forall e, In e pre -> fst e <> k) ->
  dict_modify (pre ++ (k, t) :: post) k f = pre ++ (k, f t) :: post.
Proof.
  induction pre as [|[k0 t0] pre IH]; intros Hpre; simpl.
  - now rewrite str_eqb_refl.
  - assert (str_eqb k0 k = false) as ->
        by (apply str_eqb_neq; apply (Hpre (k0, t0)); now left).
    rewrite IH; auto. intros e He. apply Hpre. now right.
Qed.

Lemma dict_get_split (d : dict) k t :
  dict_get d k = Some t ->
  exists pre post, d = pre ++ (k, t) :: post /\ forall e, In e pre -> fst e <> k.
Proof.
  induction d as [|[k0 t0] d IH]; simpl; intros H.
  - discriminate.
  - destruct (str_eqb k0 k) eqn:E.
    + apply str_eqb_eq in E. subst k0. injection H as ->.
      exists [], d. split; [reflexivity | intros e []].
    + destruct (IH H) as (pre & post & -> & Hpre).
      exists ((k0, t0) :: pre), post. split; [reflexivity|].
      intros e [<-|He]; simpl; [now apply str_eqb_neq | now apply Hpre].
Qed.

Lemma dict_mem_true (d : dict) k :
  dict_mem k d = true <-> exists t, dict_get d k = Some t.
Proof.
  unfold dict_mem. destruct (dict_get d k) as [t|].
  - split; eauto.
  - split; [discriminate|]. intros [t Ht]. discriminate.
Qed.

Lemma dict_mem_keys (d : dict) k : dict_mem k d = true <-> In k (keys d).
Proof.
  unfold dict_mem. induction d as [|[k0 t0] d IH]; simpl.
  - split; [discriminate|tauto].
  - destruct (str_eqb k0 k) eqn:E.
    + apply str_eqb_eq in E. split; auto.
    + apply str_eqb_neq in E. rewrite IH. split; auto. intros [H|H]; tauto.
Qed.

Lemma dict_get_set (d : dict) k v k' :
  dict_get (dict_set d k v) k' = if str_eqb k k' then Some v else dict_get d k'.
Proof.
  induction d as [|[k0 t0] d IH]; simpl.
  - reflexivity.
  - destruct (str_eqb k0 k) eqn:E; simpl.
    + apply str_eqb_eq in E. subst k0. now destruct (str_eqb k k').
    + destruct (str_eqb k0 k') eqn:E'; auto.
      apply str_eqb_eq in E'. subst k0.
      destruct (str_eqb k k') eqn:E2; auto.
      apply str_eqb_eq in E2. subst k'. rewrite str_eqb_refl in E. discriminate.
Qed.


Lemma dict_set_split (pre post : dict) k t v :
  (forall e, In e pre -> fst e <> k) ->
  dict_set (pre ++ (k, t) :: post) k v = pre ++ (k, v) :: post.
Proof.
  induction pre as [|[k0 t0] pre IH]; intros Hpre; simpl.
  - now rewrite str_eqb_refl.
  - assert (str_eqb k0 k = false) as ->
        by (apply str_eqb_neq; apply (Hpre (k0, t0)); now left).
    rewrite IH; auto. intros e He. apply Hpre. now right.
Qed.

Lemma dict_set_fresh (d : dict) k v :
  dict_mem k d = false -> dict_set d k v = d ++ [(k, v)].
Proof.
  unfold dict_mem. induction d as [|[k0 t0] d IH]; simpl; intros H.
  - reflexivity.
  - destruct (str_eqb k0 k); [discriminate|]. now rewrite IH.
Qed.

(** Unfolds the parser along the branch that [classify] reports in [H]. *)
Ltac on_branch H :=
  unfold classify in H; unfold parse_download_task, parse_body;
  repeat match type of H with
    | context [match re_search ?r ?m with _ => _ end] =>
        destruct (re_search r m) eqn:?; try discriminate H
    | context [if ?b then _ else _] =>
        destruct b eqn:?; try discriminate H
    end.

(* ================================================================== *)
(** ** Task discovery *)

Section Discovery.
Context {RT : Runtime}.

Lemma discovery_known now hex8 message id s :
  classify message = TaskDiscovered id ->
  dict_mem id (download_tasks s) = true ->
  parse_download_task now hex8 message s = Ok s.
Proof.
  intros H Hmem. on_branch H. injection H as <-. now rewrite Hmem.
Qed.

Lemma discovery_new now hex8 message id s :
  classify message = TaskDiscovered id ->
  dict_mem id (download_tasks s) = false ->
  parse_download_task now hex8 message s =
    Ok (with_tasks s (download_tasks s ++ [(id, new_task id placeholder Queued now)])).
Proof.
  intros H Hmem. on_branch H. injection H as <-. rewrite Hmem. simpl.
  now rewrite dict_set_fresh.
Qed.

(** C10. A 'Processing task: <id>' line (a line that the parser takes in
    its task-discovery branch) whose id is already in the registry changes
    nothing: the state after the line is the state before it, so no
    field of the existing task changes and no task is added.  Hence the
    same discovery line applied a second time (at whatever time) gives the
    state that the first application gave. *)
Theorem discovery_idempotent now hex8 message id s :
  classify message = TaskDiscovered id ->
  (dict_mem id (download_tasks s) = true ->
   parse_download_task now hex8 message s = Ok s)
  /\ (forall s1 now' hex8',
        parse_download_task now hex8 message s = Ok s1 ->
        parse_download_task now' hex8' message s1 = Ok s1).
Proof.
  intros H. split.
  - now apply discovery_known.
  - intros s1 now' hex8' H1. apply discovery_known with (id := id); auto.
    destruct (dict_mem id (download_tasks s)) eqn:Hmem.
    + rewrite (discovery_known _ _ _ _ _ H Hmem) in H1. now injection H1 as <-.
    + rewrite (discovery_new _ _ _ _ _ H Hmem) in H1. injection H1 as <-.
      simpl. apply dict_mem_keys. unfold keys. rewrite map_app. apply in_or_app.
      right. now left.
Qed.

End Discovery.

(* ================================================================== *)
(** ** Binding of a file name *)

Section Binding.
Context {RT : Runtime}.

(** C1. On a 'file[<name>]: Starting file download' line (a line that the
    parser takes in its file-start branch, [fname] being the captured name),
    in any registry state:
    (a) if some task already has exactly that filename, nothing changes;
    (b) otherwise the first task in iteration order that still holds the
        placeholder gets the filename and the status "started", every
        other entry, and the pending timers, staying as they are (so no
        task is synthesized);
    (c) a task under the generated id, with the filename, zero counts and
        the status "started", is written only when no task holds the
        placeholder: it is added after the last task when the id is new,
        and replaces the task stored under that id otherwise.
    A task holds the placeholder when its filename is the sentinel or is
    empty, as the program tests it. *)
Theorem file_start_binding now hex8 message fname s :
  classify message = FileDownloadStarted fname ->
  (has_filename fname (download_tasks s) = true ->
   parse_download_task now hex8 message s = Ok s)
  /\ (has_filename fname (download_tasks s) = false ->
      forall pre k t post,
        download_tasks s = pre ++ (k, t) :: post ->
        (forall e, In e pre -> is_placeholder (snd e) = false) ->
        is_placeholder t = true ->
        parse_download_task now hex8 message s =
          Ok {| download_tasks :=
                  pre ++ (k, {| task_id := task_id t; filename := fname;
                                downloaded := downloaded t; total := total t;
                                progress := progress t; status := Started;
                                start_time := start_time t |}) :: post;
                timers := timers s |})
  /\ (has_filename fname (download_tasks s) = false ->
      has_placeholder (download_tasks s) = false ->
      (dict_mem (u "auto_" ++ hex8) (download_tasks s) = false ->
       parse_download_task now hex8 message s =
         Ok {| download_tasks :=
                 download_tasks s
                 ++ [(u "auto_" ++ hex8,
                      {| task_id := u "auto_" ++ hex8; filename := fname;
                         downloaded := 0; total := 0; progress := PyInt 0;
                         status := Started; start_time := now |})];
               timers := timers s |})
      /\ (forall pre t post,
            download_tasks s = pre ++ (u "auto_" ++ hex8, t) :: post ->
            (forall e, In e pre -> fst e <> u "auto_" ++ hex8) ->
            parse_download_task now hex8 message s =
              Ok {| download_tasks :=
                      pre ++ (u "auto_" ++ hex8,
                              {| task_id := u "auto_" ++ hex8; filename := fname;
                                 downloaded := 0; total := 0; progress := PyInt 0;
                                 status := Started; start_time := now |}) :: post;
                    timers := timers s |})).
Proof.
  intros H. on_branch H. injection H as <-.
  unfold has_placeholder. split; [|split].
  - intros ->. reflexivity.
  - intros -> pre k t post Hd Hpre Ht. rewrite Hd.
    rewrite modify_first_split; auto.
  - intros -> Hph.
    apply (modify_first_none is_placeholder
             (fun t => set_status Started (set_filename (group 1 g) t))) in Hph.
    rewrite Hph. unfold with_tasks, new_task. split.
    + intros Hm. now rewrite dict_set_fresh.
    + intros pre t post Hd Hpre. rewrite Hd. now rewrite dict_set_split.
Qed.

End Binding.

(* ================================================================== *)
(** ** Totality, and lines that resolve to no task *)

Section Totality.
Context {RT : Runtime}.

Lemma parse_returns now hex8 message s :
  exists s', parse_download_task now hex8 message s = Ok s'.
Proof.
  unfold parse_download_task, try_except.
  destruct (parse_body now hex8 message s); eauto.
Qed.

Lemma no_filename_no_change (f : task -> task) fname (d : dict) :
  has_filename fname d = false ->
  modify_first (fun t => str_eqb (filename t) fname) f d = None.
Proof. intros H. now apply modify_first_none. Qed.

(** C7. Whatever the line, [parse_download_task] returns (it never raises:
    an exception of its body is caught and the call ends normally); a line
    that is neither a task-discovery nor a file-start line and resolves to
    no task of the registry leaves the state as it was, and so does a
    progress line whose numbers cannot be converted. *)
Theorem parse_total now hex8 message s :
  (exists s', parse_download_task now hex8 message s = Ok s')
  /\ (no_target message (download_tasks s) = true ->
      parse_download_task now hex8 message s = Ok s)
  /\ (forall identifier dl tot e,
        classify message = ProgressUpdate identifier dl tot ->
        read_progress dl tot = Raise e ->
        parse_download_task now hex8 message s = Ok s).
Proof.
  split; [apply parse_returns|]. split.
  - unfold no_target, classify, parse_download_task, parse_body.
    repeat match goal with
      | |- context [match re_search ?r ?m with _ => _ end] =>
          destruct (re_search r m) eqn:?
      end;
    repeat match goal with
      | |- context [if ?b then CompletionLine _ else _] => destruct b eqn:?
      | |- context [if ?b then FailureLine _ _ else _] => destruct b eqn:?
      end;
    cbn [option_map]; try discriminate; intros H;
    try (apply negb_true_iff in H; rewrite ?H, ?no_filename_no_change by assumption;
         reflexivity);
    try reflexivity.
    apply andb_true_iff in H as [H1 H2].
    apply negb_true_iff in H1. apply negb_true_iff in H2.
    destruct (py_int (group 2 g)); cbn [bind try_except]; auto.
    destruct (py_int (group 3 g)); cbn [bind try_except]; auto.
    destruct (progress_value a a0); cbn [bind try_except]; auto.
    rewrite H1. now rewrite no_filename_no_change.
  - intros identifier dl tot e H Hr. on_branch H. injection H as <- <- <-.
    unfold read_progress in Hr.
    destruct (py_int (group 2 g)); cbn [bind try_except] in *; auto.
    destruct (py_int (group 3 g)); cbn [bind try_except] in *; auto.
    destruct (progress_value a a0); cbn [bind try_except] in *; auto. discriminate.
Qed.

End Totality.

(* ================================================================== *)
(** ** Progress updates *)

Section Progress.
Context {RT : Runtime}.

(** C5, as the program has it. On a 'Progress update: <identifier>, <d>/<t>'
    line whose two numbers convert and whose quotient is within the range
    of a float: the identifier is looked up as a task id first and, only
    when no task has that id, as a filename (the first task in iteration
    order that has it); exactly that task gets the new [downloaded],
    [total] and [progress] and the status Downloading, every other entry,
    and the pending timers, staying as they are; when neither an id nor a
    filename matches, the state is unchanged and no task is created.
    When a number does not convert, or the quotient overflows, the
    exception handler drops the line and the state is unchanged. *)
Theorem progress_update_resolution now hex8 message identifier dl tot s :
  classify message = ProgressUpdate identifier dl tot ->
  match read_progress dl tot with
  | Raise _ => parse_download_task now hex8 message s = Ok s
  | Ok (d, t, p) =>
      let upd task :=
        {| task_id := task_id task; filename := filename task;
           downloaded := d; total := t; progress := py_round1 p;
           status := Downloading; start_time := start_time task |} in
      (forall pre task post,
          download_tasks s = pre ++ (identifier, task) :: post ->
          (forall e, In e pre -> fst e <> identifier) ->
          parse_download_task now hex8 message s =
            Ok {| download_tasks := pre ++ (identifier, upd task) :: post;
                  timers := timers s |})
      /\ (dict_mem identifier (download_tasks s) = false ->
          forall pre k task post,
            download_tasks s = pre ++ (k, task) :: post ->
            (forall e, In e pre -> filename (snd e) <> identifier) ->
            filename task = identifier ->
            parse_download_task now hex8 message s =
              Ok {| download_tasks := pre ++ (k, upd task) :: post;
                    timers := timers s |})
      /\ (dict_mem identifier (download_tasks s) = false ->
          has_filename identifier (download_tasks s) = false ->
          parse_download_task now hex8 message s = Ok s)
  end.
Proof.
  intros H. on_branch H. injection H as <- <- <-. unfold read_progress.
  destruct (py_int (group 2 g)) as [d|]; cbn [bind try_except]; auto.
  destruct (py_int (group 3 g)) as [t|]; cbn [bind try_except]; auto.
  destruct (progress_value d t) as [p|]; cbn [bind try_except]; auto.
  repeat split.
  - intros pre task post Hd Hpre.
    assert (dict_mem (strip (group 1 g)) (download_tasks s) = true) as ->.
    { apply dict_mem_keys. rewrite Hd. unfold keys. rewrite map_app.
      apply in_or_app. right. now left. }
    rewrite Hd. now rewrite dict_modify_split.
  - intros -> pre k task post Hd Hpre Hf. rewrite Hd.
    rewrite modify_first_split; auto.
    + intros e He. apply str_eqb_neq. now apply Hpre.
    + now apply str_eqb_eq.
  - intros -> Hf. now rewrite no_filename_no_change.
Qed.

End Progress.

(* ================================================================== *)
(** ** Clearing tasks *)

Lemma del_all_cons_other (l : list str) k t (d : dict) :
  ~ In k l -> del_all l ((k, t) :: d) = (k, t) :: del_all l d.
Proof.
  revert d; induction l as [|k0 l IH]; intros d Hk; simpl.
  - reflexivity.
  - assert (str_eqb k k0 = false) as ->
        by (apply str_eqb_neq; intros ->; apply Hk; now left).
    apply IH. intros Hin. apply Hk. now right.
Qed.

Lemma keys_filter_incl (p : str * task -> bool) (d : dict) k :
  In k (keys (filter p d)) -> In k (keys d).
Proof.
  unfold keys. intros H. apply in_map_iff in H as (e & <- & He).
  apply filter_In in He as [He _]. now apply in_map.
Qed.

Lemma wf_dict_filter (p : str * task -> bool) (d : dict) :
  wf_dict d -> wf_dict (filter p d).
Proof.
  unfold wf_dict. induction d as [|[k t] d IH]; simpl; intros H.
  - constructor.
  - inversion H as [|? ? Hk Hd]; subst. destruct (p (k, t)); simpl; auto.
    constructor; auto. intros Hin. apply Hk. now apply keys_filter_incl in Hin.
Qed.

(** Deleting the keys selected by [p] keeps exactly the other entries, in order. *)
Lemma del_all_filter (p : str * task -> bool) (d : dict) :
  wf_dict d ->
  del_all (map fst (filter p d)) d = filter (fun e => negb (p e)) d.
Proof.
  unfold wf_dict. induction d as [|[k t] d IH]; simpl; intros H.
  - reflexivity.
  - inversion H as [|? ? Hk Hd]; subst. destruct (p (k, t)); simpl.
    + rewrite str_eqb_refl. now apply IH.
    + rewrite del_all_cons_other.
      * now rewrite IH.
      * intros Hin. apply Hk. eapply keys_filter_incl. exact Hin.
Qed.

Lemma filter_none {A} (p : A -> bool) (l : list A) :
  (forall x, In x l -> p x = false) -> filter p l = [].
Proof.
  induction l as [|x l IH]; simpl; intros H; auto.
  rewrite (H x) by now left. apply IH. intros y Hy. apply H. now right.
Qed.

Lemma filter_all {A} (p : A -> bool) (l : list A) :
  (forall x, In x l -> p x = true) -> filter p l = l.
Proof.
  induction l as [|x l IH]; simpl; intros H; auto.
  rewrite (H x) by now left. f_equal. apply IH. intros y Hy. apply H. now right.
Qed.

Lemma clear_tasks_completed ty s :
  wf_dict (download_tasks s) ->
  ty = None \/ ty = Some (TypeStr (u "completed")) ->
  clear_tasks (JsonBody ty) s =
    (with_tasks s (filter unfinished (download_tasks s)),
     Cleared (List.length (filter finished (download_tasks s)))).
Proof.
  intros Hwf Hty. unfold clear_tasks.
  assert (clear_type_of (JsonBody ty) = Ok (TypeStr (u "completed"))) as ->
      by (destruct Hty as [-> | ->]; reflexivity).
  change (type_is (TypeStr (u "completed")) (u "completed")) with true.
  change (type_is (TypeStr (u "completed")) (u "all")) with false.
  cbn [andb].
  assert (filter (fun e : str * task =>
                    if is_terminal (status (snd e)) then true else false)
            (download_tasks s) = filter finished (download_tasks s)) as ->.
  { apply filter_ext. intros e. unfold finished. now destruct (is_terminal _). }
  rewrite del_all_filter by assumption. now rewrite length_map.
Qed.

Lemma clear_tasks_all s :
  wf_dict (download_tasks s) ->
  clear_tasks (JsonBody (Some (TypeStr (u "all")))) s =
    (with_tasks s [], Cleared (List.length (download_tasks s))).
Proof.
  intros Hwf. unfold clear_tasks. cbn [clear_type_of].
  change (type_is (TypeStr (u "all")) (u "completed")) with false.
  change (type_is (TypeStr (u "all")) (u "all")) with true.
  cbn [andb].
  rewrite (del_all_filter (fun _ => true)) by assumption.
  rewrite length_map, (filter_all (fun _ => true)) by reflexivity.
  now rewrite filter_none by reflexivity.
Qed.

(** C6. On a registry (a dict, its keys distinct):
    - clear("all") removes every task and answers with their number;
    - clear("completed") (also the default, when the request names no type)
      removes exactly the tasks whose status is Completed, Cancelled or
      Failed and answers with their number; every other entry stays, with
      all its fields and in its place;
    - either clear, repeated on its result, removes nothing;
    - the window's "clear finished" button does what clear("completed") does. *)
Theorem clear_semantics s :
  wf_dict (download_tasks s) ->
  let d := download_tasks s in
  clear_tasks (JsonBody (Some (TypeStr (u "all")))) s
    = (with_tasks s [], Cleared (List.length d))
  /\ clear_tasks (JsonBody (Some (TypeStr (u "completed")))) s
     = (with_tasks s (filter unfinished d), Cleared (List.length (filter finished d)))
  /\ clear_tasks NoBody s = clear_tasks (JsonBody (Some (TypeStr (u "completed")))) s
  /\ clear_tasks (JsonBody None) s = clear_tasks (JsonBody (Some (TypeStr (u "completed")))) s
  /\ (forall k t, In (k, t) d -> is_terminal (status t) = false ->
        In (k, t) (filter unfinished d))
  /\ (forall k t, In (k, t) (filter unfinished d) ->
        In (k, t) d /\ is_terminal (status t) = false)
  /\ clear_tasks (JsonBody (Some (TypeStr (u "all")))) (with_tasks s [])
     = (with_tasks s [], Cleared 0)
  /\ clear_tasks (JsonBody (Some (TypeStr (u "completed")))) (with_tasks s (filter unfinished d))
     = (with_tasks s (filter unfinished d), Cleared 0)
  /\ clear_finished_tasks s = with_tasks s (filter unfinished d).
Proof.
  intros Hwf d. subst d.
  assert (Hidem : filter unfinished (filter unfinished (download_tasks s))
                  = filter unfinished (download_tasks s)).
  { apply filter_all. intros e He. now apply filter_In in He. }
  assert (Hnone : filter finished (filter unfinished (download_tasks s)) = []).
  { apply filter_none. intros e He. apply filter_In in He as [_ He].
    unfold unfinished in He. now apply negb_true_iff in He. }
  split; [now apply clear_tasks_all|].
  split; [apply clear_tasks_completed; auto|].
  split; [reflexivity|]. split; [reflexivity|].
  split.
  { intros k t Hin Ht. apply filter_In. split; auto.
    unfold unfinished, finished. simpl. now rewrite Ht. }
  split.
  { intros k t H. apply filter_In in H as [Hin H]. split; auto.
    unfold unfinished, finished in H. now apply negb_true_iff in H. }
  split.
  { rewrite clear_tasks_all; [reflexivity | constructor]. }
  split.
  { rewrite clear_tasks_completed; auto.
    - cbn [download_tasks with_tasks timers]. rewrite Hidem, Hnone. reflexivity.
    - cbn [download_tasks with_tasks]. now apply wf_dict_filter. }
  unfold clear_finished_tasks.
  change (fun e : str * task => is_terminal (status (snd e))) with finished.
  now rewrite del_all_filter.
Qed.

(* ================================================================== *)
(** ** Bounds on the rounded quotient *)

Lemma pow2_pos (z : Z) : 0 <= z -> 0 < 2 ^ z.
Proof. intros. apply Z.pow_pos_nonneg; lia. Qed.

Lemma scaled_leb_spec (d z n K : Z) :
  0 <= K -> 0 <= z + K ->
  scaled_leb d z n = true <-> d * 2 ^ (z + K) <= n * 2 ^ K.
Proof.
  intros HK HzK. unfold scaled_leb. destruct (0 <=? z) eqn:Hz; cbv iota.
  - apply Z.leb_le in Hz. rewrite Z.leb_le, Z.pow_add_r by lia.
    pose proof (pow2_pos K HK). rewrite Z.mul_assoc.
    split; intros H1.
    + now apply Z.mul_le_mono_pos_r.
    + now apply Z.mul_le_mono_pos_r in H1.
  - apply Z.leb_gt in Hz. rewrite Z.leb_le.
    replace K with (- z + (z + K)) at 2 by lia.
    rewrite (Z.pow_add_r 2 (- z) (z + K)) by lia.
    pose proof (pow2_pos (z + K) HzK). rewrite Z.mul_assoc.
    split; intros H1.
    + now apply Z.mul_le_mono_pos_r.
    + now apply Z.mul_le_mono_pos_r in H1.
Qed.

Lemma floor_log2_ratio_spec (n d : Z) :
  0 < n -> 0 < d ->
  scaled_leb d (floor_log2_ratio n d) n = true
  /\ scaled_leb d (floor_log2_ratio n d + 1) n = false.
Proof.
  intros Hn Hd. unfold floor_log2_ratio.
  pose proof (Z.log2_spec n Hn) as [Hn1 Hn2].
  pose proof (Z.log2_spec d Hd) as [Hd1 Hd2].
  pose proof (Z.log2_nonneg n) as Pn. pose proof (Z.log2_nonneg d) as Pd.
  pose proof (pow2_pos _ Pn). pose proof (pow2_pos _ Pd).
  set (z := Z.log2 n - Z.log2 d).
  destruct (scaled_leb d z n) eqn:E.
  - split; auto. apply not_true_iff_false. intros H1.
    assert (HK : 0 <= Z.log2 d) by lia.
    assert (HzK : 0 <= z + 1 + Z.log2 d) by lia.
    apply (proj1 (scaled_leb_spec d (z + 1) n (Z.log2 d) HK HzK)) in H1.
    replace (z + 1 + Z.log2 d) with (Z.succ (Z.log2 n)) in H1 by lia. nia.
  - split; [|replace (z - 1 + 1) with z by lia; exact E].
    assert (HK : 0 <= Z.succ (Z.log2 d)) by lia.
    assert (HzK : 0 <= z - 1 + Z.succ (Z.log2 d)) by lia.
    apply (proj2 (scaled_leb_spec d (z - 1) n (Z.succ (Z.log2 d)) HK HzK)).
    replace (z - 1 + Z.succ (Z.log2 d)) with (Z.log2 n) by lia. nia.
Qed.

Lemma round_half_even_le (n d M : Z) :
  0 < d -> n <= M * d -> round_half_even n d <= M.
Proof.
  intros Hd H. unfold round_half_even.
  pose proof (Z.div_mod n d ltac:(lia)) as Hdm.
  pose proof (Z.mod_pos_bound n d Hd) as Hm.
  assert (n / d <= M) by (apply Z.div_le_upper_bound; lia).
  destruct (Z.eq_dec (n / d) M) as [Heq|Hne].
  - assert (n mod d = 0) by nia.
    replace (2 * (n mod d) ?= d) with Lt by (symmetry; apply Z.compare_lt_iff; lia).
    lia.
  - destruct (2 * (n mod d) ?= d); try destruct (Z.even (n / d)); lia.
Qed.

Lemma round_half_even_lt (n d M : Z) :
  0 < d -> n < M * d -> round_half_even n d <= M.
Proof. intros Hd H. apply round_half_even_le; lia. Qed.

Lemma round_half_even_nonneg (n d : Z) :
  0 < d -> 0 <= n -> 0 <= round_half_even n d.
Proof.
  intros Hd Hn. unfold round_half_even.
  assert (0 <= n / d) by (apply Z.div_pos; lia).
  destruct (2 * (n mod d) ?= d); try destruct (Z.even (n / d)); lia.
Qed.

Lemma nearest_double_below (n d mB eB : Z) :
  0 <= n -> 0 < d ->
  2 ^ 52 <= mB -> mB < 2 ^ 53 -> -1074 <= eB -> eB < 0 ->
  n * 2 ^ (- eB) <= mB * d ->
  exists f, nearest_double false n d = Some f /\ below mB eB f.
Proof.
  intros Hn Hd HmB1 HmB2 HeB1 HeB2 Hle. unfold nearest_double.
  destruct (n =? 0) eqn:Hn0.
  { exists (S754_zero false). split; [reflexivity | exact I]. }
  apply Z.eqb_neq in Hn0. assert (Hn' : 0 < n) by lia.
  destruct (floor_log2_ratio_spec n d Hn' Hd) as [F1 F2].
  set (L := floor_log2_ratio n d) in *.
  set (K := Z.max 1074 (- L) + 1).
  assert (HK : 0 <= K) by lia.
  assert (HLK : 0 <= L + K) by lia.
  assert (HLK1 : 0 <= L + 1 + K) by lia.
  apply (proj1 (scaled_leb_spec d L n K HK HLK)) in F1.
  assert (F2' : n * 2 ^ K < d * 2 ^ (L + 1 + K)).
  { apply Z.nle_gt. intros Hc.
    apply (proj2 (scaled_leb_spec d (L + 1) n K HK HLK1)) in Hc. congruence. }
  clear F2.
  pose proof (pow2_pos K HK) as PK.
  pose proof (pow2_pos (- eB) ltac:(lia)) as PA.
  (* the exponent is at most that of the bound *)
  assert (HA : L - 52 <= eB).
  { apply Z.nlt_ge. intros Hc.
    assert (H1 : 2 ^ (eB + 53 + K) <= 2 ^ (L + K))
      by (apply Z.pow_le_mono_r; lia).
    assert (H2 : 2 ^ (eB + 53 + K) * 2 ^ (- eB) = 2 ^ 53 * 2 ^ K).
    { rewrite <- !Z.pow_add_r by lia. f_equal. lia. }
    assert (H3 : d * 2 ^ (eB + 53 + K) <= n * 2 ^ K) by nia.
    assert (H4 : d * 2 ^ (eB + 53 + K) * 2 ^ (- eB) <= n * 2 ^ K * 2 ^ (- eB))
      by (apply Z.mul_le_mono_nonneg_r; lia).
    assert (H5 : n * 2 ^ (- eB) * 2 ^ K <= mB * d * 2 ^ K)
      by (apply Z.mul_le_mono_nonneg_r; lia).
    assert (H6 : mB * d * 2 ^ K < 2 ^ 53 * d * 2 ^ K).
    { apply Z.mul_lt_mono_pos_r; auto. apply Z.mul_lt_mono_pos_r; auto. }
    nia. }
  set (e := Z.max (L - (prec - 1)) (3 - emax - prec)).
  assert (He1 : e <= eB) by (unfold e, prec, emax; lia).
  assert (He2 : L - 52 <= e) by (unfold e, prec, emax; lia).
  assert (He3 : -1074 <= e) by (unfold e, prec, emax; lia).
  assert (He0 : (0 <=? e) = false) by (apply Z.leb_gt; lia).
  rewrite He0.
  pose proof (pow2_pos (- e) ltac:(lia)) as PE.
  (* the mantissa has at most 54 bits *)
  assert (HB : n * 2 ^ (- e) < 2 ^ 53 * d).
  { assert (H1 : 2 ^ (L + 1 + K) <= 2 ^ (e + 53 + K))
      by (apply Z.pow_le_mono_r; lia).
    assert (H2 : 2 ^ K = 2 ^ (- e) * 2 ^ (K + e)).
    { rewrite <- Z.pow_add_r by lia. f_equal. lia. }
    assert (H3 : 2 ^ (e + 53 + K) = 2 ^ 53 * 2 ^ (K + e)).
    { rewrite <- Z.pow_add_r by lia. f_equal. lia. }
    pose proof (pow2_pos (K + e) ltac:(lia)) as PKe.
    assert (H4 : n * 2 ^ K < d * 2 ^ (e + 53 + K)) by nia.
    rewrite H2, H3 in H4.
    apply Z.mul_lt_mono_pos_r with (p := 2 ^ (K + e)); auto. lia. }
  set (m := round_half_even (n * 2 ^ (- e)) d).
  assert (Hm1 : m <= 2 ^ 53) by (apply round_half_even_lt; lia).
  assert (Hm0 : 0 <= m) by (apply round_half_even_nonneg; nia).
  assert (Hm2 : e = eB -> m <= mB).
  { intros ->. apply round_half_even_le; auto. }
  change (2 ^ prec) with (2 ^ 53).
  destruct (m =? 2 ^ 53) eqn:Hm53.
  - apply Z.eqb_eq in Hm53.
    assert (e < eB) by (destruct (Z.eq_dec e eB) as [E|E]; [apply Hm2 in E|]; lia).
    change (2 ^ (prec - 1)) with (Zpos 4503599627370496).
    assert ((e + 1 <=? emax - prec) = true) as -> by (apply Z.leb_le; unfold emax, prec; lia).
    eexists. split; [reflexivity|]. simpl. split; [reflexivity|].
    change (2 ^ 52) with 4503599627370496 in HmB1. lia.
  - apply Z.eqb_neq in Hm53. destruct m as [|p|p] eqn:Em.
    + eexists. split; [reflexivity | exact I].
    + assert ((e <=? emax - prec) = true) as -> by (apply Z.leb_le; unfold emax, prec; lia).
      eexists. split; [reflexivity|]. simpl. split; [lia|].
      destruct (Z.eq_dec e eB) as [E|E]; [right; auto | left; lia].
    + eexists. split; [reflexivity | exact I].
Qed.

Lemma below_value (mB eB : Z) m e :
  2 ^ 52 <= mB ->
  below mB eB (S754_finite false m e) ->
  e <= eB /\ Zpos m <= mB * 2 ^ (eB - e).
Proof.
  intros HmB [Hm [He | [-> Hle]]].
  - split; [lia|].
    assert (2 ^ 1 <= 2 ^ (eB - e)) by (apply Z.pow_le_mono_r; lia).
    change (2 ^ 1) with 2 in *. change (2 ^ 53) with (2 ^ 52 * 2) in Hm.
    assert (0 < 2 ^ 52) by reflexivity. nia.
  - split; [lia|]. rewrite Z.sub_diag. simpl. lia.
Qed.

Lemma nearest_double_nonneg (n d : Z) f :
  nearest_double false n d = Some f -> nonneg f.
Proof.
  unfold nearest_double. destruct (n =? 0).
  { intros H; injection H as <-; exact I. }
  destruct (0 <=? _), (_ =? 2 ^ prec);
    match goal with
    | |- context [match ?m with Z0 => _ | Zpos _ => _ | Zneg _ => _ end] =>
        destruct m
    end;
    try match goal with |- context [if ?b then _ else _] => destruct b end;
    intros H; try discriminate; injection H as <-; exact I.
Qed.

Lemma hundred_eq : hundred = S754_finite false 7036874417766400 (-46).
Proof. reflexivity. Qed.

Lemma float_mul_nonneg (x : spec_float) :
  nonneg x -> nonneg (float_mul x hundred).
Proof.
  rewrite hundred_eq. destruct x as [s|[]| |[] m e]; simpl; try tauto.
  intros _.
  match goal with
  | |- context [match ?o with Some _ => _ | None => _ end] => destruct o eqn:E
  end; [|exact I].
  destruct (0 <=? e + -46); now apply nearest_double_nonneg in E.
Qed.

Lemma float_round1_nonneg (x : spec_float) :
  nonneg x -> nonneg (float_round1 x).
Proof.
  destruct x as [s|[]| |[] m e]; simpl; try tauto.
  intros _. destruct (0 <=? e); [exact I|].
  match goal with
  | |- context [match ?o with Some _ => _ | None => _ end] => destruct o eqn:E
  end; [|exact I].
  now apply nearest_double_nonneg in E.
Qed.

Lemma nonneg_leb (f : spec_float) :
  nonneg f -> py_leb (PyInt 0) (PyFloat f) = true.
Proof.
  destruct f as [s|[]| |[] m e]; simpl; try tauto; intros _; try reflexivity.
  unfold py_leb, py_cmp, float_cmp_int, option_map.
  destruct (0 <=? e) eqn:He.
  - apply Z.leb_le in He. pose proof (pow2_pos e He).
    assert ((Zpos m * 2 ^ e ?= 0) = Gt) as -> by (apply Z.compare_gt_iff; nia).
    reflexivity.
  - reflexivity.
Qed.

Section ProgressBounds.
Context {RT : Runtime}.

Lemma int_true_div_nonneg (d t : Z) q :
  0 <= d -> 0 < t -> int_true_div d t = Ok q -> nonneg q.
Proof.
  intros Hd Ht. unfold int_true_div.
  assert ((t =? 0) = false) as -> by (apply Z.eqb_neq; lia).
  assert ((d <? 0) = false) as -> by (apply Z.ltb_ge; lia).
  assert ((t <? 0) = false) as -> by (apply Z.ltb_ge; lia).
  simpl xorb. destruct (nearest_double false _ _) eqn:E; [|discriminate].
  intros H; injection H as <-. now apply nearest_double_nonneg in E.
Qed.

Lemma progress_nonneg (d t : Z) p :
  0 <= d -> progress_value d t = Ok p ->
  py_leb (PyInt 0) (py_round1 p) = true.
Proof.
  intros Hd. unfold progress_value. destruct (t >? 0) eqn:Ht.
  - destruct (int_true_div d t) as [q|] eqn:E; cbn [bind]; [|discriminate].
    intros H; injection H as <-. cbn [py_round1].
    apply nonneg_leb, float_round1_nonneg, float_mul_nonneg.
    apply (int_true_div_nonneg d t); auto. lia.
  - intros H; injection H as <-. reflexivity.
Qed.

Lemma progress_at_most_100 (d t : Z) p :
  0 <= d -> d <= t -> progress_value d t = Ok p ->
  py_leb (py_round1 p) (PyInt 100) = true.
Proof.
  intros Hd Hdt. unfold progress_value. destruct (t >? 0) eqn:Ht;
    [|intros H; injection H as <-; reflexivity].
  assert (Ht' : 0 < t) by lia.
  unfold int_true_div.
  assert ((t =? 0) = false) as -> by (apply Z.eqb_neq; lia).
  assert ((d <? 0) = false) as -> by (apply Z.ltb_ge; lia).
  assert ((t <? 0) = false) as -> by (apply Z.ltb_ge; lia).
  rewrite (Z.abs_eq d), (Z.abs_eq t) by lia. simpl xorb.
  destruct (nearest_double_below d t (2 ^ 52) (-52)) as (q & -> & Hq);
    try lia; try reflexivity.
  cbn [bind]. intros H; injection H as <-. cbn [py_round1].
  rewrite hundred_eq.
  assert (H52 : 2 ^ 52 <= 7036874417766400) by (intros H; discriminate H).
  (* the quotient is at most 1.0, so the product is at most 100.0 *)
  assert (Hp : below 7036874417766400 (-46)
                 (float_mul q (S754_finite false 7036874417766400 (-46)))).
  { destruct q as [[]| | |[] m e]; cbn [below] in Hq; try tauto; try exact I.
    destruct (below_value (2 ^ 52) (-52) m e (Z.le_refl _) Hq) as [He Hm].
    unfold float_mul. cbn [xorb].
    assert ((0 <=? e + -46) = false) as -> by (apply Z.leb_gt; lia).
    assert (P1 : 0 < 2 ^ (- (e + -46))) by (apply pow2_pos; lia).
    assert (P2 : Zpos m * 7036874417766400 * 2 ^ (- -46)
                 <= 7036874417766400 * 2 ^ (- (e + -46))).
    { replace (- (e + -46)) with (46 + (- 52 - e) + 52) by lia.
      rewrite !Z.pow_add_r by lia.
      pose proof (pow2_pos (-52 - e) ltac:(lia)).
      change (2 ^ (- -46)) with 70368744177664.
      change (2 ^ 46) with 70368744177664.
      change (2 ^ 52) with 4503599627370496 in *. nia. }
    destruct (nearest_double_below (Zpos m * 7036874417766400)
                (2 ^ (- (e + -46))) 7036874417766400 (-46)
                ltac:(lia) P1 H52 ltac:(reflexivity) ltac:(lia) ltac:(lia) P2)
      as (g & -> & Hg).
    exact Hg. }
  (* rounding to one decimal keeps it at most 100.0 *)
  set (y := float_mul q _) in *. clearbody y.
  assert (Hr : below 7036874417766400 (-46) (float_round1 y)).
  { destruct y as [[]| | |[] m e]; cbn [below] in Hp; try tauto; try exact I.
    destruct (below_value _ (-46) m e H52 Hp) as [He Hm].
    unfold float_round1.
    assert ((0 <=? e) = false) as -> by (apply Z.leb_gt; lia).
    pose proof (pow2_pos (- e) ltac:(lia)) as PE.
    assert (Hm' : Zpos m <= 100 * 2 ^ (- e)).
    { replace (- e) with (46 + (-46 - e)) by lia. rewrite Z.pow_add_r by lia.
      change (2 ^ 46) with 70368744177664. lia. }
    assert (P1 : 0 <= round_half_even (Zpos m * 10) (2 ^ (- e)))
      by (apply round_half_even_nonneg; lia).
    assert (P2 : round_half_even (Zpos m * 10) (2 ^ (- e)) * 2 ^ (- -46)
                 <= 7036874417766400 * 10).
    { assert (round_half_even (Zpos m * 10) (2 ^ (- e)) <= 1000)
        by (apply round_half_even_le; lia).
      change (2 ^ (- -46)) with 70368744177664. lia. }
    destruct (nearest_double_below
                (round_half_even (Zpos m * 10) (2 ^ (- e))) 10
                7036874417766400 (-46)
                P1 ltac:(lia) H52 ltac:(reflexivity) ltac:(lia) ltac:(lia) P2)
      as (g & -> & Hg).
    exact Hg. }
  set (r := float_round1 y) in *. clearbody r.
  destruct r as [[]| | |[] m e]; cbn [below] in Hr; try tauto; try reflexivity.
  destruct (below_value _ (-46) m e H52 Hr) as [He Hm].
  unfold py_leb, py_cmp, float_cmp_int.
  assert ((0 <=? e) = false) as -> by (apply Z.leb_gt; lia).
  assert (Hm' : Zpos m <= 100 * 2 ^ (- e)).
  { replace (- e) with (46 + (-46 - e)) by lia. rewrite Z.pow_add_r by lia.
    change (2 ^ 46) with 70368744177664. lia. }
  destruct (Z.compare_spec (Zpos m) (100 * 2 ^ (- e))); auto. lia.
Qed.

End ProgressBounds.

(* ================================================================== *)
(** ** Invariants of the reachable states *)

Section AllTasks.
Variable Q : task -> Prop.

Lemma all_tasks_set (d : dict) k v :
  all_tasks Q d -> Q v -> all_tasks Q (dict_set d k v).
Proof.
  unfold all_tasks. induction d as [|[k0 t0] d IH]; simpl; intros H Hv.
  - constructor; auto.
  - inversion H; subst. simpl in *.
    destruct (str_eqb k0 k); constructor; simpl; auto.
Qed.

Lemma all_tasks_modify (d : dict) k f :
  (forall t, Q t -> Q (f t)) ->
  all_tasks Q d -> all_tasks Q (dict_modify d k f).
Proof.
  unfold all_tasks. intros Hf. induction d as [|[k0 t0] d IH]; simpl; intros H.
  - constructor.
  - inversion H; subst. simpl in *.
    destruct (str_eqb k0 k); constructor; simpl; auto.
Qed.

Lemma all_tasks_modify_first p f (d : dict) k d' :
  (forall t, Q t -> Q (f t)) ->
  modify_first p f d = Some (k, d') ->
  all_tasks Q d -> all_tasks Q d'.
Proof.
  unfold all_tasks. intros Hf Hm H.
  apply modify_first_some in Hm as (pre & t & post & -> & -> & _ & _).
  apply Forall_app in H as [H1 H2]. inversion H2; subst.
  apply Forall_app. split; auto. constructor; simpl in *; auto.
Qed.

Lemma all_tasks_del (d : dict) k :
  all_tasks Q d -> all_tasks Q (dict_del d k).
Proof.
  unfold all_tasks. induction d as [|[k0 t0] d IH]; simpl; intros H.
  - constructor.
  - inversion H; subst. destruct (str_eqb k0 k); auto.
Qed.

Lemma all_tasks_del_all (l : list str) (d : dict) :
  all_tasks Q d -> all_tasks Q (del_all l d).
Proof.
  revert d; induction l as [|k l IH]; simpl; intros d H; auto.
  apply IH. now apply all_tasks_del.
Qed.

End AllTasks.

Lemma keys_modify (d : dict) k f : keys (dict_modify d k f) = keys d.
Proof.
  induction d as [|[k0 t0] d IH]; simpl; auto.
  destruct (str_eqb k0 k); simpl; congruence.
Qed.

Lemma keys_modify_first p f (d : dict) k d' :
  modify_first p f d = Some (k, d') -> keys d' = keys d.
Proof.
  intros H. apply modify_first_some in H as (pre & t & post & -> & -> & _).
  unfold keys. now rewrite !map_app.
Qed.

Lemma wf_dict_set (d : dict) k v : wf_dict d -> wf_dict (dict_set d k v).
Proof.
  unfold wf_dict. induction d as [|[k0 t0] d IH]; simpl; intros H.
  - constructor; [intros []|constructor].
  - inversion H as [|? ? Hk Hd]; subst.
    destruct (str_eqb k0 k) eqn:E; simpl; [now constructor|].
    constructor; auto. intros Hin. apply dict_mem_keys in Hin.
    apply dict_mem_true in Hin as [t Ht]. rewrite dict_get_set in Ht.
    destruct (str_eqb k k0) eqn:E'.
    + apply str_eqb_eq in E'. subst. rewrite str_eqb_refl in E. discriminate.
    + apply Hk. apply dict_mem_keys. apply dict_mem_true. eauto.
Qed.

Lemma keys_del_incl (d : dict) k k' : In k' (keys (dict_del d k)) -> In k' (keys d).
Proof.
  induction d as [|[k0 t0] d IH]; simpl; auto.
  destruct (str_eqb k0 k); simpl; tauto.
Qed.

Lemma wf_dict_del (d : dict) k : wf_dict d -> wf_dict (dict_del d k).
Proof.
  unfold wf_dict. induction d as [|[k0 t0] d IH]; simpl; intros H.
  - constructor.
  - inversion H as [|? ? Hk Hd]; subst. destruct (str_eqb k0 k); simpl; auto.
    constructor; auto. intros Hin. apply Hk. eapply keys_del_incl; eauto.
Qed.

Lemma wf_dict_del_all (l : list str) (d : dict) : wf_dict d -> wf_dict (del_all l d).
Proof.
  revert d; induction l as [|k l IH]; simpl; intros d H; auto.
  apply IH. now apply wf_dict_del.
Qed.

Lemma registry_ok_set (d : dict) k v :
  registry_ok d -> task_ok v -> registry_ok (dict_set d k v).
Proof. intros [H1 H2] Hv. split; [now apply wf_dict_set | now apply all_tasks_set]. Qed.

Lemma registry_ok_modify (d : dict) k f :
  (forall t, task_ok t -> task_ok (f t)) ->
  registry_ok d -> registry_ok (dict_modify d k f).
Proof.
  intros Hf [H1 H2]. split; [|now apply all_tasks_modify].
  unfold wf_dict. now rewrite keys_modify.
Qed.

Lemma registry_ok_modify_first p f (d : dict) k d' :
  (forall t, task_ok t -> task_ok (f t)) ->
  modify_first p f d = Some (k, d') ->
  registry_ok d -> registry_ok d'.
Proof.
  intros Hf Hm [H1 H2]. split; [|now apply (all_tasks_modify_first _ p f d k d')].
  unfold wf_dict. now rewrite (keys_modify_first _ _ _ _ _ Hm).
Qed.

Lemma registry_ok_del_all (l : list str) (d : dict) :
  registry_ok d -> registry_ok (del_all l d).
Proof.
  intros [H1 H2]. split; [now apply wf_dict_del_all | now apply all_tasks_del_all].
Qed.

Section Captures.
Context {RT : Runtime}.

(** A lazy repetition hands a suffix of its input to what follows. *)
Lemma star_lazy_cont c (s : str) g k r :
  star_lazy c s g k = Some r ->
  exists s', (List.length s' <= List.length s)%nat /\ k s' g = Some r.
Proof.
  induction s as [|x s IH]; simpl.
  - destruct (k [] g) eqn:E; [|discriminate].
    intros H; injection H as <-. exists []. auto.
  - destruct (k (x :: s) g) eqn:E.
    + intros H; injection H as <-. exists (x :: s). auto.
    + destruct (in_class c x); [|discriminate].
      intros H. destruct (IH H) as (s' & Hl & Hk). exists s'. split; auto.
Qed.

Lemma plus_lazy_cont c (s : str) g k r :
  plus true c s g k = Some r ->
  exists s', (List.length s' < List.length s)%nat /\ k s' g = Some r.
Proof.
  unfold plus. destruct s as [|x s]; [discriminate|].
  destruct (in_class c x); [|discriminate].
  intros H. apply star_lazy_cont in H as (s' & Hl & Hk).
  exists s'. simpl. split; [lia | assumption].
Qed.

Lemma re_search_at r (s : str) g :
  re_search r s = Some g ->
  exists t, rmatch r t [] (fun _ g => Some g) = Some g.
Proof.
  induction s as [|x s IH]; simpl.
  - destruct (rmatch r [] [] _) eqn:E; [|discriminate].
    intros H; injection H as <-. eauto.
  - destruct (rmatch r (x :: s) [] _) eqn:E.
    + intros H; injection H as <-. eauto.
    + apply IH.
Qed.

(** The name captured on a file-start line is not empty. *)
Lemma file_start_capture (message : str) g :
  re_search re_file_start message = Some g -> group 1 g <> [].
Proof.
  intros H. apply re_search_at in H as (t & H).
  unfold re_file_start in H. cbn [rmatch] in H.
  destruct (strip_prefix (u "file[") t) as [s1|]; [|discriminate].
  apply plus_lazy_cont in H as (s' & Hl & H).
  destruct (strip_prefix (u "]: Starting file download") s'); [|discriminate].
  injection H as <-. unfold group. simpl.
  destruct s1 as [|x s1]; [simpl in Hl; lia|].
  destruct (List.length (x :: s1) - List.length s')%nat eqn:E; [lia|].
  simpl. discriminate.
Qed.

End Captures.

Section Invariants.
Context {RT : Runtime}.

Lemma digits_value_nonneg (s : str) acc z :
  0 <= acc -> digits_value s acc = Ok z -> 0 <= z.
Proof.
  revert acc; induction s as [|c s IH]; simpl; intros acc Hacc H.
  - now injection H as <-.
  - destruct (decimal c) as [v|]; [|discriminate].
    apply IH in H; auto. lia.
Qed.

Lemma py_int_nonneg (s : str) z : py_int s = Ok z -> 0 <= z.
Proof.
  unfold py_int. destruct (_ && _); [discriminate|].
  destruct s; [discriminate|]. apply digits_value_nonneg. lia.
Qed.

Lemma task_ok_new tid fname st now :
  fname <> [] -> task_ok (new_task tid fname st now).
Proof.
  intros Hf. unfold task_ok; simpl. repeat split; try lia; auto.
  right. exists (PyInt 0). split; reflexivity.
Qed.

Lemma placeholder_nonempty : placeholder <> [].
Proof. discriminate. Qed.

Lemma task_ok_status st t : task_ok t -> task_ok (set_status st t).
Proof. auto. Qed.

Lemma task_ok_bound fname t :
  fname <> [] -> task_ok t -> task_ok (set_status Started (set_filename fname t)).
Proof. unfold task_ok; simpl. intros Hf (H1 & H2 & _ & H4). auto. Qed.

Lemma task_ok_completed t :
  task_ok t -> task_ok (set_progress (PyInt 100) (set_status Completed t)).
Proof. unfold task_ok; simpl. intros (H1 & H2 & H3 & _). auto. Qed.

Lemma task_ok_progress d n p t :
  0 <= d -> 0 <= n -> progress_value d n = Ok p ->
  task_ok t -> task_ok (apply_progress d n p t).
Proof.
  unfold task_ok; simpl. intros Hd Hn Hp (_ & _ & Hf & _). repeat split; eauto.
Qed.

Lemma parse_ok now hex8 message s s' :
  registry_ok (download_tasks s) ->
  parse_download_task now hex8 message s = Ok s' ->
  registry_ok (download_tasks s').
Proof.
  intros Hok. unfold parse_download_task, parse_body.
  destruct (re_search re_task message) as [g|].
  { destruct (dict_mem _ _); cbn [try_except]; intros H; injection H as <-; auto.
    cbn [download_tasks with_tasks].
    apply registry_ok_set; auto using task_ok_new, placeholder_nonempty. }
  destruct (re_search re_batch message) as [g|].
  { destruct (dict_mem _ _); cbn [try_except]; intros H; injection H as <-; auto.
    cbn [download_tasks with_tasks].
    apply registry_ok_modify; auto using task_ok_status. }
  destruct (re_search re_file_start message) as [g|] eqn:Eg.
  { apply file_start_capture in Eg.
    destruct (has_filename _ _); cbn [try_except];
      [intros H; injection H as <-; auto|].
    destruct (modify_first _ _ (download_tasks s)) as [[k d']|] eqn:Hmf;
      cbn [try_except]; intros H; injection H as <-;
      cbn [download_tasks with_tasks].
    - eapply registry_ok_modify_first; [|exact Hmf|exact Hok].
      intros t Ht. now apply task_ok_bound.
    - apply registry_ok_set; auto using task_ok_new. }
  destruct (re_search re_progress message) as [g|].
  { destruct (py_int (group 2 g)) as [d|] eqn:Ed; cbn [bind try_except];
      [|intros H; injection H as <-; auto].
    destruct (py_int (group 3 g)) as [n|] eqn:En; cbn [bind try_except];
      [|intros H; injection H as <-; auto].
    destruct (progress_value d n) as [p|] eqn:Ep; cbn [bind try_except];
      [|intros H; injection H as <-; auto].
    apply py_int_nonneg in Ed. apply py_int_nonneg in En.
    destruct (dict_mem _ _); cbn [try_except].
    - intros H; injection H as <-. cbn [download_tasks with_tasks].
      apply registry_ok_modify; auto. intros t Ht. now apply task_ok_progress.
    - destruct (modify_first _ _ (download_tasks s)) as [[k d']|] eqn:Hmf;
        cbn [try_except]; intros H; injection H as <-; auto.
      cbn [download_tasks with_tasks].
      eapply registry_ok_modify_first; [|exact Hmf|exact Hok].
      intros t Ht. now apply task_ok_progress. }
  destruct (_ || _ || _).
  { destruct (re_search re_complete message) as [g|];
      [|intros H; injection H as <-; auto].
    destruct (modify_first _ _ (download_tasks s)) as [[k d']|] eqn:Hmf;
      cbn [try_except]; intros H; injection H as <-; auto.
    cbn [download_tasks].
    eapply registry_ok_modify_first; [|exact Hmf|exact Hok].
    intros t Ht. now apply task_ok_completed. }
  destruct (any_keyword _ message); [|intros H; injection H as <-; auto].
  destruct (re_search re_error message) as [g|];
    [|intros H; injection H as <-; auto].
  destruct (modify_first _ _ (download_tasks s)) as [[k d']|] eqn:Hmf;
    cbn [try_except]; intros H; injection H as <-; auto.
  cbn [download_tasks].
  eapply registry_ok_modify_first; [|exact Hmf|exact Hok].
  intros t Ht. now apply task_ok_status.
Qed.

End Invariants.


Section Reachable.
Context {RT : Runtime}.

Lemma step_ok s s' :
  registry_ok (download_tasks s) -> step s s' -> registry_ok (download_tasks s').
Proof.
  intros Hok Hstep.
  destruct Hstep as [now hex8 message s s' H|s pre tid post H|s|r s].
  - eapply parse_ok; eauto.
  - unfold remove_finished_task. cbn [download_tasks].
    destruct (dict_mem tid (download_tasks s)); cbn [download_tasks with_tasks]; auto.
    destruct Hok. split; [now apply wf_dict_del | now apply all_tasks_del].
  - unfold clear_finished_tasks. cbn [download_tasks with_tasks].
    now apply registry_ok_del_all.
  - unfold clear_tasks.
    destruct (clear_type_of r); cbn [fst download_tasks with_tasks]; auto.
    now apply registry_ok_del_all.
Qed.

Lemma reachable_ok s : reachable s -> registry_ok (download_tasks s).
Proof.
  induction 1 as [|s s' _ IH Hstep].
  - split; constructor.
  - eapply step_ok; eauto.
Qed.

(** In a reachable state no filename is empty, so a task holds the
    placeholder exactly when its filename is the sentinel. *)
Lemma placeholder_is_sentinel s k t :
  reachable s ->
  In (k, t) (download_tasks s) ->
  is_placeholder t = str_eqb (filename t) placeholder.
Proof.
  intros Hr Hin. apply reachable_ok in Hr as [_ Hok].
  unfold all_tasks in Hok. rewrite Forall_forall in Hok.
  destruct (Hok _ Hin) as (_ & _ & Hf & _). simpl in Hf.
  unfold is_placeholder. destruct (filename t); [congruence|].
  now rewrite orb_false_r.
Qed.

Lemma progress_bounds s k t :
  reachable s ->
  In (k, t) (download_tasks s) ->
  py_leb (PyInt 0) (progress t) = true
  /\ (downloaded t <= total t -> in_percent_range (progress t) = true).
Proof.
  intros Hr Hin. apply reachable_ok in Hr as [_ Hok].
  unfold all_tasks in Hok. rewrite Forall_forall in Hok.
  destruct (Hok _ Hin) as (Hd & Ht & _ & Hp). simpl in *.
  assert (H0 : py_leb (PyInt 0) (progress t) = true).
  { destruct Hp as [-> | (p & Hp & ->)]; [reflexivity|].
    now apply (progress_nonneg (downloaded t) (total t)). }
  split; auto. intros Hle. unfold in_percent_range. rewrite H0. simpl.
  destruct Hp as [-> | (p & Hp & ->)]; [reflexivity|].
  now apply (progress_at_most_100 (downloaded t) (total t)).
Qed.

(** C4, as the program has it. In every reachable state the progress of a
    task is at least [0], and it is at most [100] for every task whose
    [downloaded] does not exceed its [total].  Nothing clamps the value
    that a progress update stores when [downloaded] exceeds [total]: for
    200 of 100 it is 200.0, outside the interval; it is not always outside,
    as 1000001 of 1000000 shows, where the rounding gives 100.0. *)
Theorem progress_range s k t :
  reachable s ->
  In (k, t) (download_tasks s) ->
  py_leb (PyInt 0) (progress t) = true
  /\ (downloaded t <= total t -> in_percent_range (progress t) = true)
  /\ (progress_of 200 100 = Ok (PyFloat (S754_finite false 7036874417766400 (-45)))
      /\ in_percent_range (PyFloat (S754_finite false 7036874417766400 (-45))) = false)
  /\ (progress_of 1000001 1000000
        = Ok (PyFloat (S754_finite false 7036874417766400 (-46)))
      /\ in_percent_range (PyFloat (S754_finite false 7036874417766400 (-46))) = true).
Proof.
  intros Hr Hin. destruct (progress_bounds s k t Hr Hin) as [A B].
  split; [exact A|]. split; [exact B|].
  split; split; vm_compute; reflexivity.
Qed.

End Reachable.

(* ================================================================== *)
(** ** Runs reach reachable states *)

Section RunReachable.
Context {RT : Runtime}.

Lemma run_lines_reachable now hex8 lines s :
  reachable s -> reachable (run_lines now hex8 lines s).
Proof.
  revert s; induction lines as [|l lines IH]; simpl; intros s H; auto.
  apply IH. unfold apply_line.
  destruct (parse_download_task now hex8 l s) as [s'|] eqn:E; auto.
  eapply reach_step; eauto. eapply step_line; eauto.
Qed.

End RunReachable.

Lemma run_reachable lines : reachable (RT := ascii_runtime) (run lines).
Proof. apply run_lines_reachable. constructor. Qed.

(** Splits a conjunction of closed facts and computes each. *)
Ltac compute_each :=
  repeat match goal with |- _ /\ _ => split end; vm_compute; reflexivity.


(* ================================================================== *)
(** ** Where the program departs from the specification *)

(** The two-task scenario of section 8: two queued tasks, then 'x.mp4' and
    'y.mp4' start; the first goes to the task discovered first, the second to the
    other, and no task is synthesized. *)
Example fifo_binding :
  map (fun e => (fst e, filename (snd e), status (snd e)))
    (download_tasks
       (run [u "Processing task: T1"; u "Processing task: T2";
             u "file[x.mp4]: Starting file download";
             u "file[y.mp4]: Starting file download"]))
  = [(u "T1", u "x.mp4", Started); (u "T2", u "y.mp4", Started)].
Proof. vm_compute. reflexivity. Qed.



(** C4 fails: a progress update with downloaded above total stores a
    progress above 100 (here 200.0). *)
Lemma progress_above_100 :
  reachable (RT := ascii_runtime) overshoot
  /\ task_of overshoot (u "T1")
     = Some {| task_id := u "T1"; filename := placeholder; downloaded := 200;
               total := 100;
               progress := PyFloat (S754_finite false 7036874417766400 (-45));
               status := Downloading; start_time := clock |}
  /\ in_percent_range (PyFloat (S754_finite false 7036874417766400 (-45))) = false.
Proof. split; [apply run_reachable | compute_each]. Qed.

(** C5 fails: the identifier of [huge_line] is the id of a task of the
    registry, yet the line changes nothing: [downloaded / total] raises
    OverflowError, which the handler swallows. *)
Lemma progress_update_dropped_on_overflow :
  classify (RT := ascii_runtime) huge_line = ProgressUpdate (u "T1") huge_number (u "1")
  /\ dict_mem (u "T1") (download_tasks queued_T1) = true
  /\ read_progress (RT := ascii_runtime) huge_number (u "1") = Raise OverflowError
  /\ parse_download_task (RT := ascii_runtime) clock hex huge_line queued_T1
     = Ok queued_T1
  /\ status_of queued_T1 (u "T1") = Some Queued.
Proof. compute_each. Qed.

(** C8: the line names the file of a task and carries the keyword in upper
    case. It passes the case-insensitive test of the completed branch, then
    fails the case-sensitive pattern of that branch, and the task stays
    Downloading; in lower case the same line completes the task, and the
    failure branch, which tests the keywords on the lowered line only,
    takes 'FAILED' in upper case. *)
Lemma uppercase_completed_ignored :
  status_of downloading_T1 (u "T1") = Some Downloading
  /\ classify (RT := ascii_runtime) (u "file[a.mp4]: COMPLETED") = CompletionLine None
  /\ parse_download_task (RT := ascii_runtime) clock hex
       (u "file[a.mp4]: COMPLETED") downloading_T1 = Ok downloading_T1
  /\ parse_download_task (RT := ascii_runtime) clock hex
       (u "file[a.mp4]: Downloaded Successfully") downloading_T1 = Ok downloading_T1
  /\ status_of (apply_line (RT := ascii_runtime) clock hex downloading_T1
                  (u "file[a.mp4]: completed")) (u "T1") = Some Completed
  /\ status_of (apply_line (RT := ascii_runtime) clock hex downloading_T1
                  (u "file[a.mp4]: download FAILED")) (u "T1") = Some Failed.
Proof. compute_each. Qed.

(* ================================================================== *)
(** ** The theorems at concrete inputs *)

(** A known id: the discovery line of T1 on a registry that has T1. *)
Lemma discovery_idempotent_witness :
  classify (RT := ascii_runtime) (u "Processing task: T1") = TaskDiscovered (u "T1")
  /\ parse_download_task (RT := ascii_runtime) clock hex (u "Processing task: T1") queued_T1
     = Ok queued_T1.
Proof.
  split; [vm_compute; reflexivity|].
  apply (proj1 (discovery_idempotent (RT := ascii_runtime) clock hex
                  (u "Processing task: T1") (u "T1") queued_T1
                  ltac:(vm_compute; reflexivity))).
  vm_compute; reflexivity.
Defined.

(** Two queued tasks: the name goes to T1, the first that waits. *)
Lemma file_start_binding_witness :
  classify (RT := ascii_runtime) (u "file[x.mp4]: Starting file download")
    = FileDownloadStarted (u "x.mp4")
  /\ parse_download_task (RT := ascii_runtime) clock hex
       (u "file[x.mp4]: Starting file download") two_queued
     = Ok {| download_tasks :=
               [(u "T1", {| task_id := u "T1"; filename := u "x.mp4";
                            downloaded := 0; total := 0; progress := PyInt 0;
                            status := Started; start_time := clock |});
                (u "T2", {| task_id := u "T2"; filename := placeholder;
                            downloaded := 0; total := 0; progress := PyInt 0;
                            status := Queued; start_time := clock |})];
             timers := [] |}.
Proof.
  split; [vm_compute; reflexivity|].
  apply (proj1 (proj2 (file_start_binding (RT := ascii_runtime) clock hex
                         (u "file[x.mp4]: Starting file download") (u "x.mp4")
                         two_queued ltac:(vm_compute; reflexivity)))
           ltac:(vm_compute; reflexivity)
           [] (u "T1") (new_task (u "T1") placeholder Queued clock)
           [(u "T2", new_task (u "T2") placeholder Queued clock)]).
  - vm_compute; reflexivity.
  - intros e [].
  - vm_compute; reflexivity.
Defined.

(** An unrecognised line leaves the registry as it was. *)
Lemma parse_total_witness :
  no_target (RT := ascii_runtime) (u "server started") (download_tasks queued_T1) = true
  /\ parse_download_task (RT := ascii_runtime) clock hex (u "server started") queued_T1
     = Ok queued_T1.
Proof.
  split; [vm_compute; reflexivity|].
  apply (proj1 (proj2 (parse_total (RT := ascii_runtime) clock hex
                         (u "server started") queued_T1))).
  vm_compute; reflexivity.
Defined.

(** A progress update resolved by id. *)
Lemma progress_update_resolution_witness :
  classify (RT := ascii_runtime) (u "Progress update: T1, 50/100")
    = ProgressUpdate (u "T1") (u "50") (u "100")
  /\ parse_download_task (RT := ascii_runtime) clock hex
       (u "Progress update: T1, 50/100") queued_T1
     = Ok {| download_tasks :=
               [(u "T1", {| task_id := u "T1"; filename := placeholder;
                            downloaded := 50; total := 100;
                            progress := PyFloat (S754_finite false 7036874417766400 (-47));
                            status := Downloading; start_time := clock |})];
             timers := [] |}.
Proof.
  split; [vm_compute; reflexivity|].
  pose proof (progress_update_resolution (RT := ascii_runtime) clock hex
                (u "Progress update: T1, 50/100") (u "T1") (u "50") (u "100")
                queued_T1 ltac:(vm_compute; reflexivity)) as P.
  assert (E : read_progress (RT := ascii_runtime) (u "50") (u "100")
              = Ok (50, 100, PyFloat (S754_finite false 7036874417766400 (-47))))
    by (vm_compute; reflexivity).
  rewrite E in P. destruct P as (P & _ & _).
  apply (P [] (new_task (u "T1") placeholder Queued clock) []).
  - vm_compute; reflexivity.
  - intros e [].
Defined.

(** Clearing the finished tasks of a registry with one of each kind. *)
Lemma clear_semantics_witness :
  wf_dict (download_tasks mixed)
  /\ clear_tasks (JsonBody (Some (TypeStr (u "completed")))) mixed
     = (with_tasks mixed (filter unfinished (download_tasks mixed)),
        Cleared (List.length (filter finished (download_tasks mixed)))).
Proof.
  assert (Hwf : wf_dict (download_tasks mixed)).
  { vm_compute. constructor; [|constructor; [intros []|constructor]].
    intros [H|[]]. discriminate H. }
  split; [exact Hwf|].
  exact (proj1 (proj2 (clear_semantics mixed Hwf))).
Defined.

(** 50 of 100 downloaded: progress 50.0. *)
Lemma progress_range_witness :
  py_leb (PyInt 0) (PyFloat (S754_finite false 7036874417766400 (-47))) = true
  /\ in_percent_range (PyFloat (S754_finite false 7036874417766400 (-47))) = true.
Proof.
  destruct (progress_range (RT := ascii_runtime) downloading_T1 (u "T1")
              {| task_id := u "T1"; filename := u "a.mp4"; downloaded := 50;
                 total := 100;
                 progress := PyFloat (S754_finite false 7036874417766400 (-47));
                 status := Downloading; start_time := clock |}
              (run_reachable _)
              ltac:(vm_compute; left; reflexivity)) as (H1 & H2 & _).
  split; [exact H1 | apply H2; discriminate].
Defined.

(* ================================================================== *)
(** ** Removal of one task, and the replies over HTTP *)

Lemma with_tasks_same s : with_tasks s (download_tasks s) = s.
Proof. now destruct s. Qed.

Lemma dict_del_absent (d : dict) k : dict_mem k d = false -> dict_del d k = d.
Proof.
  unfold dict_mem. induction d as [|[k0 t0] d IH]; simpl; intros H; auto.
  destruct (str_eqb k0 k); [discriminate|]. now rewrite IH.
Qed.

(** On distinct keys, [del d[k]] keeps every entry under another key, in order. *)
Lemma dict_del_filter (d : dict) k :
  wf_dict d -> dict_del d k = filter (fun e => negb (str_eqb (fst e) k)) d.
Proof.
  unfold wf_dict. induction d as [|[k0 t0] d IH]; simpl; intros H; auto.
  inversion H as [|? ? Hk Hd]; subst.
  destruct (str_eqb k0 k) eqn:E; simpl.
  - apply str_eqb_eq in E. subst k0. symmetry. apply filter_all.
    intros [k1 t1] Hin. simpl. apply negb_true_iff. apply str_eqb_neq.
    intros ->. apply Hk. now apply (in_map fst) in Hin.
  - now rewrite IH.
Qed.

Lemma dict_get_filter_key (d : dict) k k' :
  dict_get (filter (fun e => negb (str_eqb (fst e) k)) d) k' =
  if str_eqb k k' then None else dict_get d k'.
Proof.
  induction d as [|[k0 t0] d IH]; simpl.
  - now destruct (str_eqb k k').
  - destruct (str_eqb k0 k) eqn:E; simpl.
    + apply str_eqb_eq in E. subst k0. rewrite IH. now destruct (str_eqb k k').
    + rewrite IH. destruct (str_eqb k0 k') eqn:E'; auto.
      apply str_eqb_eq in E'. subst k0.
      destruct (str_eqb k k') eqn:E2; auto.
      apply str_eqb_eq in E2. subst k'. rewrite str_eqb_refl in E. discriminate.
Qed.

Lemma dict_del_split (pre post : dict) k t :
  (forall e, In e pre -> fst e <> k) ->
  dict_del (pre ++ (k, t) :: post) k = pre ++ post.
Proof.
  induction pre as [|[k0 t0] pre IH]; intros Hpre; simpl.
  - now rewrite str_eqb_refl.
  - assert (str_eqb k0 k = false) as ->
        by (apply str_eqb_neq; apply (Hpre (k0, t0)); now left).
    rewrite IH; auto. intros e He. apply Hpre. now right.
Qed.

(** X1. [remove_finished_task] on a registry (distinct keys): the entry
    under the id is deleted whatever its status is, every other entry stays
    with its fields and in its place, the pending timers are not touched,
    and a second call changes nothing; on an id that the registry does not
    have, the call changes nothing. *)
Theorem remove_finished_task_effect tid s :
  wf_dict (download_tasks s) ->
  download_tasks (remove_finished_task tid s)
    = filter (fun e => negb (str_eqb (fst e) tid)) (download_tasks s)
  /\ dict_get (download_tasks (remove_finished_task tid s)) tid = None
  /\ (forall k, k <> tid ->
        dict_get (download_tasks (remove_finished_task tid s)) k
        = dict_get (download_tasks s) k)
  /\ timers (remove_finished_task tid s) = timers s
  /\ remove_finished_task tid (remove_finished_task tid s)
     = remove_finished_task tid s
  /\ (dict_mem tid (download_tasks s) = false -> remove_finished_task tid s = s).
Proof.
  intros Hwf.
  assert (E : download_tasks (remove_finished_task tid s)
              = filter (fun e => negb (str_eqb (fst e) tid)) (download_tasks s)).
  { unfold remove_finished_task.
    destruct (dict_mem tid (download_tasks s)) eqn:Hm; cbn [download_tasks with_tasks].
    - now apply dict_del_filter.
    - rewrite <- dict_del_filter by assumption. symmetry. now apply dict_del_absent. }
  assert (G : dict_get (download_tasks (remove_finished_task tid s)) tid = None).
  { rewrite E, dict_get_filter_key. now rewrite str_eqb_refl. }
  split; [exact E|]. split; [exact G|]. split.
  { intros k Hk. rewrite E, dict_get_filter_key.
    assert (str_eqb tid k = false) as -> by (apply str_eqb_neq; congruence).
    reflexivity. }
  split.
  { unfold remove_finished_task. now destruct (dict_mem tid (download_tasks s)). }
  split.
  { unfold remove_finished_task at 1. unfold dict_mem. now rewrite G. }
  intros Hm. unfold remove_finished_task. now rewrite Hm.
Qed.

(** X2. [clear_tasks] with a "type" that is neither 'completed' nor 'all'
    (another string, or a JSON value that is no string, such as null)
    removes nothing and answers [{"success": true, "cleared": 0}]; a body
    that cannot be read as a JSON object gives the error answer and leaves
    the registry as it was. *)
Theorem clear_tasks_unknown_type ty s :
  type_is ty (u "completed") = false ->
  type_is ty (u "all") = false ->
  clear_tasks (JsonBody (Some ty)) s = (s, Cleared 0)
  /\ clear_tasks BadBody s = (s, ClearError).
Proof.
  intros H1 H2. split; [|reflexivity].
  unfold clear_tasks. cbn [clear_type_of]. rewrite H1, H2. cbn [andb].
  rewrite (filter_none (fun _ => false)) by reflexivity.
  cbn [map del_all fold_left List.length]. now rewrite with_tasks_same.
Qed.

(** X3. The number that [clear_tasks] reports is the drop of the count that
    [send_tasks] reports: on a registry (distinct keys) and for every
    request, the count before the call is the reported number plus the
    count after it, and every task listed after the call was listed before
    it; with the error answer the registry is unchanged. *)
Theorem clear_tasks_conservation r s :
  wf_dict (download_tasks s) ->
  match snd (clear_tasks r s) with
  | Cleared n =>
      reply_count (send_tasks s)
        = (n + reply_count (send_tasks (fst (clear_tasks r s))))%nat
      /\ incl (reply_tasks (send_tasks (fst (clear_tasks r s))))
              (reply_tasks (send_tasks s))
  | ClearError => fst (clear_tasks r s) = s
  end.
Proof.
  intros Hwf. unfold clear_tasks.
  destruct (clear_type_of r) as [ty|]; cbn [fst snd]; [|reflexivity].
  rewrite del_all_filter by assumption.
  unfold send_tasks. cbn [reply_count reply_tasks download_tasks with_tasks].
  rewrite !length_map. split.
  - symmetry. apply filter_length.
  - intros t Hin. apply in_map_iff in Hin as (e & <- & He).
    apply filter_In in He as [He _]. now apply in_map.
Qed.

Lemma active_count_length (d : dict) :
  active_count d = List.length (filter (fun e => is_active (status (snd e))) d).
Proof.
  unfold active_count.
  induction (filter (fun e => is_active (status (snd e))) d) as [|e l IH]; simpl; auto.
Qed.

Lemma is_active_not_terminal (st : task_status) : is_active st = negb (is_terminal st).
Proof. now destruct st. Qed.

(** X4. The counter of active tasks in the label of the task table and the
    clearing of finished tasks divide the registry: every status that the
    program stores is counted as active or removed by "clear finished",
    never both.  So active and finished tasks add up to the size of the
    registry, and after [clear_finished_tasks] (distinct keys) the number of
    tasks is the number of active tasks, which the call has not changed. *)
Theorem active_count_partition s :
  (active_count (download_tasks s)
   + List.length (filter finished (download_tasks s))
   = List.length (download_tasks s))%nat
  /\ (wf_dict (download_tasks s) ->
      active_count (download_tasks (clear_finished_tasks s))
        = active_count (download_tasks s)
      /\ List.length (download_tasks (clear_finished_tasks s))
        = active_count (download_tasks s)).
Proof.
  assert (E : filter (fun e : str * task => is_active (status (snd e))) (download_tasks s)
              = filter unfinished (download_tasks s)).
  { apply filter_ext. intros e. apply is_active_not_terminal. }
  split.
  - rewrite active_count_length, E, Nat.add_comm. apply filter_length.
  - intros Hwf. unfold clear_finished_tasks. cbn [download_tasks with_tasks].
    change (fun e : str * task => is_terminal (status (snd e))) with finished.
    rewrite del_all_filter by assumption.
    change (fun e : str * task => negb (finished e)) with unfinished.
    rewrite !active_count_length, E. split; [|reflexivity].
    f_equal. apply filter_all. intros e He. apply filter_In in He as [_ He].
    unfold unfinished, finished in He. rewrite is_active_not_terminal. exact He.
Qed.

(* ================================================================== *)
(** ** Every line has one of the effects of [line_effect] *)

Section Effect.
Context {RT : Runtime}.

Lemma classify_task message g :
  re_search re_task message = Some g -> classify message = TaskDiscovered (group 1 g).
Proof. intros H. unfold classify. now rewrite H. Qed.

Lemma classify_batch message g :
  re_search re_task message = None ->
  re_search re_batch message = Some g ->
  classify message = BatchInitialized (group 1 g).
Proof. intros H1 H2. unfold classify. now rewrite H1, H2. Qed.

Lemma classify_file_start message g :
  re_search re_task message = None ->
  re_search re_batch message = None ->
  re_search re_file_start message = Some g ->
  classify message = FileDownloadStarted (group 1 g).
Proof. intros H1 H2 H3. unfold classify. now rewrite H1, H2, H3. Qed.

Lemma classify_progress message g :
  re_search re_task message = None ->
  re_search re_batch message = None ->
  re_search re_file_start message = None ->
  re_search re_progress message = Some g ->
  classify message = ProgressUpdate (strip (group 1 g)) (group 2 g) (group 3 g).
Proof. intros H1 H2 H3 H4. unfold classify. now rewrite H1, H2, H3, H4. Qed.

Lemma parse_effect now hex8 message s s' :
  parse_download_task now hex8 message s = Ok s' ->
  line_effect now hex8 message s s'.
Proof.
  unfold parse_download_task, parse_body.
  destruct (re_search re_task message) as [g|] eqn:E1.
  { pose proof (classify_task _ _ E1) as Hc.
    destruct (dict_mem _ _) eqn:Hm; cbn [try_except]; intros H; injection H as <-.
    - constructor.
    - rewrite dict_set_fresh by assumption. now apply effect_discovered. }
  destruct (re_search re_batch message) as [g|] eqn:E2.
  { pose proof (classify_batch _ _ E1 E2) as Hc.
    destruct (dict_mem _ _) eqn:Hm; cbn [try_except]; intros H; injection H as <-.
    - apply dict_mem_true in Hm as [t Ht].
      apply dict_get_split in Ht as (pre & post & Hd & Hpre).
      rewrite Hd at 1. rewrite dict_modify_split by assumption.
      now apply effect_initialized.
    - constructor. }
  destruct (re_search re_file_start message) as [g|] eqn:E3.
  { pose proof (classify_file_start _ _ E1 E2 E3) as Hc.
    destruct (has_filename _ _) eqn:Hf; cbn [try_except];
      [intros H; injection H as <-; constructor|].
    destruct (modify_first _ _ (download_tasks s)) as [[k d']|] eqn:Hmf;
      cbn [try_except]; intros H; injection H as <-.
    - apply modify_first_some in Hmf as (pre & t & post & Hd & -> & Ht & _).
      now apply effect_bound.
    - apply modify_first_none in Hmf.
      change (97 :: 117 :: 116 :: 111 :: 95 :: hex8)%N with (u "auto_" ++ hex8).
      now apply effect_synthesized. }
  destruct (re_search re_progress message) as [g|] eqn:E4.
  { pose proof (classify_progress _ _ E1 E2 E3 E4) as Hc.
    destruct (py_int (group 2 g)) as [d|] eqn:Ed; cbn [bind try_except];
      [|intros H; injection H as <-; constructor].
    destruct (py_int (group 3 g)) as [n|] eqn:En; cbn [bind try_except];
      [|intros H; injection H as <-; constructor].
    destruct (progress_value d n) as [p|] eqn:Ep; cbn [bind try_except];
      [|intros H; injection H as <-; constructor].
    assert (Hr : read_progress (group 2 g) (group 3 g) = Ok (d, n, p)).
    { unfold read_progress. rewrite Ed, En. cbn [bind]. now rewrite Ep. }
    destruct (dict_mem _ _) eqn:Hm; cbn [try_except].
    - intros H; injection H as <-.
      apply dict_mem_true in Hm as [t Ht].
      apply dict_get_split in Ht as (pre & post & Hd & Hpre).
      rewrite Hd at 1. rewrite dict_modify_split by assumption.
      eapply effect_progress; eauto.
    - destruct (modify_first _ _ (download_tasks s)) as [[k d']|] eqn:Hmf;
        cbn [try_except]; intros H; injection H as <-; [|constructor].
      apply modify_first_some in Hmf as (pre & t & post & Hd & -> & Ht & _).
      apply str_eqb_eq in Ht. eapply effect_progress; eauto. }
  assert (Hc : classify message =
               if contains (u "downloaded successfully") message
                  || contains (u "upload completed") message
                  || contains (u "completed") (lower message)
               then CompletionLine (option_map (group 1) (re_search re_complete message))
               else if any_keyword [u "failed"; u "error"; u "canceled"; u "cancelled"] message
               then FailureLine
                      (any_keyword [u "canceled"; u "cancelled"; u "context canceled"] message)
                      (option_map (group 1) (re_search re_error message))
               else Unrecognized).
  { unfold classify. now rewrite E1, E2, E3, E4. }
  destruct (_ || _ || _).
  { destruct (re_search re_complete message) as [g|];
      [|intros H; injection H as <-; constructor].
    cbn [option_map] in Hc.
    destruct (modify_first _ _ (download_tasks s)) as [[k d']|] eqn:Hmf;
      cbn [try_except]; intros H; injection H as <-; [|constructor].
    apply modify_first_some in Hmf as (pre & t & post & Hd & -> & Ht & _).
    apply str_eqb_eq in Ht. eapply effect_completed; eauto. }
  destruct (any_keyword _ message); [|intros H; injection H as <-; constructor].
  destruct (re_search re_error message) as [g|];
    [|intros H; injection H as <-; constructor].
  cbn [option_map] in Hc.
  destruct (modify_first _ _ (download_tasks s)) as [[k d']|] eqn:Hmf;
    cbn [try_except]; intros H; injection H as <-; [|constructor].
  apply modify_first_some in Hmf as (pre & t & post & Hd & -> & Ht & _).
  apply str_eqb_eq in Ht. eapply effect_failed; eauto.
Qed.

End Effect.

(* ================================================================== *)
(** ** What a line never does *)

Lemma keys_set (d : dict) k v :
  keys (dict_set d k v) = if dict_mem k d then keys d else keys d ++ [k].
Proof.
  unfold dict_mem. induction d as [|[k0 t0] d IH]; simpl; auto.
  destruct (str_eqb k0 k); simpl; auto.
  rewrite IH. now destruct (dict_get d k).
Qed.

Lemma keys_update (pre post : dict) k t t' :
  keys (pre ++ (k, t') :: post) = keys (pre ++ (k, t) :: post).
Proof. unfold keys. now rewrite !map_app. Qed.

(** Replacing the task of one entry changes the lookup of its key at most. *)
Lemma dict_get_update (pre post : dict) k t t' tid t0 :
  dict_get (pre ++ (k, t) :: post) tid = Some t0 ->
  dict_get (pre ++ (k, t') :: post) tid = Some t0
  \/ (tid = k /\ t0 = t /\ dict_get (pre ++ (k, t') :: post) tid = Some t').
Proof.
  induction pre as [|[k0 t1] pre IH]; simpl.
  - destruct (str_eqb k tid) eqn:E; auto.
    apply str_eqb_eq in E. intros H; injection H as <-. auto.
  - destruct (str_eqb k0 tid); auto.
Qed.

Lemma in_update (pre post : dict) k t t' e :
  In e (pre ++ (k, t') :: post) -> In e (pre ++ (k, t) :: post) \/ e = (k, t').
Proof.
  intros H. apply in_app_or in H as [H|[H|H]]; auto.
  - left. apply in_or_app. now left.
  - left. apply in_or_app. right. now right.
Qed.

Section Frame.
Context {RT : Runtime}.

(** X5. A line never removes a task and never renames one: after any line
    the keys of the registry are the keys before it, in their order, or
    those keys followed by one new key -- the id of a task-discovery line,
    or the generated id of a file-start line. *)
Theorem line_keeps_keys now hex8 message s s' :
  parse_download_task now hex8 message s = Ok s' ->
  keys (download_tasks s') = keys (download_tasks s)
  \/ exists id,
       dict_mem id (download_tasks s) = false
       /\ keys (download_tasks s') = keys (download_tasks s) ++ [id]
       /\ (classify message = TaskDiscovered id
           \/ (id = u "auto_" ++ hex8
               /\ exists fname, classify message = FileDownloadStarted fname)).
Proof.
  intros H. apply parse_effect in H.
  destruct H as [ | id Hc Hm | id pre t post Hc Hd | fname pre k t post Hc Hf Hd Ht
                | fname Hc Hf Hp | identifier dl tot d n p pre k t post Hc Hr Hd Hk
                | fname pre k t post Hc Hd Hf | c fname pre k t post Hc Hd Hf ];
    cbn [download_tasks with_tasks];
    try (left; rewrite Hd; apply keys_update); auto.
  - right. exists id. unfold keys. rewrite map_app. auto.
  - rewrite keys_set. destruct (dict_mem _ _) eqn:Hm; auto.
    right. exists (u "auto_" ++ hex8). eauto 6.
Qed.

(** X6. A removal timer is scheduled exactly with a terminal status: after
    any line, either the pending timers are those before it, and then every
    entry of the registry is an entry that was there or has a status that
    is not terminal; or one timer was added at the end, for a key whose
    task now has a terminal status (Completed on a completion line,
    Cancelled or Failed on a failure line). *)
Theorem timer_with_terminal_status now hex8 message s s' :
  parse_download_task now hex8 message s = Ok s' ->
  (timers s' = timers s
   /\ forall k t, In (k, t) (download_tasks s') ->
        In (k, t) (download_tasks s) \/ is_terminal (status t) = false)
  \/ exists k t,
       timers s' = timers s ++ [k]
       /\ In (k, t) (download_tasks s')
       /\ (exists fname,
             filename t = fname
             /\ ((classify message = CompletionLine (Some fname)
                  /\ status t = Completed)
                 \/ (classify message = FailureLine true (Some fname)
                     /\ status t = Cancelled)
                 \/ (classify message = FailureLine false (Some fname)
                     /\ status t = Failed))).
Proof.
  intros H. apply parse_effect in H.
  destruct H as [ | id Hc Hm | id pre t post Hc Hd | fname pre k t post Hc Hf Hd Ht
                | fname Hc Hf Hp | identifier dl tot d n p pre k t post Hc Hr Hd Hk
                | fname pre k t post Hc Hd Hf | c fname pre k t post Hc Hd Hf ];
    cbn [download_tasks with_tasks timers].
  - left. auto.
  - left. split; auto. intros k t Hin. apply in_app_or in Hin as [Hin|[Hin|[]]]; auto.
    injection Hin as <- <-. now right.
  - left. split; auto. intros k t' Hin. rewrite Hd.
    apply (in_update _ _ _ t) in Hin as [Hin|Hin]; auto.
    injection Hin as -> ->. now right.
  - left. split; auto. intros k' t' Hin. rewrite Hd.
    apply (in_update _ _ _ t) in Hin as [Hin|Hin]; auto.
    injection Hin as -> ->. now right.
  - left. split; auto. intros k t Hin.
    destruct (dict_mem (u "auto_" ++ hex8) (download_tasks s)) eqn:Hm.
    + apply dict_mem_true in Hm as [t0 Ht0].
      apply dict_get_split in Ht0 as (pre & post & Hd & Hpre).
      rewrite Hd, dict_set_split in Hin by assumption. rewrite Hd.
      apply (in_update _ _ _ t0) in Hin as [Hin|Hin]; auto.
      injection Hin as -> ->. now right.
    + rewrite dict_set_fresh in Hin by assumption.
      apply in_app_or in Hin as [Hin|[Hin|[]]]; auto.
      injection Hin as <- <-. now right.
  - left. split; auto. intros k' t' Hin. rewrite Hd.
    apply (in_update _ _ _ t) in Hin as [Hin|Hin]; auto.
    injection Hin as -> ->. now right.
  - right. exists k, (set_progress (PyInt 100) (set_status Completed t)).
    split; auto. split; [apply in_or_app; right; now left|].
    exists fname. split; auto.
  - right. exists k, (set_status (if c then Cancelled else Failed) t).
    split; auto. split; [apply in_or_app; right; now left|].
    exists fname. split; auto. right. destruct c; auto.
Qed.

(** X7. What a line leaves alone.  A task that is in the registry under an
    id other than the generated one is still there after any line, with the
    [task_id] and the [start_time] it had; its [filename] changes only when
    it held the placeholder and the line is the file-start line of the new
    name; its [downloaded] and [total] change only on a progress line; its
    [progress] changes only on a progress line, or becomes 100 on a
    completion line that names its file. *)
Theorem line_frame now hex8 message s s' tid t :
  parse_download_task now hex8 message s = Ok s' ->
  dict_get (download_tasks s) tid = Some t ->
  tid <> u "auto_" ++ hex8 ->
  exists t',
    dict_get (download_tasks s') tid = Some t'
    /\ task_id t' = task_id t
    /\ start_time t' = start_time t
    /\ (filename t' = filename t
        \/ (is_placeholder t = true
            /\ classify message = FileDownloadStarted (filename t')))
    /\ ((downloaded t' = downloaded t /\ total t' = total t)
        \/ exists identifier dl tot,
             classify message = ProgressUpdate identifier dl tot)
    /\ (progress t' = progress t
        \/ (exists identifier dl tot,
              classify message = ProgressUpdate identifier dl tot)
        \/ (progress t' = PyInt 100
            /\ classify message = CompletionLine (Some (filename t)))).
Proof.
  intros H Hg Hne. apply parse_effect in H.
  destruct H as [ | id Hc Hm | id pre t0 post Hc Hd | fname pre k t0 post Hc Hf Hd Ht
                | fname Hc Hf Hp | identifier dl tot d n p pre k t0 post Hc Hr Hd Hk
                | fname pre k t0 post Hc Hd Hf | c fname pre k t0 post Hc Hd Hf ];
    cbn [download_tasks with_tasks].
  - exists t. repeat split; auto.
  - exists t. split; [|repeat split; auto].
    rewrite <- dict_set_fresh by assumption. rewrite dict_get_set.
    destruct (str_eqb id tid) eqn:E; auto.
    apply str_eqb_eq in E. subst id. unfold dict_mem in Hm. now rewrite Hg in Hm.
  - rewrite Hd in Hg.
    apply (dict_get_update _ _ _ _ (set_status Initializing t0)) in Hg
      as [Hg|(-> & -> & Hg)]; eexists; (split; [exact Hg|]); repeat split; auto.
  - rewrite Hd in Hg.
    apply (dict_get_update _ _ _ _ (set_status Started (set_filename fname t0))) in Hg
      as [Hg|(-> & -> & Hg)]; eexists; (split; [exact Hg|]); repeat split; auto.
  - exists t. split; [|repeat split; auto].
    rewrite dict_get_set.
    destruct (str_eqb (u "auto_" ++ hex8) tid) eqn:E; auto.
    apply str_eqb_eq in E. congruence.
  - rewrite Hd in Hg.
    apply (dict_get_update _ _ _ _ (apply_progress d n p t0)) in Hg
      as [Hg|(-> & -> & Hg)]; eexists; (split; [exact Hg|]); repeat split; eauto 6.
  - rewrite Hd in Hg.
    apply (dict_get_update _ _ _ _ (set_progress (PyInt 100) (set_status Completed t0)))
      in Hg as [Hg|(-> & -> & Hg)]; eexists; (split; [exact Hg|]); repeat split; auto.
    right. right. split; auto. now rewrite Hf.
  - rewrite Hd in Hg.
    apply (dict_get_update _ _ _ _ (set_status (if c then Cancelled else Failed) t0))
      in Hg as [Hg|(-> & -> & Hg)]; eexists; (split; [exact Hg|]); repeat split; auto.
Qed.

End Frame.

(* ================================================================== *)
(** ** Ids and filenames in the reachable states *)

Lemma in_del (d : dict) k e : In e (dict_del d k) -> In e d.
Proof.
  induction d as [|[k0 t0] d IH]; simpl; auto.
  destruct (str_eqb k0 k); simpl; tauto.
Qed.

Lemma in_del_all (l : list str) (d : dict) e : In e (del_all l d) -> In e d.
Proof.
  revert d; induction l as [|k l IH]; simpl; intros d H; auto.
  apply IH in H. now apply in_del in H.
Qed.

Lemma in_set (d : dict) k v e : In e (dict_set d k v) -> In e d \/ e = (k, v).
Proof.
  induction d as [|[k0 t0] d IH]; simpl.
  - intros [H|[]]; auto.
  - destruct (str_eqb k0 k) eqn:E; simpl.
    + apply str_eqb_eq in E. subst k0. intros [H|H]; auto.
    + intros [H|H]; auto. apply IH in H. tauto.
Qed.

Lemma keyed_update (pre post : dict) k t t' :
  task_id t' = task_id t ->
  keyed (pre ++ (k, t) :: post) -> keyed (pre ++ (k, t') :: post).
Proof.
  unfold keyed. intros E H. apply Forall_app in H as [H1 H2].
  inversion H2; subst. apply Forall_app. split; auto.
  constructor; auto. simpl in *. congruence.
Qed.

Lemma bound_names_app (d1 d2 : dict) :
  bound_names (d1 ++ d2) = bound_names d1 ++ bound_names d2.
Proof. unfold bound_names. now rewrite filter_app, map_app. Qed.

Lemma bound_names_cons k t (d : dict) :
  bound_names ((k, t) :: d) =
  if is_placeholder t then bound_names d else filename t :: bound_names d.
Proof. unfold bound_names. simpl. now destruct (is_placeholder t). Qed.

Lemma bound_names_update (pre post : dict) k t t' :
  filename t' = filename t ->
  bound_names (pre ++ (k, t') :: post) = bound_names (pre ++ (k, t) :: post).
Proof.
  intros E. rewrite !bound_names_app, !bound_names_cons.
  unfold is_placeholder. now rewrite E.
Qed.

Lemma bound_names_in (d : dict) f :
  In f (bound_names d) -> has_filename f d = true.
Proof.
  unfold bound_names, has_filename. intros H.
  apply in_map_iff in H as (e & <- & He). apply filter_In in He as [He _].
  apply existsb_exists. exists e. split; auto. apply str_eqb_refl.
Qed.

Lemma bound_names_del_incl (d : dict) k f :
  In f (bound_names (dict_del d k)) -> In f (bound_names d).
Proof.
  unfold bound_names. intros H. apply in_map_iff in H as (e & <- & He).
  apply filter_In in He as [He Hp]. apply in_del in He.
  apply in_map_iff. exists e. split; auto. apply filter_In. auto.
Qed.

Lemma bound_names_del (d : dict) k :
  NoDup (bound_names d) -> NoDup (bound_names (dict_del d k)).
Proof.
  induction d as [|[k0 t0] d IH]; simpl; auto.
  rewrite bound_names_cons. intros H.
  assert (Hd : NoDup (bound_names d))
    by (destruct (is_placeholder t0); [exact H | now inversion H]).
  destruct (str_eqb k0 k); auto.
  rewrite bound_names_cons. destruct (is_placeholder t0); auto.
  inversion H as [|? ? Hn _]; subst. constructor; auto.
  intros Hin. apply Hn. eapply bound_names_del_incl; eauto.
Qed.

Lemma bound_names_del_all (l : list str) (d : dict) :
  NoDup (bound_names d) -> NoDup (bound_names (del_all l d)).
Proof.
  revert d; induction l as [|k l IH]; simpl; intros d H; auto.
  apply IH. now apply bound_names_del.
Qed.

(** An entry is replaced by one whose filename no task has. *)
Lemma bound_names_replace (pre post : dict) k t t' :
  has_filename (filename t') (pre ++ (k, t) :: post) = false ->
  NoDup (bound_names (pre ++ (k, t) :: post)) ->
  NoDup (bound_names (pre ++ (k, t') :: post)).
Proof.
  intros Hf H.
  assert (Hn : ~ In (filename t') (bound_names pre ++ bound_names post)).
  { intros Hin. apply in_app_or in Hin.
    assert (In (filename t') (bound_names (pre ++ (k, t) :: post))) as Hin'.
    { rewrite bound_names_app, bound_names_cons. apply in_or_app.
      destruct Hin as [Hin|Hin]; auto. right.
      destruct (is_placeholder t); auto. now right. }
    apply bound_names_in in Hin'. congruence. }
  assert (Hd : NoDup (bound_names pre ++ bound_names post)).
  { rewrite bound_names_app, bound_names_cons in H.
    destruct (is_placeholder t); auto. now apply NoDup_remove_1 in H. }
  rewrite bound_names_app, bound_names_cons.
  destruct (is_placeholder t'); auto.
  apply (NoDup_Add (Add_app (filename t') (bound_names pre) (bound_names post))).
  auto.
Qed.

Lemma bound_names_append (d : dict) k t :
  has_filename (filename t) d = false ->
  NoDup (bound_names d) -> NoDup (bound_names (d ++ [(k, t)])).
Proof.
  intros Hf H. rewrite bound_names_app, bound_names_cons.
  destruct (is_placeholder t); cbn [bound_names filter map].
  - now rewrite app_nil_r.
  - apply (NoDup_Add (Add_app (filename t) (bound_names d) [])).
    rewrite app_nil_r. split; auto.
    intros Hin. apply bound_names_in in Hin. congruence.
Qed.

Section Uniqueness.
Context {RT : Runtime}.

Lemma step_keyed s s' :
  keyed (download_tasks s) -> step s s' -> keyed (download_tasks s').
Proof.
  intros Hk Hstep.
  destruct Hstep as [now hex8 message s s' H|s pre tid post H|s|r s].
  - apply parse_effect in H.
    destruct H as [ | id Hc Hm | id pre t post Hc Hd | fname pre k t post Hc Hf Hd Ht
                  | fname Hc Hf Hp | identifier dl tot d n p pre k t post Hc Hr Hd Hi
                  | fname pre k t post Hc Hd Hf | c fname pre k t post Hc Hd Hf ];
      cbn [download_tasks with_tasks]; auto;
      try (rewrite Hd in Hk; revert Hk; apply keyed_update; reflexivity).
    + apply Forall_app. split; auto.
    + apply Forall_forall. intros e He. apply in_set in He as [He| ->]; auto.
      unfold keyed in Hk. rewrite Forall_forall in Hk. auto.
  - unfold remove_finished_task. cbn [download_tasks].
    destruct (dict_mem tid (download_tasks s)); cbn [download_tasks with_tasks]; auto.
    apply Forall_forall. intros e He. apply in_del in He.
    unfold keyed in Hk. rewrite Forall_forall in Hk. auto.
  - unfold clear_finished_tasks. cbn [download_tasks with_tasks].
    apply Forall_forall. intros e He. apply in_del_all in He.
    unfold keyed in Hk. rewrite Forall_forall in Hk. auto.
  - unfold clear_tasks.
    destruct (clear_type_of r); cbn [fst download_tasks with_tasks]; auto.
    apply Forall_forall. intros e He. apply in_del_all in He.
    unfold keyed in Hk. rewrite Forall_forall in Hk. auto.
Qed.

Lemma step_bound_names s s' :
  NoDup (bound_names (download_tasks s)) -> step s s' ->
  NoDup (bound_names (download_tasks s')).
Proof.
  intros Hn Hstep.
  destruct Hstep as [now hex8 message s s' H|s pre tid post H|s|r s].
  - apply parse_effect in H.
    destruct H as [ | id Hc Hm | id pre t post Hc Hd | fname pre k t post Hc Hf Hd Ht
                  | fname Hc Hf Hp | identifier dl tot d n p pre k t post Hc Hr Hd Hi
                  | fname pre k t post Hc Hd Hf | c fname pre k t post Hc Hd Hf ];
      cbn [download_tasks with_tasks]; auto;
      try (rewrite (bound_names_update pre post _ t) by reflexivity; now rewrite <- Hd).
    + rewrite bound_names_app, bound_names_cons.
      assert (is_placeholder (new_task id placeholder Queued now) = true) as ->
          by (unfold is_placeholder; cbn [filename new_task];
              now rewrite str_eqb_refl).
      cbn [bound_names filter map]. now rewrite app_nil_r.
    + rewrite Hd in Hn, Hf. revert Hn. now apply bound_names_replace.
    + destruct (dict_mem (u "auto_" ++ hex8) (download_tasks s)) eqn:Hm.
      * apply dict_mem_true in Hm as [t0 Ht0].
        apply dict_get_split in Ht0 as (pre & post & Hd & Hpre).
        rewrite Hd, dict_set_split by assumption.
        rewrite Hd in Hn, Hf. revert Hn. now apply bound_names_replace.
      * rewrite dict_set_fresh by assumption. now apply bound_names_append.
  - unfold remove_finished_task. cbn [download_tasks].
    destruct (dict_mem tid (download_tasks s)); cbn [download_tasks with_tasks]; auto.
    now apply bound_names_del.
  - unfold clear_finished_tasks. cbn [download_tasks with_tasks].
    now apply bound_names_del_all.
  - unfold clear_tasks.
    destruct (clear_type_of r); cbn [fst download_tasks with_tasks]; auto.
    now apply bound_names_del_all.
Qed.

Lemma reachable_keyed s : reachable s -> keyed (download_tasks s).
Proof.
  induction 1 as [|s s' _ IH Hstep]; [constructor | eapply step_keyed; eauto].
Qed.

Lemma reachable_bound_names s : reachable s -> NoDup (bound_names (download_tasks s)).
Proof.
  induction 1 as [|s s' _ IH Hstep]; [constructor | eapply step_bound_names; eauto].
Qed.

Lemma dict_get_in (d : dict) k t : wf_dict d -> In (k, t) d -> dict_get d k = Some t.
Proof.
  unfold wf_dict. induction d as [|[k0 t0] d IH]; simpl; intros Hwf Hin; [tauto|].
  inversion Hwf as [|? ? Hk Hd]; subst. destruct Hin as [Hin|Hin].
  - injection Hin as -> ->. now rewrite str_eqb_refl.
  - destruct (str_eqb k0 k) eqn:E; auto.
    apply str_eqb_eq in E. subst k0. exfalso. apply Hk.
    now apply (in_map fst) in Hin.
Qed.

(** X8. In every reachable state each task is stored under its own id: the
    [task_id] field of a task is the key of its entry, and looking that id
    up gives the task back.  So the list of values that [send_tasks] sends
    determines the registry. *)
Theorem stored_under_own_id s k t :
  reachable s ->
  In (k, t) (download_tasks s) ->
  task_id t = k /\ dict_get (download_tasks s) (task_id t) = Some t.
Proof.
  intros Hr Hin.
  assert (E : task_id t = k).
  { apply reachable_keyed in Hr. unfold keyed in Hr. rewrite Forall_forall in Hr.
    exact (Hr _ Hin). }
  split; auto. rewrite E. apply dict_get_in; auto.
  now apply reachable_ok in Hr as [Hwf _].
Qed.

(** X9. In every reachable state a bound filename belongs to one task: two
    different entries of the registry have the same filename only when it is
    the placeholder.  So the lookup by filename of a progress, completion
    or failure line, which takes the first task with the name, has one
    task to take. *)
Theorem bound_filename_unique s l1 k1 t1 l2 k2 t2 l3 :
  reachable s ->
  download_tasks s = l1 ++ (k1, t1) :: l2 ++ (k2, t2) :: l3 ->
  filename t1 = filename t2 ->
  filename t1 = placeholder.
Proof.
  intros Hr Hd Hf.
  assert (P : forall k t, In (k, t) (download_tasks s) ->
                is_placeholder t = str_eqb (filename t) placeholder).
  { intros k t. now apply placeholder_is_sentinel. }
  pose proof (reachable_bound_names s Hr) as Hn. rewrite Hd in Hn, P.
  rewrite bound_names_app, bound_names_cons, bound_names_app, bound_names_cons in Hn.
  destruct (is_placeholder t1) eqn:E1.
  { rewrite (P k1 t1) in E1 by (apply in_or_app; right; now left).
    now apply str_eqb_eq in E1. }
  exfalso. apply NoDup_remove_2 in Hn. apply Hn.
  apply in_or_app. right. apply in_or_app. right.
  assert (is_placeholder t2 = false) as ->.
  { unfold is_placeholder in *. now rewrite <- Hf. }
  rewrite Hf. now left.
Qed.

End Uniqueness.

(* ================================================================== *)
(** ** Terminal lines, their timers, and the replay of a line *)

Lemma dict_mem_same_keys (d d' : dict) k :
  keys d' = keys d -> dict_mem k d' = dict_mem k d.
Proof.
  intros E. destruct (dict_mem k d) eqn:H.
  - apply dict_mem_keys. rewrite E. now apply dict_mem_keys.
  - apply not_true_iff_false. intros H'. apply dict_mem_keys in H'.
    rewrite E in H'. apply dict_mem_keys in H'. congruence.
Qed.

Lemma dict_modify_twice (d : dict) k f :
  (forall t, f (f t) = f t) ->
  dict_modify (dict_modify d k f) k f = dict_modify d k f.
Proof.
  intros Hf. induction d as [|[k0 t0] d IH]; simpl; auto.
  destruct (str_eqb k0 k) eqn:E; simpl; rewrite E.
  - now rewrite Hf.
  - now rewrite IH.
Qed.

Lemma modify_first_twice p f (d : dict) k d' :
  modify_first p f d = Some (k, d') ->
  (forall t, p t = true -> p (f t) = true) ->
  (forall t, f (f t) = f t) ->
  modify_first p f d' = Some (k, d').
Proof.
  intros H Hp Hf.
  apply modify_first_some in H as (pre & t & post & -> & -> & Ht & Hpre).
  rewrite modify_first_split; auto. now rewrite Hf.
Qed.

Lemma has_filename_update (pre post : dict) k t :
  has_filename (filename t) (pre ++ (k, t) :: post) = true.
Proof.
  unfold has_filename. apply existsb_exists. exists (k, t).
  split; [apply in_or_app; right; now left | apply str_eqb_refl].
Qed.

Lemma has_filename_set (d : dict) k v :
  has_filename (filename v) (dict_set d k v) = true.
Proof.
  unfold has_filename. apply existsb_exists. exists (k, v).
  split; [|apply str_eqb_refl].
  induction d as [|[k0 t0] d IH]; simpl; auto.
  destruct (str_eqb k0 k) eqn:E; simpl; auto.
  apply str_eqb_eq in E. subst. auto.
Qed.

Lemma wf_dict_split (pre post : dict) k t :
  wf_dict (pre ++ (k, t) :: post) -> forall e, In e pre -> fst e <> k.
Proof.
  unfold wf_dict, keys. rewrite map_app. simpl. intros H e He E.
  apply NoDup_remove_2 in H. apply H. apply in_or_app. left.
  rewrite <- E. now apply in_map.
Qed.

(** The second application returns, with the registry of the first. *)
Ltac replayed :=
  cbn [bind try_except]; eexists; split; [reflexivity|];
  cbn [download_tasks with_tasks]; auto.

Section Terminal.
Context {RT : Runtime}.

(** X10. On a completion line that captures the filename of a task (the
    first in iteration order that has it), that task gets the status
    Completed and the progress 100, and a removal timer for its key is
    added; on a failure line the task gets the status Cancelled when the
    line carries a cancel keyword and Failed otherwise, and the timer is
    added as well.  No other entry changes; [downloaded] and [total] stay
    as they were. *)
Theorem terminal_line_effect now hex8 message s pre k t post :
  download_tasks s = pre ++ (k, t) :: post ->
  (forall e, In e pre -> filename (snd e) <> filename t) ->
  (classify message = CompletionLine (Some (filename t)) ->
   parse_download_task now hex8 message s =
     Ok {| download_tasks :=
             pre ++ (k, {| task_id := task_id t; filename := filename t;
                           downloaded := downloaded t; total := total t;
                           progress := PyInt 100; status := Completed;
                           start_time := start_time t |}) :: post;
           timers := timers s ++ [k] |})
  /\ (forall is_canceled,
        classify message = FailureLine is_canceled (Some (filename t)) ->
        parse_download_task now hex8 message s =
          Ok {| download_tasks :=
                  pre ++ (k, {| task_id := task_id t; filename := filename t;
                                downloaded := downloaded t; total := total t;
                                progress := progress t;
                                status := if is_canceled then Cancelled else Failed;
                                start_time := start_time t |}) :: post;
                timers := timers s ++ [k] |}).
Proof.
  intros Hd Hpre.
  assert (Hp : forall e, In e pre -> str_eqb (filename (snd e)) (filename t) = false)
    by (intros e He; apply str_eqb_neq; now apply Hpre).
  split.
  - intros H. on_branch H.
    destruct (re_search re_complete message) as [g|]; [|discriminate H].
    cbn [option_map] in H. injection H as H. rewrite H, Hd.
    rewrite modify_first_split; auto. apply str_eqb_refl.
  - intros c H. on_branch H.
    destruct (re_search re_error message) as [g|]; [|discriminate H].
    cbn [option_map] in H.
    assert (Hc : any_keyword [u "canceled"; u "cancelled"; u "context canceled"] message
                 = c) by congruence.
    assert (Hg : group 1 g = filename t) by congruence.
    rewrite Hc, Hg, Hd.
    rewrite modify_first_split; auto. apply str_eqb_refl.
Qed.

(** X11. A terminal line followed by its timer is a removal: when a line
    has scheduled a removal timer for a key, firing that timer on the state
    after the line leaves the registry that [remove_finished_task] leaves
    on the state before the line -- the registry without that task, all
    other tasks as they were (distinct keys). *)
Theorem line_then_timer now hex8 message s s' k :
  wf_dict (download_tasks s) ->
  parse_download_task now hex8 message s = Ok s' ->
  timers s' = timers s ++ [k] ->
  dict_mem k (download_tasks s) = true
  /\ download_tasks (remove_finished_task k s')
     = download_tasks (remove_finished_task k s)
  /\ dict_get (download_tasks (remove_finished_task k s')) k = None.
Proof.
  intros Hwf H Ht. apply parse_effect in H.
  assert (Hno : timers s <> timers s ++ [k]).
  { intros E. apply (f_equal (@List.length str)) in E.
    rewrite length_app in E. simpl in E. lia. }
  assert (G : forall pre post t t',
             download_tasks s = pre ++ (k, t) :: post ->
             download_tasks s' = pre ++ (k, t') :: post ->
             dict_mem k (download_tasks s) = true
             /\ download_tasks (remove_finished_task k s')
                = download_tasks (remove_finished_task k s)
             /\ dict_get (download_tasks (remove_finished_task k s')) k = None).
  { intros pre post t t' Hd Hd'.
    assert (Hpre : forall e, In e pre -> fst e <> k)
      by (rewrite Hd in Hwf; now apply (wf_dict_split pre post k t)).
    assert (M : forall d v, d = pre ++ (k, v) :: post -> dict_mem k d = true).
    { intros d v ->. apply dict_mem_keys. unfold keys. rewrite map_app.
      apply in_or_app. right. now left. }
    assert (E1 : download_tasks (remove_finished_task k s) = pre ++ post).
    { unfold remove_finished_task. rewrite (M _ _ Hd).
      cbn [download_tasks with_tasks]. rewrite Hd. now apply dict_del_split. }
    assert (E2 : download_tasks (remove_finished_task k s') = pre ++ post).
    { unfold remove_finished_task. rewrite (M _ _ Hd').
      cbn [download_tasks with_tasks]. rewrite Hd'. now apply dict_del_split. }
    split; [exact (M _ _ Hd)|]. split; [congruence|].
    rewrite E2. destruct (dict_get (pre ++ post) k) as [t0|] eqn:Eg; auto.
    exfalso. assert (Hin : In k (keys (pre ++ post))).
    { apply dict_mem_keys. apply dict_mem_true. eauto. }
    rewrite Hd in Hwf. unfold wf_dict, keys in Hwf. rewrite map_app in Hwf.
    simpl in Hwf. apply NoDup_remove_2 in Hwf. apply Hwf.
    unfold keys in Hin. now rewrite map_app in Hin. }
  destruct H as [ | id Hc Hm | id pre t post Hc Hd | fname pre k0 t post Hc Hf Hd Hp
                | fname Hc Hf Hp | identifier dl tot d n p pre k0 t post Hc Hr Hd Hk
                | fname pre k0 t post Hc Hd Hf | c fname pre k0 t post Hc Hd Hf ];
    cbn [download_tasks with_tasks timers] in *; try (now destruct Hno).
  - apply app_inj_tail in Ht as [_ ->]. eapply G; eauto.
  - apply app_inj_tail in Ht as [_ ->]. eapply G; eauto.
Qed.

(** X12. Replaying a line changes nothing more: when a line has been
    applied, the same line applied again (at a later time, with another
    generated id) leaves every task of the registry as the first
    application left it, and adds or removes none. *)
Theorem line_replay now hex8 now' hex8' message s s1 :
  parse_download_task now hex8 message s = Ok s1 ->
  exists s2,
    parse_download_task now' hex8' message s1 = Ok s2
    /\ download_tasks s2 = download_tasks s1.
Proof.
  unfold parse_download_task, parse_body.
  destruct (re_search re_task message) as [g|].
  { destruct (dict_mem _ _) eqn:Hm; cbn [try_except]; intros H; injection H as <-.
    - rewrite Hm. replayed.
    - cbn [download_tasks with_tasks].
      assert (dict_mem (group 1 g)
                (dict_set (download_tasks s) (group 1 g)
                   (new_task (group 1 g) placeholder Queued now)) = true) as ->.
      { unfold dict_mem. rewrite dict_get_set. now rewrite str_eqb_refl. }
      replayed. }
  destruct (re_search re_batch message) as [g|].
  { destruct (dict_mem _ _) eqn:Hm; cbn [try_except]; intros H; injection H as <-.
    - cbn [download_tasks with_tasks].
      rewrite (dict_mem_same_keys (download_tasks s)) by apply keys_modify.
      rewrite Hm. replayed. now apply dict_modify_twice.
    - rewrite Hm. replayed. }
  destruct (re_search re_file_start message) as [g|].
  { destruct (has_filename _ _) eqn:Hf; cbn [try_except].
    { intros H; injection H as <-. rewrite Hf. replayed. }
    destruct (modify_first _ _ (download_tasks s)) as [[k d']|] eqn:Hmf;
      cbn [try_except]; intros H; injection H as <-;
      cbn [download_tasks with_tasks].
    - apply modify_first_some in Hmf as (pre & t & post & Hd & -> & Ht & _).
      assert (has_filename (group 1 g)
                (pre ++ (k, set_status Started (set_filename (group 1 g) t)) :: post)
              = true) as ->
        by apply (has_filename_update pre post k
                    (set_status Started (set_filename (group 1 g) t))).
      replayed.
    - match goal with
      | |- context [has_filename ?f (dict_set ?d ?k ?v)] =>
          assert (has_filename f (dict_set d k v) = true) as ->
            by apply (has_filename_set d k v)
      end.
      replayed. }
  destruct (re_search re_progress message) as [g|].
  { destruct (py_int (group 2 g)) as [d|] eqn:Ed; cbn [bind try_except];
      [|intros H; injection H as <-; replayed].
    destruct (py_int (group 3 g)) as [n|] eqn:En; cbn [bind try_except];
      [|intros H; injection H as <-; replayed].
    destruct (progress_value d n) as [p|] eqn:Ep; cbn [bind try_except];
      [|intros H; injection H as <-; replayed].
    destruct (dict_mem _ _) eqn:Hm; cbn [try_except].
    - intros H; injection H as <-. cbn [download_tasks with_tasks].
      rewrite (dict_mem_same_keys (download_tasks s)) by apply keys_modify.
      rewrite Hm. replayed. now apply dict_modify_twice.
    - destruct (modify_first _ _ (download_tasks s)) as [[k d']|] eqn:Hmf;
        cbn [try_except]; intros H; injection H as <-.
      + cbn [download_tasks with_tasks].
        rewrite (dict_mem_same_keys (download_tasks s))
          by (eapply keys_modify_first; eauto).
        rewrite Hm.
        rewrite (modify_first_twice _ _ _ _ _ Hmf)
          by (intros; first [assumption | reflexivity]).
        replayed.
      + rewrite Hm, Hmf. replayed. }
  destruct (_ || _ || _).
  { destruct (re_search re_complete message) as [g|];
      [|intros H; injection H as <-; replayed].
    destruct (modify_first _ _ (download_tasks s)) as [[k d']|] eqn:Hmf;
      cbn [try_except]; intros H; injection H as <-.
    - cbn [download_tasks].
      rewrite (modify_first_twice _ _ _ _ _ Hmf)
          by (intros; first [assumption | reflexivity]).
      replayed.
    - rewrite Hmf. replayed. }
  destruct (any_keyword _ message); [|intros H; injection H as <-; replayed].
  destruct (re_search re_error message) as [g|];
    [|intros H; injection H as <-; replayed].
  destruct (modify_first _ _ (download_tasks s)) as [[k d']|] eqn:Hmf;
    cbn [try_except]; intros H; injection H as <-.
  - cbn [download_tasks].
    rewrite (modify_first_twice _ _ _ _ _ Hmf)
          by (intros; first [assumption | reflexivity]).
    cbn [try_except]. replayed.
  - rewrite Hmf. replayed.
Qed.

End Terminal.

(* ================================================================== *)
(** ** What the patterns capture, and which exceptions a line can raise *)

Lemma strip_prefix_app (p s r : str) : strip_prefix p s = Some r <-> s = p ++ r.
Proof.
  revert s; induction p as [|c p IH]; intros s; simpl.
  - split; congruence.
  - destruct s as [|x s]; [split; discriminate|].
    unfold char_eqb. destruct (N.eqb_spec c x) as [->|Hne].
    + rewrite IH. split; congruence.
    + split; [discriminate | congruence].
Qed.

Lemma contains_app (sub s : str) :
  contains sub s = true <-> exists pre post, s = pre ++ sub ++ post.
Proof.
  split.
  - induction s as [|x s IH]; simpl.
    + destruct (strip_prefix sub []) as [r|] eqn:E; [|discriminate].
      intros _. apply strip_prefix_app in E. exists [], r. exact E.
    + destruct (strip_prefix sub (x :: s)) as [r|] eqn:E.
      * intros _. apply strip_prefix_app in E. exists [], r. exact E.
      * intros H. destruct (IH H) as (pre & post & ->).
        exists (x :: pre), post. reflexivity.
  - intros (pre & post & ->). induction pre as [|x pre IH].
    + simpl. assert (strip_prefix sub (sub ++ post) = Some post) as E
          by now apply strip_prefix_app.
      destruct (sub ++ post); simpl in *; now rewrite E.
    + simpl ((x :: pre) ++ _). cbn [contains].
      destruct (strip_prefix sub (x :: pre ++ sub ++ post)); auto.
Qed.

(** A keyword that ends with another keyword adds nothing to a test. *)
Lemma contains_longer (a b s : str) :
  contains (a ++ b) s = true -> contains b s = true.
Proof.
  intros H. apply contains_app in H as (pre & post & ->).
  apply contains_app. exists (pre ++ a), post. now rewrite <- !app_assoc.
Qed.

Section Words.
Context {RT : Runtime}.

(** A greedy repetition consumes characters of its class only. *)
Lemma star_greedy_cont c (s : str) g k r :
  star_greedy c s g k = Some r ->
  exists p s', s = p ++ s' /\ Forall (fun x => in_class c x = true) p
               /\ k s' g = Some r.
Proof.
  induction s as [|x s IH]; simpl.
  - intros H. exists [], []. auto.
  - destruct (in_class c x) eqn:Hx.
    + destruct (star_greedy c s g k) as [r'|] eqn:E.
      * intros H; injection H as <-.
        destruct (IH eq_refl) as (p & s' & -> & Hp & Hk).
        exists (x :: p), s'. auto.
      * intros H. exists [], (x :: s). auto.
    + intros H. exists [], (x :: s). auto.
Qed.

Lemma plus_greedy_cont c (s : str) g k r :
  plus false c s g k = Some r ->
  exists p s', s = p ++ s' /\ run_of c p /\ k s' g = Some r.
Proof.
  unfold plus. destruct s as [|x s]; [discriminate|].
  destruct (in_class c x) eqn:Hx; [|discriminate].
  intros H. apply star_greedy_cont in H as (p & s' & -> & Hp & Hk).
  exists (x :: p), s'. repeat split; auto. discriminate.
Qed.

Lemma firstn_consumed (p s' : str) :
  firstn (List.length (p ++ s') - List.length s') (p ++ s') = p.
Proof.
  rewrite length_app. replace (List.length p + List.length s' - List.length s')%nat
    with (List.length p + 0)%nat by lia.
  rewrite firstn_app_2. simpl. apply app_nil_r.
Qed.

Lemma task_capture (message : str) g :
  re_search re_task message = Some g -> run_of CWord (group 1 g).
Proof.
  intros H. apply re_search_at in H as (t & H).
  unfold re_task in H. cbn [rmatch] in H.
  destruct (strip_prefix (u "Processing task: ") t) as [s1|]; [|discriminate].
  apply plus_greedy_cont in H as (p & s' & -> & Hp & H).
  injection H as <-. rewrite firstn_consumed. exact Hp.
Qed.

Lemma batch_capture (message : str) g :
  re_search re_batch message = Some g -> run_of CWord (group 1 g).
Proof.
  intros H. apply re_search_at in H as (t & H).
  unfold re_batch in H. cbn [rmatch] in H.
  destruct (strip_prefix (u "batch_file[") t) as [s1|]; [|discriminate].
  apply plus_greedy_cont in H as (p & s' & -> & Hp & H).
  destruct (strip_prefix (u "]: Starting") s'); [|discriminate].
  injection H as <-. rewrite firstn_consumed. exact Hp.
Qed.

Lemma progress_capture (message : str) g :
  re_search re_progress message = Some g ->
  run_of CDigit (group 2 g) /\ run_of CDigit (group 3 g).
Proof.
  intros H. apply re_search_at in H as (t & H).
  unfold re_progress in H. cbn [rmatch] in H.
  destruct (strip_prefix (u "Progress update: ") t) as [s1|]; [|discriminate].
  apply plus_lazy_cont in H as (s2 & _ & H).
  destruct (strip_prefix (u ", ") s2) as [s3|]; [|discriminate].
  apply plus_greedy_cont in H as (p & s4 & -> & Hp & H).
  destruct (strip_prefix (u "/") s4) as [s5|]; [|discriminate].
  apply plus_greedy_cont in H as (q & s6 & -> & Hq & H).
  injection H as <-. rewrite !firstn_consumed. split; assumption.
Qed.

Lemma digits_value_ok (s : str) acc :
  Forall (fun x => in_class CDigit x = true) s -> exists z, digits_value s acc = Ok z.
Proof.
  revert acc; induction s as [|c s IH]; simpl; intros acc H; eauto.
  inversion H as [|? ? Hc Hs]; subst. simpl in Hc.
  destruct (decimal c); [|discriminate]. now apply IH.
Qed.

(** [int] on a run of digits fails on the digit limit only. *)
Lemma py_int_digits (s : str) e :
  run_of CDigit s -> py_int s = Raise e ->
  e = ValueError /\ (0 < int_max_str_digits < List.length s)%nat.
Proof.
  intros [Hne Hd]. unfold py_int.
  destruct (_ && _) eqn:E.
  - intros H; injection H as <-. split; auto.
    apply andb_true_iff in E as [E1 E2].
    apply Nat.ltb_lt in E1. apply Nat.ltb_lt in E2. lia.
  - destruct s; [congruence|].
    destruct (digits_value_ok (c :: s) 0 Hd) as [z ->]. discriminate.
Qed.

End Words.

(** A quotient below [2^1023] is within the range of a float. *)
Lemma nearest_double_some (sg : bool) (n d : Z) :
  0 <= n -> 0 < d -> n < 2 ^ 1023 * d ->
  exists f, nearest_double sg n d = Some f.
Proof.
  intros Hn Hd Hlt. unfold nearest_double.
  destruct (n =? 0) eqn:Hn0; [eauto|].
  apply Z.eqb_neq in Hn0. assert (Hn' : 0 < n) by lia.
  destruct (floor_log2_ratio_spec n d Hn' Hd) as [F1 _].
  set (L := floor_log2_ratio n d) in *.
  assert (HL : L <= 1022).
  { apply Z.nlt_ge. intros Hc.
    set (K := Z.max 0 (- L)).
    assert (HK : 0 <= K) by lia. assert (HLK : 0 <= L + K) by lia.
    apply (proj1 (scaled_leb_spec d L n K HK HLK)) in F1.
    pose proof (pow2_pos K HK) as PK.
    assert (H1 : 2 ^ (1023 + K) <= 2 ^ (L + K)) by (apply Z.pow_le_mono_r; lia).
    rewrite Z.pow_add_r in H1 by lia.
    assert (H2 : n * 2 ^ K < 2 ^ 1023 * d * 2 ^ K)
      by (apply Z.mul_lt_mono_pos_r; auto).
    assert (H3 : d * (2 ^ 1023 * 2 ^ K) <= d * 2 ^ (L + K))
      by (apply Z.mul_le_mono_nonneg_l; lia).
    lia. }
  set (e := Z.max (L - (prec - 1)) (3 - emax - prec)).
  assert (He : e <= 970) by (unfold e, prec, emax; lia).
  set (m := if 0 <=? e then round_half_even n (d * 2 ^ e)
            else round_half_even (n * 2 ^ (- e)) d).
  destruct (m =? 2 ^ prec).
  - change (2 ^ (prec - 1)) with (Zpos 4503599627370496).
    assert ((e + 1 <=? emax - prec) = true) as ->
        by (apply Z.leb_le; unfold emax, prec; lia).
    eauto.
  - assert ((e <=? emax - prec) = true) as ->
        by (apply Z.leb_le; unfold emax, prec; lia).
    destruct m; eauto.
Qed.

Lemma int_true_div_raises (a b : Z) e :
  0 <= a -> 0 < b -> int_true_div a b = Raise e ->
  e = OverflowError /\ 2 ^ 1023 * b <= a.
Proof.
  intros Ha Hb. unfold int_true_div.
  assert ((b =? 0) = false) as -> by (apply Z.eqb_neq; lia).
  rewrite (Z.abs_eq a), (Z.abs_eq b) by lia.
  destruct (nearest_double _ a b) eqn:E; [discriminate|].
  intros H; injection H as <-. split; auto.
  apply Z.nlt_ge. intros Hlt.
  destruct (nearest_double_some (xorb (a <? 0) (b <? 0)) a b Ha Hb Hlt) as [f Hf].
  congruence.
Qed.

Section Exceptions.
Context {RT : Runtime}.

(** X13. The numbers of a progress line are runs of decimal digits, so
    [int] never meets a character it cannot convert, and the division is
    guarded by [total > 0]: a progress line is dropped by the exception
    handler only when one of its numbers has more digits than the limit of
    the interpreter (ValueError), or when [downloaded / total] is at least
    [2^1023] (OverflowError).  ZeroDivisionError never occurs. *)
Theorem progress_line_exceptions message identifier dl tot e :
  classify message = ProgressUpdate identifier dl tot ->
  read_progress dl tot = Raise e ->
  (e = ValueError
   /\ (0 < int_max_str_digits)%nat
   /\ ((int_max_str_digits < List.length dl)%nat
       \/ (int_max_str_digits < List.length tot)%nat))
  \/ (e = OverflowError
      /\ exists d t, py_int dl = Ok d /\ py_int tot = Ok t
                     /\ 0 < t /\ 2 ^ 1023 * t <= d).
Proof.
  intros H Hr. on_branch H. injection H as <- <- <-.
  match goal with
  | E : re_search re_progress message = Some g |- _ =>
      destruct (progress_capture _ _ E) as [H2 H3]
  end.
  unfold read_progress in Hr.
  destruct (py_int (group 2 g)) as [d|e2] eqn:Ed; cbn [bind] in Hr.
  2: { injection Hr as <-. destruct (py_int_digits _ _ H2 Ed) as [-> Hl].
       left. split; [reflexivity|]. split; [lia|]. left. lia. }
  destruct (py_int (group 3 g)) as [n|e3] eqn:En; cbn [bind] in Hr.
  2: { injection Hr as <-. destruct (py_int_digits _ _ H3 En) as [-> Hl].
       left. split; [reflexivity|]. split; [lia|]. right. lia. }
  unfold progress_value in Hr. destruct (n >? 0) eqn:Hn; [|discriminate].
  destruct (int_true_div d n) as [q|e4] eqn:Eq; cbn [bind] in Hr; [discriminate|].
  injection Hr as <-. right.
  apply py_int_nonneg in Ed.
  destruct (int_true_div_raises d n e4 Ed ltac:(lia) Eq) as [-> Hb].
  split; auto. exists d, n. repeat split; auto. lia.
Qed.

(** X14. The id that a task-discovery line or a batch-initialisation line
    captures is a run of word characters (letters, digits, underscore), and
    it is not empty: no task is discovered under an empty id or under an id
    with a space, a bracket or a comma in it. *)
Theorem captured_id_is_word message id :
  classify message = TaskDiscovered id \/ classify message = BatchInitialized id ->
  id <> [] /\ Forall (fun x => isalnum x || char_eqb x 95%N = true) id.
Proof.
  intros [H|H]; on_branch H; injection H as <-.
  - match goal with
    | E : re_search re_task message = Some g |- _ => exact (task_capture _ _ E)
    end.
  - match goal with
    | E : re_search re_batch message = Some g |- _ => exact (batch_capture _ _ E)
    end.
Qed.

(** X15. The keyword 'context canceled' of the cancel test is covered by
    'canceled': the test with the three keywords of the program gives, on
    every line, what the test with 'canceled' and 'cancelled' gives; and a
    line that passes it passes the test of the failure branch. *)
Theorem cancel_keywords message :
  any_keyword [u "canceled"; u "cancelled"; u "context canceled"] message
  = any_keyword [u "canceled"; u "cancelled"] message
  /\ (any_keyword [u "canceled"; u "cancelled"; u "context canceled"] message = true ->
      any_keyword [u "failed"; u "error"; u "canceled"; u "cancelled"] message = true).
Proof.
  assert (E : any_keyword [u "canceled"; u "cancelled"; u "context canceled"] message
              = any_keyword [u "canceled"; u "cancelled"] message).
  { unfold any_keyword. cbn [existsb].
    destruct (contains (u "canceled") (lower message)) eqn:E1; auto.
    destruct (contains (u "cancelled") (lower message)) eqn:E2; auto.
    destruct (contains (u "context canceled") (lower message)) eqn:E3; auto.
    change (u "context canceled") with (u "context " ++ u "canceled") in E3.
    apply contains_longer in E3. congruence. }
  split; [exact E|]. rewrite E. unfold any_keyword. cbn [existsb].
  destruct (contains (u "canceled") (lower message));
    destruct (contains (u "cancelled") (lower message));
    rewrite ?orb_true_r; auto; discriminate.
Qed.

End Exceptions.

(* ================================================================== *)
(** ** [format_bytes]: the figures shown, and when it fails *)

Lemma round_half_even_scale (n d c : Z) :
  0 < d -> 0 < c -> round_half_even (n * c) (d * c) = round_half_even n d.
Proof.
  intros Hd Hc. unfold round_half_even.
  rewrite Z.div_mul_cancel_r, Z.mul_mod_distr_r by lia.
  replace (2 * (n mod d * c)) with (2 * (n mod d) * c) by ring.
  now rewrite <- Zmult_compare_compat_r by lia.
Qed.

Lemma round_half_even_exact (x d : Z) : 0 < d -> round_half_even (x * d) d = x.
Proof.
  intros Hd. unfold round_half_even.
  rewrite Z.div_mul, Z.mod_mul by lia.
  replace (2 * 0 ?= d) with Lt by (symmetry; apply Z.compare_lt_iff; lia).
  reflexivity.
Qed.

Lemma round_half_even_ge (n d M : Z) :
  0 < d -> M * d <= n -> M <= round_half_even n d.
Proof.
  intros Hd H. unfold round_half_even.
  assert (M <= n / d) by (apply Z.div_le_lower_bound; lia).
  destruct (2 * (n mod d) ?= d); try destruct (Z.even (n / d)); lia.
Qed.

(** An int below [2^53] divided by a power of two is a float without
    rounding: the mantissa is the int, shifted. *)
Lemma nearest_double_pow2 (n k : Z) :
  0 < n < 2 ^ 53 -> 1 <= k <= 1000 ->
  exists m e j,
    nearest_double false n (2 ^ k) = Some (S754_finite false m e)
    /\ e < 0 /\ 0 <= j /\ Zpos m = n * 2 ^ j /\ - e = k + j.
Proof.
  intros [Hn0 Hn53] Hk. unfold nearest_double.
  assert ((n =? 0) = false) as -> by (apply Z.eqb_neq; lia).
  pose proof (Z.log2_spec n Hn0) as [Hl1 Hl2].
  pose proof (Z.log2_nonneg n) as Hl0.
  assert (Hl52 : Z.log2 n <= 52).
  { apply Z.lt_succ_r. apply (Z.pow_lt_mono_r_iff 2); try lia. }
  assert (HL : floor_log2_ratio n (2 ^ k) = Z.log2 n - k).
  { unfold floor_log2_ratio. rewrite Z.log2_pow2 by lia.
    assert (scaled_leb (2 ^ k) (Z.log2 n - k) n = true) as ->; [|reflexivity].
    assert (HK : 0 <= k) by lia.
    assert (HzK : 0 <= Z.log2 n - k + k) by lia.
    apply (proj2 (scaled_leb_spec (2 ^ k) (Z.log2 n - k) n k HK HzK)).
    replace (Z.log2 n - k + k) with (Z.log2 n) by lia.
    rewrite (Z.mul_comm n). apply Z.mul_le_mono_nonneg_l; auto.
    apply Z.pow_nonneg; lia. }
  rewrite HL.
  set (j := 52 - Z.log2 n). assert (Hj : 0 <= j) by (unfold j; lia).
  assert (He : Z.max (Z.log2 n - k - (prec - 1)) (3 - emax - prec) = - (k + j))
    by (unfold prec, emax, j; lia).
  rewrite He.
  assert ((0 <=? - (k + j)) = false) as -> by (apply Z.leb_gt; lia).
  rewrite Z.opp_involutive.
  assert (Hm : round_half_even (n * 2 ^ (k + j)) (2 ^ k) = n * 2 ^ j).
  { rewrite (Z.add_comm k j), Z.pow_add_r, Z.mul_assoc by lia.
    apply round_half_even_exact. apply pow2_pos; lia. }
  rewrite Hm.
  pose proof (pow2_pos j Hj) as Pj.
  assert (B1 : 2 ^ 52 <= n * 2 ^ j).
  { assert (E : 2 ^ 52 = 2 ^ Z.log2 n * 2 ^ j)
      by (rewrite <- Z.pow_add_r by lia; f_equal; unfold j; lia).
    rewrite E. apply Z.mul_le_mono_nonneg_r; lia. }
  assert (B2 : n * 2 ^ j < 2 ^ 53).
  { assert (E : 2 ^ 53 = 2 ^ Z.succ (Z.log2 n) * 2 ^ j)
      by (rewrite <- Z.pow_add_r by lia; f_equal; unfold j; lia).
    rewrite E. apply Z.mul_lt_mono_pos_r; lia. }
  change (2 ^ prec) with (2 ^ 53).
  assert ((n * 2 ^ j =? 2 ^ 53) = false) as -> by (apply Z.eqb_neq; lia).
  assert (P52 : 0 < 2 ^ 52) by reflexivity.
  destruct (n * 2 ^ j) as [|p|p] eqn:Ep; try lia.
  assert ((- (k + j) <=? emax - prec) = true) as ->
      by (apply Z.leb_le; unfold emax, prec; lia).
  exists p, (- (k + j)), j. repeat split; auto; lia.
Qed.

(** The text of such a quotient is the decimal rounding of the quotient itself. *)
Lemma format_quotient (digits : nat) (b k : Z) :
  0 < b < 2 ^ 53 -> 1 <= k <= 1000 ->
  exists q, int_true_div b (2 ^ k) = Ok q
            /\ format_fixed digits q
               = fixed_text digits (round_half_even (b * 10 ^ Z.of_nat digits) (2 ^ k)).
Proof.
  intros Hb Hk.
  destruct (nearest_double_pow2 b k Hb Hk) as (m & e & j & Hq & He & Hj & Hm & Hej).
  pose proof (pow2_pos k ltac:(lia)) as Pk.
  exists (S754_finite false m e). split.
  - unfold int_true_div.
    assert ((2 ^ k =? 0) = false) as -> by (apply Z.eqb_neq; lia).
    assert ((b <? 0) = false) as -> by (apply Z.ltb_ge; lia).
    assert ((2 ^ k <? 0) = false) as -> by (apply Z.ltb_ge; lia).
    rewrite (Z.abs_eq b), (Z.abs_eq (2 ^ k)) by lia. cbn [xorb]. now rewrite Hq.
  - unfold format_fixed. cbn [app].
    assert ((0 <=? e) = false) as -> by (apply Z.leb_gt; lia).
    f_equal. rewrite Hm, Hej, Z.pow_add_r by lia.
    replace (b * 2 ^ j * 10 ^ Z.of_nat digits)
      with (b * 10 ^ Z.of_nat digits * 2 ^ j) by ring.
    apply round_half_even_scale; auto. now apply pow2_pos.
Qed.

(** A quotient of [2^1024] or more is beyond the range of a float. *)
Lemma nearest_double_none (sg : bool) (n d : Z) :
  0 < d -> 2 ^ 1024 * d <= n -> nearest_double sg n d = None.
Proof.
  intros Hd Hge.
  assert (P1024 : 0 < 2 ^ 1024) by (apply pow2_pos; lia).
  assert (Hn : 0 < n) by nia.
  unfold nearest_double.
  assert ((n =? 0) = false) as -> by (apply Z.eqb_neq; lia).
  destruct (floor_log2_ratio_spec n d Hn Hd) as [F1 F2].
  set (L := floor_log2_ratio n d) in *.
  assert (HL : 1024 <= L).
  { apply Z.nlt_ge. intros Hc.
    set (K := Z.max 0 (- (L + 1))).
    assert (HK : 0 <= K) by lia. assert (HLK : 0 <= L + 1 + K) by lia.
    assert (F : scaled_leb d (L + 1) n = true); [|congruence].
    apply (proj2 (scaled_leb_spec d (L + 1) n K HK HLK)).
    pose proof (pow2_pos K HK) as PK.
    assert (H1 : 2 ^ (L + 1 + K) <= 2 ^ (1024 + K)) by (apply Z.pow_le_mono_r; lia).
    rewrite (Z.pow_add_r 2 1024 K) in H1 by lia.
    assert (H2 : d * 2 ^ (L + 1 + K) <= d * (2 ^ 1024 * 2 ^ K))
      by (apply Z.mul_le_mono_nonneg_l; lia).
    assert (H3 : 2 ^ 1024 * d * 2 ^ K <= n * 2 ^ K)
      by (apply Z.mul_le_mono_nonneg_r; lia).
    lia. }
  assert (He : Z.max (L - (prec - 1)) (3 - emax - prec) = L - 52)
    by (unfold prec, emax; lia).
  rewrite He.
  assert ((0 <=? L - 52) = true) as -> by (apply Z.leb_le; lia).
  assert (HK : 0 <= 0) by lia. assert (HLK : 0 <= L + 0) by lia.
  apply (proj1 (scaled_leb_spec d L n 0 HK HLK)) in F1.
  rewrite Z.add_0_r, Z.pow_0_r, Z.mul_1_r in F1.
  pose proof (pow2_pos (L - 52) ltac:(lia)) as PE.
  assert (Hm : 2 ^ 52 <= round_half_even n (d * 2 ^ (L - 52))).
  { apply round_half_even_ge; [nia|].
    replace (2 ^ 52 * (d * 2 ^ (L - 52))) with (d * (2 ^ (L - 52) * 2 ^ 52)) by ring.
    rewrite <- Z.pow_add_r by lia. now replace (L - 52 + 52) with L by lia. }
  assert (P52 : 0 < 2 ^ 52) by reflexivity.
  destruct (round_half_even n (d * 2 ^ (L - 52)) =? 2 ^ prec).
  - change (2 ^ (prec - 1)) with (Zpos 4503599627370496).
    assert ((L - 52 + 1 <=? emax - prec) = false) as ->
        by (apply Z.leb_gt; unfold emax, prec; lia).
    reflexivity.
  - destruct (round_half_even n (d * 2 ^ (L - 52))) as [|p|p]; try lia.
    assert ((L - 52 <=? emax - prec) = false) as ->
        by (apply Z.leb_gt; unfold emax, prec; lia).
    reflexivity.
Qed.

(** The text of an int from 0 to 1023 has four digits at most. *)
Lemma int_text_short (b : Z) :
  0 <= b < 1024 -> (List.length (int_text b) <= 4)%nat.
Proof.
  intros Hb.
  assert (A : forallb (fun n => (List.length (int_text (Z.of_nat n)) <=? 4)%nat)
                (seq 0 1024) = true) by (vm_compute; reflexivity).
  rewrite forallb_forall in A.
  specialize (A (Z.to_nat b)). rewrite Z2Nat.id in A by lia.
  apply Nat.leb_le, A, in_seq. lia.
Qed.

Section FormatBytes.
Context {RT : Runtime}.

Lemma int_str_small (b : Z) : 0 <= b < 1024 -> int_str b = Ok (int_text b).
Proof.
  intros Hb. unfold int_str. pose proof (int_text_short b Hb) as L.
  assert ((640 <? List.length (int_text b))%nat = false) as ->
      by (apply Nat.ltb_ge; lia).
  reflexivity.
Qed.

(** The conversion fails exactly on the texts that are tested and have more
    digits than the limit. *)
Lemma int_str_raises (z : Z) e :
  int_str z = Raise e <->
  e = ValueError
  /\ (640 < List.length (int_text z))%nat
  /\ (0 < int_max_str_digits
         < List.length (int_text z) - (if (z <? 0)%Z then 1 else 0))%nat.
Proof.
  unfold int_str. split.
  - destruct ((640 <? List.length (int_text z))%nat && (0 <? int_max_str_digits)%nat
              && (int_max_str_digits
                    <? List.length (int_text z) - (if (z <? 0)%Z then 1 else 0))%nat)
      eqn:E; [|discriminate].
    intros H; injection H as <-.
    apply andb_true_iff in E as [E E3]. apply andb_true_iff in E as [E1 E2].
    apply Nat.ltb_lt in E1, E2, E3. auto.
  - intros (-> & H1 & H2 & H3). apply Nat.ltb_lt in H1, H2, H3.
    now rewrite H1, H2, H3.
Qed.

Lemma format_bytes_raises_only (b : Z) e :
  format_bytes b = Raise e ->
  (e = OverflowError /\ 2 ^ 1053 <= b) \/ (e = ValueError /\ b < 0).
Proof.
  unfold format_bytes.
  assert (P : 2 ^ 1053 = 2 ^ 1023 * 1073741824) by reflexivity.
  assert (Q : 1073741824 < 2 ^ 1023) by reflexivity.
  destruct (b <? 1024) eqn:E1.
  { apply Z.ltb_lt in E1. destruct (Z_lt_le_dec b 0) as [Hneg|Hpos].
    - destruct (int_str b) as [text|e'] eqn:Es; cbn [bind]; [discriminate|].
      intros H; injection H as <-. apply int_str_raises in Es as [-> _]. now right.
    - rewrite int_str_small by lia. discriminate. }
  apply Z.ltb_ge in E1. intros H. left. revert H.
  destruct (b <? 1048576) eqn:E2; [|destruct (b <? 1073741824) eqn:E3].
  - apply Z.ltb_lt in E2.
    destruct (int_true_div b 1024) as [q|e'] eqn:Eq; cbn [bind]; [discriminate|].
    intros H; injection H as <-.
    destruct (int_true_div_raises b 1024 e' ltac:(lia) ltac:(lia) Eq) as [-> Hb]. lia.
  - apply Z.ltb_lt in E3.
    destruct (int_true_div b 1048576) as [q|e'] eqn:Eq; cbn [bind]; [discriminate|].
    intros H; injection H as <-.
    destruct (int_true_div_raises b 1048576 e' ltac:(lia) ltac:(lia) Eq) as [-> Hb]. lia.
  - destruct (int_true_div b 1073741824) as [q|e'] eqn:Eq; cbn [bind]; [discriminate|].
    intros H; injection H as <-.
    destruct (int_true_div_raises b 1073741824 e' ltac:(lia) ltac:(lia) Eq) as [-> Hb].
    split; [reflexivity | lia].
Qed.

Lemma format_bytes_returns (b : Z) :
  0 <= b < 2 ^ 1053 -> exists text, format_bytes b = Ok text.
Proof.
  intros Hb. destruct (format_bytes b) as [text|e] eqn:E; eauto.
  apply format_bytes_raises_only in E. lia.
Qed.

Lemma format_bytes_overflow (b : Z) :
  2 ^ 1054 <= b -> format_bytes b = Raise OverflowError.
Proof.
  intros Hb. unfold format_bytes.
  assert (P : 2 ^ 1054 = 2 ^ 1024 * 1073741824) by reflexivity.
  assert (Q : 1073741824 < 2 ^ 1054) by reflexivity.
  assert ((b <? 1024) = false) as -> by (apply Z.ltb_ge; lia).
  assert ((b <? 1048576) = false) as -> by (apply Z.ltb_ge; lia).
  assert ((b <? 1073741824) = false) as -> by (apply Z.ltb_ge; lia).
  unfold int_true_div. cbn [Z.eqb].
  rewrite (Z.abs_eq b) by lia. cbn [Z.abs].
  rewrite nearest_double_none; [reflexivity | lia | lia].
Qed.

(** X16. [format_bytes] on a byte count below [2^53] never fails, and the
    figure it shows is the count divided by the unit and rounded to one
    decimal (two for GB), ties to even, as if computed without floats:
    the division by 1024, 1048576 or 1073741824 is exact in binary64, and
    the formatting rounds the exact value once. *)
Theorem format_bytes_exact (b : Z) :
  0 <= b < 2 ^ 53 ->
  format_bytes b =
    Ok (if b <? 1024 then int_text b ++ u " B"
        else if b <? 1048576
        then fixed_text 1 (round_half_even (b * 10) 1024) ++ u " KB"
        else if b <? 1073741824
        then fixed_text 1 (round_half_even (b * 10) 1048576) ++ u " MB"
        else fixed_text 2 (round_half_even (b * 100) 1073741824) ++ u " GB").
Proof.
  intros Hb. unfold format_bytes.
  destruct (b <? 1024) eqn:E1.
  { apply Z.ltb_lt in E1. now rewrite int_str_small by lia. }
  apply Z.ltb_ge in E1.
  destruct (b <? 1048576); [|destruct (b <? 1073741824)].
  - destruct (format_quotient 1 b 10 ltac:(lia) ltac:(lia)) as (q & Hq & Hf).
    change (2 ^ 10) with 1024 in *. rewrite Hq. cbn [bind]. now rewrite Hf.
  - destruct (format_quotient 1 b 20 ltac:(lia) ltac:(lia)) as (q & Hq & Hf).
    change (2 ^ 20) with 1048576 in *. rewrite Hq. cbn [bind]. now rewrite Hf.
  - destruct (format_quotient 2 b 30 ltac:(lia) ltac:(lia)) as (q & Hq & Hf).
    change (2 ^ 30) with 1073741824 in *. rewrite Hq. cbn [bind]. now rewrite Hf.
Qed.

(** X17. [format_bytes] fails in two ways only.  The division by the unit
    raises OverflowError, which needs a count of [2^1053] or more and
    happens for every count from [2^1054] on.  The conversion of a count
    below 1024 to its text raises ValueError, exactly when the count is
    negative, its text is longer than 640 characters and it has more digits
    than the interpreter's limit on conversions (4300 unless changed).  For
    every count from 0 to below [2^1053] the method returns a text. *)
Theorem format_bytes_failure (b : Z) :
  (forall e, format_bytes b = Raise e ->
     (e = OverflowError /\ 2 ^ 1053 <= b) \/ (e = ValueError /\ b < 0))
  /\ (format_bytes b = Raise ValueError <->
      b < 0
      /\ (640 < List.length (int_text b))%nat
      /\ (0 < int_max_str_digits < List.length (int_text b) - 1)%nat)
  /\ (0 <= b < 2 ^ 1053 -> exists text, format_bytes b = Ok text)
  /\ (2 ^ 1054 <= b -> format_bytes b = Raise OverflowError).
Proof.
  split; [intros e; apply format_bytes_raises_only|]. split; [|split].
  - split.
    + intros H. destruct (format_bytes_raises_only b _ H) as [[E _]|[_ Hb]];
        [discriminate E|].
      split; [exact Hb|]. revert H. unfold format_bytes.
      assert ((b <? 1024) = true) as -> by (apply Z.ltb_lt; lia).
      destruct (int_str b) as [text|e] eqn:Es; cbn [bind]; [discriminate|].
      intros _. apply int_str_raises in Es as (_ & H1 & H2).
      assert (E : (b <? 0) = true) by (apply Z.ltb_lt; lia).
      rewrite E in H2. auto.
    + intros (Hb & H1 & H2). unfold format_bytes.
      assert ((b <? 1024) = true) as -> by (apply Z.ltb_lt; lia).
      assert (Es : int_str b = Raise ValueError).
      { apply int_str_raises. split; [reflexivity|]. split; [exact H1|].
        assert (E : (b <? 0) = true) by (apply Z.ltb_lt; lia).
        now rewrite E. }
      now rewrite Es.
  - apply format_bytes_returns.
  - apply format_bytes_overflow.
Qed.

(** With the limit of 4300 digits: minus [10^4300] has 4301 digits and
    raises ValueError, the int above it has 4300 and is shown, as is -5. *)
Example format_bytes_negative :
  format_bytes (RT := ascii_runtime) (- 10 ^ 4300) = Raise ValueError
  /\ format_bytes (RT := ascii_runtime) (- 10 ^ 4300 + 1)
     = Ok (45%N :: repeat 57%N 4300 ++ u " B")
  /\ format_bytes (RT := ascii_runtime) (- 5) = Ok (u "-5 B").
Proof.
  repeat match goal with |- _ /\ _ => split end; vm_compute; reflexivity.
Qed.

(* ================================================================== *)
(** ** The refresh of the task table *)

Lemma task_row_fits (t : task) :
  sizes_in_range t ->
  exists d n,
    task_row t = Ok {| col_filename := display_name t; col_downloaded := d;
                       col_total := n; col_progress := progress t;
                       col_status := status_token (status t);
                       col_start_time := start_time t |}.
Proof.
  intros [Hd Hn]. unfold task_row.
  destruct (format_bytes (downloaded t)) as [d|e] eqn:Ed.
  2: { apply format_bytes_raises_only in Ed. lia. }
  destruct (format_bytes (total t)) as [n|e] eqn:En.
  2: { apply format_bytes_raises_only in En. lia. }
  cbn [bind]. eauto.
Qed.


(** The loop over tasks whose sizes fit adds their rows, in order. *)
Lemma insert_rows_fit (d : dict) (tree : list row) :
  all_tasks sizes_in_range d ->
  exists rows,
    insert_rows d tree = (tree ++ rows, Ok tt)
    /\ Forall2 (fun e r => task_row (snd e) = Ok r
                           /\ col_filename r = display_name (snd e)) d rows.
Proof.
  unfold all_tasks. revert tree; induction d as [|[k t] d IH]; intros tree H.
  - exists []. rewrite app_nil_r. split; [reflexivity | constructor].
  - inversion H as [|? ? Ht Hd]; subst. simpl in Ht.
    destruct (task_row_fits t Ht) as (dl & n & Hr). cbn [insert_rows]. rewrite Hr.
    destruct (IH (tree ++ [ {| col_filename := display_name t; col_downloaded := dl;
                               col_total := n; col_progress := progress t;
                               col_status := status_token (status t);
                               col_start_time := start_time t |} ]) Hd)
      as (rows & -> & Hrows).
    eexists (_ :: rows). rewrite <- app_assoc. split; [reflexivity|].
    constructor; auto.
Qed.


(** In a reachable state no byte count is negative. *)
Lemma reachable_sizes s :
  reachable s ->
  all_tasks sizes_fit (download_tasks s) ->
  all_tasks sizes_in_range (download_tasks s).
Proof.
  intros Hr Hfit. apply reachable_ok in Hr as [_ Hok].
  unfold all_tasks in *. rewrite Forall_forall in *. intros e He.
  specialize (Hfit e He). specialize (Hok e He).
  destruct Hok as (H0 & H1 & _). destruct Hfit as [H2 H3].
  unfold sizes_in_range. lia.
Qed.

(** X18. In a reachable state whose byte counts are below [2^1053], a
    refresh of the task table replaces whatever the table showed by one row
    for each task, in the order of the registry, and sets the label to the
    number of tasks and of active tasks.  The first column of a row is the
    filename of the task: no filename is empty in a reachable state, so the
    task id is never shown in its place. *)
Theorem table_shows_registry s w :
  reachable s ->
  all_tasks sizes_fit (download_tasks s) ->
  tasks_count_label (update_tasks_ui s w) = count_label (download_tasks s)
  /\ Forall2 (fun e r => task_row (snd e) = Ok r
                         /\ col_filename r = filename (snd e))
       (download_tasks s) (tasks_tree (update_tasks_ui s w)).
Proof.
  intros Hr Hfit. unfold update_tasks_ui.
  destruct (insert_rows_fit (download_tasks s) [] (reachable_sizes s Hr Hfit))
    as (rows & -> & Hrows).
  cbn [app tasks_tree tasks_count_label]. split; [reflexivity|].
  apply reachable_ok in Hr as [_ Hok]. unfold all_tasks in Hok.
  clear Hfit. induction Hrows as [|e r d rows [H1 H2] _ IH]; constructor.
  - split; auto. rewrite H2. inversion Hok as [|? ? (_ & _ & Hf & _) _]; subst.
    unfold display_name. now destruct (filename (snd e)).
  - apply IH. now inversion Hok.
Qed.


End FormatBytes.

(* ================================================================== *)
(** ** Runs of lines, stale timers, and what a status implies *)

Lemma all_tasks_update (Q : task -> Prop) (pre post : dict) k t t' :
  Q t' -> all_tasks Q (pre ++ (k, t) :: post) -> all_tasks Q (pre ++ (k, t') :: post).
Proof.
  unfold all_tasks. intros Ht H. apply Forall_app in H as [H1 H2].
  inversion H2; subst. apply Forall_app. split; auto.
Qed.

Section Runs.
Context {RT : Runtime}.

(** A line adds at most one key, at the end, and at most one timer. *)
Lemma line_growth now hex8 message s s' :
  parse_download_task now hex8 message s = Ok s' ->
  exists new added,
    keys (download_tasks s') = keys (download_tasks s) ++ new
    /\ timers s' = timers s ++ added
    /\ (List.length new <= 1)%nat /\ (List.length added <= 1)%nat.
Proof.
  intros H. apply parse_effect in H.
  destruct H as [ | id Hc Hm | id pre t post Hc Hd | fname pre k t post Hc Hf Hd Ht
                | fname Hc Hf Hp | identifier dl tot d n p pre k t post Hc Hr Hd Hk
                | fname pre k t post Hc Hd Hf | c fname pre k t post Hc Hd Hf ];
    cbn [download_tasks with_tasks timers];
    try (exists [], []; rewrite !app_nil_r; repeat split; auto;
         rewrite Hd; apply keys_update);
    try (exists [], [k]; rewrite !app_nil_r; repeat split; auto;
         rewrite Hd; apply keys_update).
  - exists [id], []. rewrite app_nil_r. unfold keys. rewrite map_app.
    repeat split; auto.
  - rewrite keys_set. destruct (dict_mem _ _).
    + exists [], []. rewrite !app_nil_r. repeat split; auto.
    + exists [u "auto_" ++ hex8], []. rewrite app_nil_r. repeat split; auto.
Qed.

(** X20. Parsing alone only lets the registry grow: after any run of log
    lines the keys of the registry are the keys before it, in their order,
    followed by the keys of the new tasks, and the pending timers are the
    timers before it followed by the new ones; there are at most as many new
    tasks, and as many new timers, as lines. *)
Theorem run_lines_grows now hex8 lines s :
  exists new added,
    keys (download_tasks (run_lines now hex8 lines s))
      = keys (download_tasks s) ++ new
    /\ timers (run_lines now hex8 lines s) = timers s ++ added
    /\ (List.length new <= List.length lines)%nat
    /\ (List.length added <= List.length lines)%nat.
Proof.
  revert s; induction lines as [|l lines IH]; intros s.
  - exists [], []. simpl. now rewrite !app_nil_r.
  - cbn [run_lines fold_left].
    change (fold_left (apply_line now hex8) lines (apply_line now hex8 s l))
      with (run_lines now hex8 lines (apply_line now hex8 s l)).
    destruct (IH (apply_line now hex8 s l)) as (new & added & Hk & Ht & Hn & Ha).
    unfold apply_line in *.
    destruct (parse_download_task now hex8 l s) as [s'|e] eqn:E.
    + destruct (line_growth _ _ _ _ _ E) as (n1 & a1 & Hk1 & Ht1 & Hn1 & Ha1).
      exists (n1 ++ new), (a1 ++ added).
      rewrite Hk, Ht, Hk1, Ht1, !app_assoc, !length_app. simpl. repeat split; lia.
    + exists new, added. simpl. repeat split; auto; lia.
Qed.

(** X21. A timer is tied to an id, not to the task that was finished: when
    a timer for an id is still pending, the registry has no task under the
    id (it was cleared), and a task-discovery line brings the id back, the
    new task is Queued, and the firing of the old timer is a step of the
    program that removes it again, leaving the registry as it was before
    the discovery (distinct keys). *)
Theorem stale_timer_removes_new_task now hex8 message id s s1 pre post :
  wf_dict (download_tasks s) ->
  classify message = TaskDiscovered id ->
  dict_mem id (download_tasks s) = false ->
  timers s = pre ++ id :: post ->
  parse_download_task now hex8 message s = Ok s1 ->
  dict_get (download_tasks s1) id = Some (new_task id placeholder Queued now)
  /\ step s1 (remove_finished_task id
                {| download_tasks := download_tasks s1; timers := pre ++ post |})
  /\ download_tasks
       (remove_finished_task id
          {| download_tasks := download_tasks s1; timers := pre ++ post |})
     = download_tasks s.
Proof.
  intros Hwf Hc Hm Ht H.
  rewrite (discovery_new _ _ _ _ _ Hc Hm) in H. injection H as <-.
  cbn [download_tasks with_tasks timers].
  assert (G : dict_get (download_tasks s ++ [(id, new_task id placeholder Queued now)]) id
              = Some (new_task id placeholder Queued now)).
  { rewrite <- dict_set_fresh by assumption. rewrite dict_get_set.
    now rewrite str_eqb_refl. }
  split; [exact G|]. split.
  - apply (step_timer
             (with_tasks s (download_tasks s ++ [(id, new_task id placeholder Queued now)]))
             pre id post).
    exact Ht.
  - unfold remove_finished_task. cbn [download_tasks with_tasks].
    unfold dict_mem. rewrite G. cbn [download_tasks with_tasks].
    rewrite dict_del_split; [apply app_nil_r|].
    intros e He E. apply (in_map fst) in He. rewrite E in He.
    apply dict_mem_keys in He. congruence.
Qed.

Lemma read_progress_value dl tot d n p :
  read_progress dl tot = Ok (d, n, p) -> progress_value d n = Ok p.
Proof.
  unfold read_progress.
  destruct (py_int dl) as [d'|]; cbn [bind]; [|discriminate].
  destruct (py_int tot) as [n'|]; cbn [bind]; [|discriminate].
  destruct (progress_value d' n') as [p'|] eqn:E; cbn [bind]; [|discriminate].
  intros H; injection H as <- <- <-. exact E.
Qed.

Lemma step_status_ok s s' :
  all_tasks status_ok (download_tasks s) -> step s s' ->
  all_tasks status_ok (download_tasks s').
Proof.
  intros Hk Hstep.
  destruct Hstep as [now hex8 message s s' H|s pre tid post H|s|r s].
  - apply parse_effect in H.
    destruct H as [ | id Hc Hm | id pre t post Hc Hd | fname pre k t post Hc Hf Hd Ht
                  | fname Hc Hf Hp | identifier dl tot d n p pre k t post Hc Hr Hd Hi
                  | fname pre k t post Hc Hd Hf | c fname pre k t post Hc Hd Hf ];
      cbn [download_tasks with_tasks]; auto;
      try (rewrite Hd in Hk; revert Hk; apply all_tasks_update).
    + apply Forall_app. split; auto. constructor; [|constructor].
      split; [reflexivity|]. split; discriminate.
    + split; [discriminate|]. split; discriminate.
    + split; [discriminate|]. split; discriminate.
    + apply all_tasks_set; auto. split; [discriminate|]. split; discriminate.
    + split; [discriminate|]. split; [|discriminate].
      intros _. exists p. split; [|reflexivity].
      now apply read_progress_value in Hr.
    + split; [discriminate|]. split; [discriminate|]. reflexivity.
    + destruct c; (split; [discriminate|]); split; discriminate.
  - unfold remove_finished_task. cbn [download_tasks].
    destruct (dict_mem tid (download_tasks s)); cbn [download_tasks with_tasks]; auto.
    now apply all_tasks_del.
  - unfold clear_finished_tasks. cbn [download_tasks with_tasks].
    now apply all_tasks_del_all.
  - unfold clear_tasks.
    destruct (clear_type_of r); cbn [fst download_tasks with_tasks]; auto.
    now apply all_tasks_del_all.
Qed.

Lemma reachable_status_ok s : reachable s -> all_tasks status_ok (download_tasks s).
Proof.
  induction 1 as [|s s' _ IH Hstep]; [constructor | eapply step_status_ok; eauto].
Qed.

(** X22. What a status implies, in every reachable state.  A task that is
    Queued is as its discovery made it: placeholder filename, zero counts,
    progress 0.  A task that is Downloading has the progress computed from
    its counts, never the forced 100.  A task that is Completed has the
    progress 100. *)
Theorem status_invariants s k t :
  reachable s ->
  In (k, t) (download_tasks s) ->
  (status t = Queued -> t = new_task k placeholder Queued (start_time t))
  /\ (status t = Downloading ->
      exists p, progress_value (downloaded t) (total t) = Ok p
                /\ progress t = py_round1 p)
  /\ (status t = Completed -> progress t = PyInt 100).
Proof.
  intros Hr Hin.
  pose proof (reachable_status_ok s Hr) as Hs. pose proof (reachable_keyed s Hr) as Hk.
  unfold all_tasks in Hs. unfold keyed in Hk. rewrite Forall_forall in Hs, Hk.
  specialize (Hs _ Hin). specialize (Hk _ Hin). cbn [fst snd] in Hs, Hk.
  destruct Hs as (H1 & H2 & H3). repeat split; auto.
  intros Hq. rewrite <- Hk. now apply H1.
Qed.

End Runs.

(* ================================================================== *)
(** ** The table follows the registry, except over HTTP *)

Section Window.
Context {RT : Runtime}.

(** A line that reaches no refresh of the table has changed nothing. *)
Lemma no_refresh_no_change now hex8 message s s' :
  parse_download_task now hex8 message s = Ok s' ->
  refreshes message (download_tasks s) = false ->
  s' = s.
Proof.
  intros H E. apply parse_effect in H. unfold refreshes in E.
  destruct H as [ | id Hc Hm | id pre t post Hc Hd | fname pre k t post Hc Hf Hd Ht
                | fname Hc Hf Hp | identifier dl tot d n p pre k t post Hc Hr Hd Hk
                | fname pre k t post Hc Hd Hf | c fname pre k t post Hc Hd Hf ];
    auto; rewrite Hc in E; try discriminate E.
  exfalso. rewrite Hr, Hd in E. apply orb_false_iff in E as [E1 E2].
  destruct Hk as [-> | <-].
  - assert (dict_mem identifier (pre ++ (identifier, t) :: post) = true).
    { apply dict_mem_keys. unfold keys. rewrite map_app.
      apply in_or_app. right. now left. }
    congruence.
  - rewrite has_filename_update in E2. discriminate.
Qed.

Lemma shows_refreshed s w :
  all_tasks sizes_in_range (download_tasks s) ->
  shows {| registry := s; table := update_tasks_ui s w |}.
Proof.
  intros Hfit. unfold shows, update_tasks_ui. cbn [registry table].
  destruct (insert_rows_fit (download_tasks s) [] Hfit) as (rows & -> & Hrows).
  cbn [app tasks_tree]. eapply Forall2_impl; [|exact Hrows].
  intros e r [H _]. exact H.
Qed.

(** X23. The table is refreshed whenever a line changes the registry or
    schedules a timer: if the state after [parse_download_task] differs from
    the state before it, the method has reached a call of
    [update_tasks_ui], and the table is the refresh of the new registry. *)
Theorem changed_line_refreshes now hex8 message win :
  registry (parse_download_task_window now hex8 message win) <> registry win ->
  refreshes message (download_tasks (registry win)) = true
  /\ table (parse_download_task_window now hex8 message win)
     = update_tasks_ui (registry (parse_download_task_window now hex8 message win))
         (table win).
Proof.
  unfold parse_download_task_window. cbn [registry table]. intros Hne.
  assert (E : refreshes message (download_tasks (registry win)) = true).
  { unfold apply_line in Hne.
    destruct (parse_download_task now hex8 message (registry win)) as [s'|e] eqn:Ep;
      [|congruence].
    destruct (refreshes message (download_tasks (registry win))) eqn:E; auto.
    exfalso. apply Hne. eapply no_refresh_no_change; eauto. }
  split; [exact E|]. now rewrite E.
Qed.

(** X24. The operations of the window keep the table in line with the
    registry: when the table has one row for each task, in the order of the
    registry, it has so again after a log line, after the firing of a
    removal timer and after "clear finished", provided the byte counts of
    the new registry are from 0 to below [2^1053]. *)
Theorem window_shows_registry now hex8 message tid win :
  shows win ->
  (all_tasks sizes_in_range
     (download_tasks (registry (parse_download_task_window now hex8 message win))) ->
   shows (parse_download_task_window now hex8 message win))
  /\ (all_tasks sizes_in_range
        (download_tasks (registry (remove_finished_task_window tid win))) ->
      shows (remove_finished_task_window tid win))
  /\ (all_tasks sizes_in_range
        (download_tasks (registry (clear_finished_tasks_window win))) ->
      shows (clear_finished_tasks_window win)).
Proof.
  intros Hs. split; [|split].
  - unfold parse_download_task_window. cbn [registry].
    destruct (refreshes message (download_tasks (registry win))) eqn:E.
    + apply shows_refreshed.
    + intros _.
      assert (Hsame : apply_line now hex8 (registry win) message = registry win).
      { unfold apply_line.
        destruct (parse_download_task now hex8 message (registry win)) as [s'|e] eqn:Ep;
          auto.
        eapply no_refresh_no_change; eauto. }
      unfold shows. cbn [registry table]. rewrite Hsame. exact Hs.
  - unfold remove_finished_task_window.
    destruct (dict_mem tid (download_tasks (registry win))); [|intros _; exact Hs].
    cbn [registry]. apply shows_refreshed.
  - unfold clear_finished_tasks_window. cbn [registry]. apply shows_refreshed.
Qed.

(** X25. A clear over HTTP leaves the table as it is: [clear_tasks] does
    not refresh it, so when the table had one row for each task and the
    request has cleared [n] tasks (distinct keys), the table still has its
    rows, [n] more than the registry has tasks; for [n > 0] it no longer
    shows the registry, until the next refresh. *)
Theorem http_clear_leaves_table r n win :
  shows win ->
  wf_dict (download_tasks (registry win)) ->
  snd (clear_tasks r (registry win)) = Cleared n ->
  table (clear_tasks_window r win) = table win
  /\ List.length (tasks_tree (table (clear_tasks_window r win)))
     = (n + List.length (download_tasks (registry (clear_tasks_window r win))))%nat
  /\ ((0 < n)%nat -> ~ shows (clear_tasks_window r win)).
Proof.
  intros Hs Hwf Hc.
  assert (L : List.length (tasks_tree (table win))
              = (n + List.length (download_tasks (fst (clear_tasks r (registry win)))))%nat).
  { unfold shows in Hs. apply Forall2_length in Hs. rewrite <- Hs.
    revert Hc. unfold clear_tasks.
    destruct (clear_type_of r) as [ty|]; cbn [fst snd]; [|discriminate].
    intros H; injection H as <-.
    rewrite del_all_filter by assumption.
    cbn [download_tasks with_tasks]. rewrite length_map. symmetry. apply filter_length. }
  unfold clear_tasks_window. cbn [registry table].
  split; [reflexivity|]. split; [exact L|].
  intros Hn Hsh. unfold shows in Hsh. cbn [registry table] in Hsh.
  apply Forall2_length in Hsh. lia.
Qed.

End Window.

(* ================================================================== *)
(** ** The figure just below a unit *)

Lemma round_half_even_up (n d q : Z) :
  0 < d -> (2 * q + 1) * d < 2 * n -> n < (q + 1) * d ->
  round_half_even n d = q + 1.
Proof.
  intros Hd H1 H2. unfold round_half_even.
  assert (Hq : n / d = q).
  { symmetry. apply (Z.div_unique n d q (n - q * d)); [left; nia | ring]. }
  assert (Hm : n mod d = n - q * d).
  { symmetry. apply (Z.mod_unique n d q (n - q * d)); [left; nia | ring]. }
  rewrite Hq, Hm.
  replace (2 * (n - q * d) ?= d) with Gt; [reflexivity|].
  symmetry. apply Z.compare_gt_iff. nia.
Qed.

(** X26. The unit is chosen by the byte count and the figure is rounded
    afterwards, so the figure can reach the next unit: the 51 byte counts
    from 1048525 to 1048575 (under 1 MB) all show as '1024.0 KB', and the
    counts from 1073689396 to 1073741823 (under 1 GB) as '1024.0 MB'. *)
Theorem format_bytes_unit_edge {RT : Runtime} (b : Z) :
  (1048525 <= b < 1048576 -> format_bytes b = Ok (u "1024.0 KB"))
  /\ (1073689396 <= b < 1073741824 -> format_bytes b = Ok (u "1024.0 MB")).
Proof.
  assert (P : 1073741824 < 2 ^ 53) by reflexivity.
  split; intros Hb; unfold format_bytes.
  - assert ((b <? 1024) = false) as -> by (apply Z.ltb_ge; lia).
    assert ((b <? 1048576) = true) as -> by (apply Z.ltb_lt; lia).
    destruct (format_quotient 1 b 10 ltac:(lia) ltac:(lia)) as (q & Hq & Hf).
    change (2 ^ 10) with 1024 in *. change (10 ^ Z.of_nat 1) with 10 in Hf.
    rewrite Hq. cbn [bind]. rewrite Hf.
    rewrite (round_half_even_up (b * 10) 1024 10239) by lia.
    vm_compute. reflexivity.
  - assert ((b <? 1024) = false) as -> by (apply Z.ltb_ge; lia).
    assert ((b <? 1048576) = false) as -> by (apply Z.ltb_ge; lia).
    assert ((b <? 1073741824) = true) as -> by (apply Z.ltb_lt; lia).
    destruct (format_quotient 1 b 20 ltac:(lia) ltac:(lia)) as (q & Hq & Hf).
    change (2 ^ 20) with 1048576 in *. change (10 ^ Z.of_nat 1) with 10 in Hf.
    rewrite Hq. cbn [bind]. rewrite Hf.
    rewrite (round_half_even_up (b * 10) 1048576 10239) by lia.
    vm_compute. reflexivity.
Qed.

(* ================================================================== *)
(** ** The task that a line writes to, and what it stores there *)





Section Written.
Context {RT : Runtime}.






End Written.

(* ================================================================== *)
(** ** The further theorems at concrete inputs *)

Lemma wf_run lines : wf_dict (download_tasks (run lines)).
Proof. exact (proj1 (reachable_ok _ (run_reachable lines))). Qed.

(** The timer of T1 fires on the registry of [mixed]. *)
Lemma remove_finished_task_effect_witness :
  wf_dict (download_tasks mixed)
  /\ dict_get (download_tasks (remove_finished_task (u "T1") mixed)) (u "T1") = None.
Proof.
  split; [apply wf_run|].
  exact (proj1 (proj2 (remove_finished_task_effect (u "T1") mixed (wf_run _)))).
Defined.

(** A request with ["type": null]. *)
Lemma clear_tasks_unknown_type_witness :
  clear_tasks (JsonBody (Some TypeOther)) mixed = (mixed, Cleared 0).
Proof.
  exact (proj1 (clear_tasks_unknown_type TypeOther mixed eq_refl eq_refl)).
Defined.

(** One of the two tasks of [mixed] is finished. *)
Lemma clear_tasks_conservation_witness :
  reply_count (send_tasks mixed)
  = (1 + reply_count
           (send_tasks
              (fst (clear_tasks (JsonBody (Some (TypeStr (u "completed")))) mixed))))%nat.
Proof.
  pose proof (clear_tasks_conservation (JsonBody (Some (TypeStr (u "completed"))))
                mixed (wf_run _)) as P.
  assert (E : snd (clear_tasks (JsonBody (Some (TypeStr (u "completed")))) mixed)
              = Cleared 1) by (vm_compute; reflexivity).
  rewrite E in P. exact (proj1 P).
Defined.

(** The discovery of T2 after T1. *)
Lemma line_keeps_keys_witness :
  keys (download_tasks two_queued) = keys (download_tasks queued_T1)
  \/ exists id,
       dict_mem id (download_tasks queued_T1) = false
       /\ keys (download_tasks two_queued) = keys (download_tasks queued_T1) ++ [id]
       /\ (classify (RT := ascii_runtime) (u "Processing task: T2") = TaskDiscovered id
           \/ (id = u "auto_" ++ hex
               /\ exists fname,
                    classify (RT := ascii_runtime) (u "Processing task: T2")
                    = FileDownloadStarted fname)).
Proof.
  apply (line_keeps_keys (RT := ascii_runtime) clock hex (u "Processing task: T2")
           queued_T1 two_queued).
  vm_compute; reflexivity.
Defined.

(** The completion line of the scenario schedules the timer of T1. *)
Lemma timer_with_terminal_status_witness :
  (timers scenario = timers downloading_T1
   /\ forall k t, In (k, t) (download_tasks scenario) ->
        In (k, t) (download_tasks downloading_T1) \/ is_terminal (status t) = false)
  \/ exists k t,
       timers scenario = timers downloading_T1 ++ [k]
       /\ In (k, t) (download_tasks scenario)
       /\ (exists fname,
             filename t = fname
             /\ ((classify (RT := ascii_runtime) (u "file[a.mp4]: downloaded successfully")
                  = CompletionLine (Some fname)
                  /\ status t = Completed)
                 \/ (classify (RT := ascii_runtime) (u "file[a.mp4]: downloaded successfully")
                     = FailureLine true (Some fname)
                     /\ status t = Cancelled)
                 \/ (classify (RT := ascii_runtime) (u "file[a.mp4]: downloaded successfully")
                     = FailureLine false (Some fname)
                     /\ status t = Failed))).
Proof.
  apply (timer_with_terminal_status (RT := ascii_runtime) clock hex
           (u "file[a.mp4]: downloaded successfully") downloading_T1 scenario).
  vm_compute; reflexivity.
Defined.

(** A file-start line binds the queued task T1: id and start time stay. *)
Lemma line_frame_witness :
  exists t',
    dict_get (download_tasks
                (apply_line (RT := ascii_runtime) clock hex queued_T1
                   (u "file[a.mp4]: Starting file download"))) (u "T1") = Some t'
    /\ task_id t' = u "T1"
    /\ start_time t' = clock.
Proof.
  destruct (line_frame (RT := ascii_runtime) clock hex
              (u "file[a.mp4]: Starting file download") queued_T1
              (apply_line (RT := ascii_runtime) clock hex queued_T1
                 (u "file[a.mp4]: Starting file download"))
              (u "T1") (new_task (u "T1") placeholder Queued clock))
    as (t' & H1 & H2 & H3 & _).
  - vm_compute; reflexivity.
  - vm_compute; reflexivity.
  - vm_compute. intros H. discriminate H.
  - exists t'. split; [exact H1|]. split; [exact H2 | exact H3].
Defined.

(** The first of two queued tasks. *)
Lemma stored_under_own_id_witness :
  task_id (new_task (u "T1") placeholder Queued clock) = u "T1"
  /\ dict_get (download_tasks two_queued)
       (task_id (new_task (u "T1") placeholder Queued clock))
     = Some (new_task (u "T1") placeholder Queued clock).
Proof.
  apply (stored_under_own_id (RT := ascii_runtime) two_queued (u "T1")
           (new_task (u "T1") placeholder Queued clock)).
  - apply run_reachable.
  - vm_compute. left. reflexivity.
Defined.

(** Two queued tasks share a filename: the placeholder. *)
Lemma bound_filename_unique_witness :
  filename (new_task (u "T1") placeholder Queued clock) = placeholder.
Proof.
  apply (bound_filename_unique (RT := ascii_runtime) two_queued
           [] (u "T1") (new_task (u "T1") placeholder Queued clock)
           [] (u "T2") (new_task (u "T2") placeholder Queued clock) []).
  - apply run_reachable.
  - vm_compute; reflexivity.
  - reflexivity.
Defined.

(** The completion line of the scenario, on the task that downloads. *)
Lemma terminal_line_effect_witness :
  classify (RT := ascii_runtime) (u "file[a.mp4]: downloaded successfully")
    = CompletionLine (Some (u "a.mp4"))
  /\ parse_download_task (RT := ascii_runtime) clock hex
       (u "file[a.mp4]: downloaded successfully") downloading_T1
     = Ok {| download_tasks :=
               [] ++ (u "T1", {| task_id := u "T1"; filename := u "a.mp4";
                                 downloaded := 50; total := 100;
                                 progress := PyInt 100; status := Completed;
                                 start_time := clock |}) :: [];
             timers := timers downloading_T1 ++ [u "T1"] |}.
Proof.
  split; [vm_compute; reflexivity|].
  apply (proj1 (terminal_line_effect (RT := ascii_runtime) clock hex
                  (u "file[a.mp4]: downloaded successfully") downloading_T1
                  [] (u "T1")
                  {| task_id := u "T1"; filename := u "a.mp4"; downloaded := 50;
                     total := 100;
                     progress := PyFloat (S754_finite false 7036874417766400 (-47));
                     status := Downloading; start_time := clock |}
                  []
                  ltac:(vm_compute; reflexivity)
                  ltac:(intros e [])));
    vm_compute; reflexivity.
Defined.

(** The scenario, then the timer of T1: the registry is empty. *)
Lemma line_then_timer_witness :
  dict_mem (u "T1") (download_tasks downloading_T1) = true
  /\ download_tasks (remove_finished_task (u "T1") scenario)
     = download_tasks (remove_finished_task (u "T1") downloading_T1)
  /\ dict_get (download_tasks (remove_finished_task (u "T1") scenario)) (u "T1") = None.
Proof.
  apply (line_then_timer (RT := ascii_runtime) clock hex
           (u "file[a.mp4]: downloaded successfully") downloading_T1 scenario (u "T1")).
  - apply wf_run.
  - vm_compute; reflexivity.
  - vm_compute; reflexivity.
Defined.

(** The discovery line of T1, a second time, later. *)
Lemma line_replay_witness :
  exists s2,
    parse_download_task (RT := ascii_runtime) (u "2024-05-01 12:00:09") (u "ffffffff")
      (u "Processing task: T1") queued_T1 = Ok s2
    /\ download_tasks s2 = download_tasks queued_T1.
Proof.
  apply (line_replay (RT := ascii_runtime) clock hex (u "2024-05-01 12:00:09")
           (u "ffffffff") (u "Processing task: T1") initial queued_T1).
  vm_compute; reflexivity.
Defined.

(** The line with 10^400 bytes of 1 is dropped on an OverflowError. *)
Lemma progress_line_exceptions_witness :
  (OverflowError = ValueError
   /\ (0 < int_max_str_digits (Runtime := ascii_runtime))%nat
   /\ ((int_max_str_digits (Runtime := ascii_runtime) < List.length huge_number)%nat
       \/ (int_max_str_digits (Runtime := ascii_runtime) < List.length (u "1"))%nat))
  \/ (OverflowError = OverflowError
      /\ exists d t,
           py_int (RT := ascii_runtime) huge_number = Ok d
           /\ py_int (RT := ascii_runtime) (u "1") = Ok t
           /\ 0 < t /\ 2 ^ 1023 * t <= d).
Proof.
  apply (progress_line_exceptions (RT := ascii_runtime) huge_line (u "T1")
           huge_number (u "1") OverflowError).
  - vm_compute; reflexivity.
  - vm_compute; reflexivity.
Defined.

(** The id of a discovery line. *)
Lemma captured_id_is_word_witness :
  u "T1" <> []
  /\ Forall (fun x => isalnum (Runtime := ascii_runtime) x || char_eqb x 95%N = true)
       (u "T1").
Proof.
  apply (captured_id_is_word (RT := ascii_runtime) (u "Processing task: T1") (u "T1")).
  left. vm_compute; reflexivity.
Defined.

(** 1280 bytes are 1.25 KB and show as 1.2 KB: the tie goes to the even digit. *)
Lemma format_bytes_exact_witness :
  0 <= 1280 < 2 ^ 53 /\ format_bytes (RT := ascii_runtime) 1280 = Ok (u "1.2 KB").
Proof.
  assert (H : 0 <= 1280 < 2 ^ 53) by (split; [discriminate | reflexivity]).
  split; [exact H|].
  rewrite (format_bytes_exact (RT := ascii_runtime) 1280 H). vm_compute. reflexivity.
Defined.

(** The table after the scenario of section 8. *)
Lemma table_shows_registry_witness :
  tasks_count_label (update_tasks_ui (RT := ascii_runtime) scenario create_tasks_tab)
    = count_label (download_tasks scenario)
  /\ Forall2 (fun e r => task_row (RT := ascii_runtime) (snd e) = Ok r
                         /\ col_filename r = filename (snd e))
       (download_tasks scenario)
       (tasks_tree (update_tasks_ui (RT := ascii_runtime) scenario create_tasks_tab)).
Proof.
  apply (table_shows_registry (RT := ascii_runtime) scenario create_tasks_tab).
  - apply run_reachable.
  - assert (E : download_tasks scenario
                = [(u "T1", {| task_id := u "T1"; filename := u "a.mp4";
                               downloaded := 50; total := 100;
                               progress := PyInt 100; status := Completed;
                               start_time := clock |})])
      by (vm_compute; reflexivity).
    rewrite E. constructor; [|constructor]. split; reflexivity.
Defined.


(** T1 is completed, the registry is cleared over HTTP, T1 is discovered
    again, and the timer of the first T1 fires. *)
Lemma stale_timer_removes_new_task_witness :
  dict_get (download_tasks
              (apply_line (RT := ascii_runtime) clock hex cleared_T1
                 (u "Processing task: T1"))) (u "T1")
    = Some (new_task (u "T1") placeholder Queued clock)
  /\ step (RT := ascii_runtime)
       (apply_line (RT := ascii_runtime) clock hex cleared_T1 (u "Processing task: T1"))
       (remove_finished_task (u "T1")
          {| download_tasks :=
               download_tasks
                 (apply_line (RT := ascii_runtime) clock hex cleared_T1
                    (u "Processing task: T1"));
             timers := [] ++ [] |})
  /\ download_tasks
       (remove_finished_task (u "T1")
          {| download_tasks :=
               download_tasks
                 (apply_line (RT := ascii_runtime) clock hex cleared_T1
                    (u "Processing task: T1"));
             timers := [] ++ [] |})
     = download_tasks cleared_T1.
Proof.
  apply (stale_timer_removes_new_task (RT := ascii_runtime) clock hex
           (u "Processing task: T1") (u "T1") cleared_T1
           (apply_line (RT := ascii_runtime) clock hex cleared_T1
              (u "Processing task: T1"))
           [] []).
  - vm_compute. constructor.
  - vm_compute; reflexivity.
  - vm_compute; reflexivity.
  - vm_compute; reflexivity.
  - vm_compute; reflexivity.
Defined.

(** The task of the scenario is Completed and shows 100. *)
Lemma status_invariants_witness :
  progress {| task_id := u "T1"; filename := u "a.mp4"; downloaded := 50;
              total := 100; progress := PyInt 100; status := Completed;
              start_time := clock |} = PyInt 100.
Proof.
  apply (proj2 (proj2 (status_invariants (RT := ascii_runtime) scenario (u "T1")
                         {| task_id := u "T1"; filename := u "a.mp4"; downloaded := 50;
                            total := 100; progress := PyInt 100; status := Completed;
                            start_time := clock |}
                         (run_reachable _)
                         ltac:(vm_compute; left; reflexivity)))).
  reflexivity.
Defined.


(** The completion line of the scenario, on a window that shows T1. *)
Lemma changed_line_refreshes_witness :
  refreshes (RT := ascii_runtime) (u "file[a.mp4]: downloaded successfully")
    (download_tasks downloading_T1) = true
  /\ table (parse_download_task_window (RT := ascii_runtime) clock hex
              (u "file[a.mp4]: downloaded successfully")
              {| registry := downloading_T1; table := create_tasks_tab |})
     = update_tasks_ui (RT := ascii_runtime)
         (registry (parse_download_task_window (RT := ascii_runtime) clock hex
                      (u "file[a.mp4]: downloaded successfully")
                      {| registry := downloading_T1; table := create_tasks_tab |}))
         create_tasks_tab.
Proof.
  apply (changed_line_refreshes (RT := ascii_runtime) clock hex
           (u "file[a.mp4]: downloaded successfully")
           {| registry := downloading_T1; table := create_tasks_tab |}).
  vm_compute. intros H. discriminate H.
Defined.

Lemma shows_scenario_window : shows (RT := ascii_runtime) scenario_window.
Proof.
  unfold shows.
  assert (E : download_tasks (registry scenario_window)
              = [(u "T1", {| task_id := u "T1"; filename := u "a.mp4";
                             downloaded := 50; total := 100;
                             progress := PyInt 100; status := Completed;
                             start_time := clock |})])
    by (vm_compute; reflexivity).
  rewrite E.
  assert (E2 : tasks_tree (table scenario_window)
               = [ {| col_filename := u "a.mp4"; col_downloaded := u "50 B";
                      col_total := u "100 B"; col_progress := PyInt 100;
                      col_status := status_token Completed;
                      col_start_time := clock |} ])
    by (vm_compute; reflexivity).
  rewrite E2. constructor; [|constructor]. vm_compute; reflexivity.
Qed.

(** "Clear finished" on the window after the scenario. *)
Lemma window_shows_registry_witness :
  shows (RT := ascii_runtime)
    (clear_finished_tasks_window (RT := ascii_runtime) scenario_window).
Proof.
  apply (proj2 (proj2 (window_shows_registry (RT := ascii_runtime) clock hex
                         (u "Processing task: T1") (u "T1") scenario_window
                         shows_scenario_window))).
  assert (E : download_tasks
                (registry (clear_finished_tasks_window (RT := ascii_runtime)
                             scenario_window)) = [])
    by (vm_compute; reflexivity).
  rewrite E. constructor.
Defined.

(** 'all' over HTTP on the window after the scenario: one row stays. *)
Lemma http_clear_leaves_table_witness :
  table (clear_tasks_window (JsonBody (Some (TypeStr (u "all")))) scenario_window)
    = table scenario_window
  /\ List.length
       (tasks_tree
          (table (clear_tasks_window (JsonBody (Some (TypeStr (u "all")))) scenario_window)))
     = (1 + List.length
              (download_tasks
                 (registry
                    (clear_tasks_window (JsonBody (Some (TypeStr (u "all"))))
                       scenario_window))))%nat
  /\ ((0 < 1)%nat ->
      ~ shows (RT := ascii_runtime)
          (clear_tasks_window (JsonBody (Some (TypeStr (u "all")))) scenario_window)).
Proof.
  apply (http_clear_leaves_table (RT := ascii_runtime) (JsonBody (Some (TypeStr (u "all")))) 1 scenario_window
           shows_scenario_window).
  - assert (E : download_tasks (registry scenario_window) = download_tasks scenario)
      by (vm_compute; reflexivity).
    rewrite E. apply wf_run.
  - vm_compute; reflexivity.
Defined.


